(** * A retrieval backend for voice agents

    Shallow embedding of the Python sources under [streamlit_backend/]:
    [supabase_client.py] (the store operations), [api.py] (the FastAPI
    handlers), [rag_backend.py] (the stand-alone query function) and
    [crawler.py] (the breadth-first crawler and the curation helpers).

    Handlers are functions in a state-and-exception monad over a [World]
    that holds the tables of the store, the log of requests sent to it, the
    lines printed on the server and the counters of the two sources of
    non-determinism ([uuid.uuid4] and [random.choice]).  Everything the
    handlers cannot decide themselves (environment variables, whether
    [create_client] accepts them, the SQL function behind the
    [find_best_answer] remote call, which request to the store fails, the
    web) is read from an [Env].  The entries that the matching engine
    returns hold values of the types of their columns: a text or [null]
    under the three text keys, a number or [null] under [similarity]. *)

From Stdlib Require Import ZArith Floats Ascii String.
From stdpp Require Import gmap strings list pretty.

Local Open Scope string_scope.

(** ** Python built-ins used by the handlers *)

Module Py.

(** [str.isspace] on one character.  A Python [str] is a sequence of code
    points; the embedding holds the code points below 256, one per
    [ascii].  Python counts as white space: TAB, LF, VT, FF, CR, the four
    separators FS, GS, RS and US, SPACE, NEL and NBSP. *)
Definition isspace (c : ascii) : bool :=
  let n := nat_of_ascii c in
  (((9 <=? n) && (n <=? 13)) || ((28 <=? n) && (n <=? 32))
   || (n =? 133) || (n =? 160))%nat.

Fixpoint lstrip (s : list ascii) : list ascii :=
  match s with
  | c :: s' => if isspace c then lstrip s' else s
  | [] => []
  end.

Definition rstrip (s : list ascii) : list ascii := rev (lstrip (rev s)).

(** [s.strip()]: leading and trailing white space removed. *)
Definition strip (s : string) : string :=
  string_of_list_ascii (rstrip (lstrip (list_ascii_of_string s))).

(** Truth value of a [str]: every string but the empty one. *)
Definition truthy_str (s : string) : bool :=
  match s with EmptyString => false | String _ _ => true end.

(** Truth value of what [dict.get] returns for a text column: [None]
    (key absent, or SQL NULL) and the empty string are false. *)
Definition truthy (v : option string) : bool :=
  match v with Some s => truthy_str s | None => false end.

(** [a or b] on such values. *)
Definition or_ (a b : option string) : option string :=
  if truthy a then a else b.

(** [float(v or 0)] for what [dict.get(key, 0)] returns for a numeric
    column: [None] and both zeros are false, so they become [0.0]; every
    other number (a NaN too) is kept. *)
Definition float_or_0 (v : option float) : float :=
  match v with
  | Some x => if PrimFloat.eqb x 0%float then 0%float else x
  | None => 0%float
  end.

(** [c in s] for a one-character [c]. *)
Fixpoint contains (c : ascii) (s : string) : bool :=
  match s with
  | EmptyString => false
  | String d s' => Ascii.eqb c d || contains c s'
  end.

(** [str.lower] on one character: among the code points below 256 the
    upper-case letters are A to Z, and À to Þ without the multiplication
    sign; each has its lower case 32 places on. *)
Definition lower_char (c : ascii) : ascii :=
  let n := nat_of_ascii c in
  if (((65 <=? n) && (n <=? 90)) || ((192 <=? n) && (n <=? 214))
      || ((216 <=? n) && (n <=? 222)))%nat
  then ascii_of_nat (n + 32)
  else c.

Fixpoint lower (s : string) : string :=
  match s with
  | EmptyString => EmptyString
  | String c s' => String (lower_char c) (lower s')
  end.

(** [s.startswith(p)] and [p in s]. *)
Fixpoint startswith (p s : string) : bool :=
  match p, s with
  | EmptyString, _ => true
  | String _ _, EmptyString => false
  | String c p', String d s' => Ascii.eqb c d && startswith p' s'
  end.

Fixpoint occurs (p s : string) : bool :=
  startswith p s
  || match s with
     | EmptyString => false
     | String _ s' => occurs p s'
     end.

(** [re.split] on a class of single characters, and [str.split(sep)] for a
    one-character [sep]: the pieces between the separators, one more than
    there are separators. *)
Fixpoint split_on (sep : ascii → bool) (s : string) : list string :=
  match s with
  | EmptyString => [EmptyString]
  | String c s' =>
      if sep c then EmptyString :: split_on sep s'
      else match split_on sep s' with
           | piece :: pieces => String c piece :: pieces
           | [] => [String c EmptyString]
           end
  end.

(** [sep.join(pieces)]. *)
Fixpoint join (sep : string) (pieces : list string) : string :=
  match pieces with
  | [] => EmptyString
  | [piece] => piece
  | piece :: pieces' => piece +:+ sep +:+ join sep pieces'
  end.

(** [re.search(pattern, s)] for a pattern that is an alternation of
    literal words, as all patterns of the sources are: one of the words
    occurs in [s]. *)
Definition search_words (pattern s : string) : bool :=
  existsb (λ word, occurs word s) (split_on (Ascii.eqb "|") pattern).

End Py.

(** ** Exceptions, the world and the monad *)

(** Two classes of exceptions reach the handlers: [HTTPException], raised by
    the handlers themselves, and every other [Exception], of which only the
    message [str(e)] is ever looked at. *)
Inductive exn : Type :=
| Exception (msg : string)
| HTTPException (status_code : Z) (detail : string).

(** [str(e)]; Starlette prints an [HTTPException] as its code and detail. *)
Definition str_exn (e : exn) : string :=
  match e with
  | Exception msg => msg
  | HTTPException code detail => pretty code +:+ ": " +:+ detail
  end.

Inductive outcome (A : Type) : Type :=
| Return (a : A)
| Raise (e : exn).
Arguments Return {A} a.
Arguments Raise {A} e.

(** Rows of the three tables the sources read and write. *)
Record KnowledgeBase : Type := {
  kb_id : string;
  kb_agent_id : string;
  kb_source_url : string;
  kb_status : string
}.

Record Chunk : Type := {
  chunk_id : string;
  chunk_kb_id : string;
  chunk_question : option string;
  chunk_spoken_response : option string;
  chunk_content : option string;
  chunk_keywords : list string;
  chunk_priority : Z;
  chunk_curated : bool
}.

Record WebsiteData : Type := {
  wd_id : string;
  wd_agent_id : string;
  wd_url : string;
  wd_page_title : string;
  wd_content : string;
  wd_headings : list string;
  wd_links : list string;
  wd_kb_id : string;
  wd_contacts : list (string * list string);
  wd_lists_count : nat;
  wd_status : string
}.

(** One key of a JSON object as Python reads it: absent, present with
    [null], or present with a value. *)
Inductive cell (A : Type) : Type :=
| Absent
| Null
| Value (a : A).
Arguments Absent {A}.
Arguments Null {A}.
Arguments Value {A} a.

(** [d.get(key)] and [d.get(key, default)]. *)
Definition get {A : Type} (c : cell A) : option A :=
  match c with Value a => Some a | Absent | Null => None end.

Definition get_default {A : Type} (c : cell A) (default : A) : option A :=
  match c with Value a => Some a | Absent => Some default | Null => None end.

(** A row returned by the [find_best_answer] remote call: the four keys the
    handlers read, and how many other keys the object has. *)
Record Row : Type := {
  row_question : cell string;
  row_spoken_response : cell string;
  row_content : cell string;
  row_similarity : cell float;
  row_other_keys : nat
}.

(** Truth value of the row as a [dict]: false for the empty object only. *)
Definition truthy_row (r : Row) : bool :=
  match row_question r, row_spoken_response r, row_content r,
        row_similarity r, row_other_keys r with
  | Absent, Absent, Absent, Absent, O => false
  | _, _, _, _, _ => true
  end.

(** What is sent to the store. *)
Inductive request : Type :=
| Rpc (fn : string)
| Select (table : string)
| Insert (table : string)
| Update (table : string)
| Delete (table : string).

Record World : Type := {
  knowledge_bases : list KnowledgeBase;
  document_chunks : list Chunk;
  website_data : list WebsiteData;
  requests : list request;      (* every request sent to the store, oldest first *)
  uuids_drawn : nat;            (* calls of uuid.uuid4 so far *)
  draws : nat;                  (* calls of random.choice so far *)
  stdout : list string          (* lines printed, oldest first *)
}.

(** What one HTTP request and the HTML parser give for a page, before
    [extract_page_content] cuts it to size: the cleaned title, the joined
    text of the content areas, the headings, the list items, the contact
    matches and, for every [<a href>] in document order, the absolute
    address [urljoin(url, href)]. *)
Record Document : Type := {
  doc_title : string;
  doc_full_text : string;
  doc_headings : list string;
  doc_lists : list string;
  doc_contacts : list (string * list string);
  doc_anchors : list string
}.

Record Env : Type := {
  getenv : string → option string;
  (* [create_client(url, key)] of the supabase library: [None] when it
     makes the client, [Some msg] when it raises an exception whose message
     is [msg], as it does for a URL or a key that it finds invalid *)
  create_client : string → string → option string;
  (* the n-th HTTP request of a crawl, to the given address: the parsed
     page, or the message of the exception that the request or the parser
     raised *)
  fetch : nat → string → string + Document;
  (* urlparse(u).netloc *)
  netloc : string → string;
  (* the SQL function behind the remote call, over the tables it reads;
     arguments: user_query, p_agent_id *)
  sql_find_best_answer :
    list KnowledgeBase → list Chunk → string → string → list Row;
  (* [fault n = Some msg]: the n-th request sent to the store raises an
     exception whose message is [msg] *)
  fault : nat → option string;
  uuid4 : nat → string;
  entropy : nat → nat
}.

Definition M (A : Type) : Type := World → outcome A * World.

#[global] Instance M_ret : MRet M := λ A a w, (Return a, w).
#[global] Instance M_bind : MBind M := λ A B f m w,
  match m w with
  | (Return a, w') => f a w'
  | (Raise e, w') => (Raise e, w')
  end.

Definition raise {A : Type} (e : exn) : M A := λ w, (Raise e, w).

(** [try: body  except Exception as e: handler e]. *)
Definition try_except {A : Type} (body : M A) (handler : exn → M A) : M A :=
  λ w, match body w with
       | (Raise e, w') => handler e w'
       | r => r
       end.

Definition print (line : string) : M unit := λ w,
  (Return tt,
   {| knowledge_bases := knowledge_bases w;
      document_chunks := document_chunks w;
      website_data := website_data w;
      requests := requests w;
      uuids_drawn := uuids_drawn w;
      draws := draws w;
      stdout := stdout w ++ [line] |}).

Definition sent (r : request) (w : World) : World :=
  {| knowledge_bases := knowledge_bases w;
     document_chunks := document_chunks w;
     website_data := website_data w;
     requests := requests w ++ [r];
     uuids_drawn := uuids_drawn w;
     draws := draws w;
     stdout := stdout w |}.

Definition with_knowledge_bases (kbs : list KnowledgeBase) (w : World) : World :=
  {| knowledge_bases := kbs;
     document_chunks := document_chunks w;
     website_data := website_data w;
     requests := requests w;
     uuids_drawn := uuids_drawn w;
     draws := draws w;
     stdout := stdout w |}.

Definition with_document_chunks (cs : list Chunk) (w : World) : World :=
  {| knowledge_bases := knowledge_bases w;
     document_chunks := cs;
     website_data := website_data w;
     requests := requests w;
     uuids_drawn := uuids_drawn w;
     draws := draws w;
     stdout := stdout w |}.

Definition with_website_data (ds : list WebsiteData) (w : World) : World :=
  {| knowledge_bases := knowledge_bases w;
     document_chunks := document_chunks w;
     website_data := ds;
     requests := requests w;
     uuids_drawn := uuids_drawn w;
     draws := draws w;
     stdout := stdout w |}.

Section Effects.
Context (E : Env).

(** [....execute()]: the request goes out, and either raises or lets
    [effect] act on the tables and answer. *)
Definition execute {A : Type} (r : request) (effect : World → A * World) : M A :=
  λ w, match fault E (length (requests w)) with
       | Some msg => (Raise (Exception msg), sent r w)
       | None => let '(a, w') := effect (sent r w) in (Return a, w')
       end.

(** [str(uuid.uuid4())]. *)
Definition new_uuid : M string := λ w,
  (Return (uuid4 E (uuids_drawn w)),
   {| knowledge_bases := knowledge_bases w;
      document_chunks := document_chunks w;
      website_data := website_data w;
      requests := requests w;
      uuids_drawn := S (uuids_drawn w);
      draws := draws w;
      stdout := stdout w |}).

(** [random.choice(seq)]: an index below [len(seq)], [IndexError] on an
    empty sequence. *)
Definition random_choice {A : Type} (seq : list A) : M A := λ w,
  match seq !! (entropy E (draws w) mod length seq)%nat with
  | Some x =>
      (Return x,
       {| knowledge_bases := knowledge_bases w;
          document_chunks := document_chunks w;
          website_data := website_data w;
          requests := requests w;
          uuids_drawn := uuids_drawn w;
          draws := S (draws w);
          stdout := stdout w |})
  | None => (Raise (Exception "Cannot choose from an empty sequence"), w)
  end.

End Effects.

(** ** supabase_client.py *)

Module supabase_client.
Section WithEnv.
Context (E : Env).

Record Client : Type := { supabase_url : string; supabase_key : string }.

(** The message of the [ValueError] of [get_supabase_client]. *)
Definition unconfigured_message : string :=
  "Supabase URL and Key must be set in environment variables".

(** [if not url or not key: raise ValueError(...)], then
    [create_client(url, key)], which raises when it rejects the two
    values. *)
Definition get_supabase_client : M Client := λ w,
  let url := getenv E "NEXT_PUBLIC_SUPABASE_URL" in
  let key := getenv E "NEXT_PUBLIC_SUPABASE_ANON_KEY" in
  if negb (Py.truthy url) || negb (Py.truthy key)
  then (Raise (Exception unconfigured_message), w)
  else
    match create_client E (default "" url) (default "" key) with
    | Some msg => (Raise (Exception msg), w)
    | None => (Return {| supabase_url := default "" url;
                         supabase_key := default "" key |}, w)
    end.

Definition get_or_create_knowledge_base
    (client : Client) (agent_id source_url : string) : M string :=
  result ← execute E (Select "knowledge_bases")
             (λ w, (filter (λ kb, kb_agent_id kb = agent_id)
                           (knowledge_bases w), w));
  match result with
  | kb :: _ => mret (kb_id kb)
  | [] =>
      id ← new_uuid E;
      execute E (Insert "knowledge_bases")
        (λ w, (tt, with_knowledge_bases
                     (knowledge_bases w ++
                        [{| kb_id := id; kb_agent_id := agent_id;
                            kb_source_url := source_url;
                            kb_status := "processing" |}]) w));;
      mret id
  end.

Definition save_curated_qa
    (client : Client) (kb_id question spoken_response : string)
    (keywords : list string) (source_content : option string)
    (priority : Z) : M Chunk :=
  id ← new_uuid E;
  let row :=
    {| chunk_id := id; chunk_kb_id := kb_id;
       chunk_question := Some question;
       chunk_spoken_response := Some spoken_response;
       chunk_content := Py.or_ source_content (Some spoken_response);
       chunk_keywords := keywords; chunk_priority := priority;
       chunk_curated := true |} in
  execute E (Insert "document_chunks")
    (λ w, (row, with_document_chunks (document_chunks w ++ [row]) w)).

Definition find_best_answer
    (client : Client) (agent_id user_query : string) : M (option Row) :=
  data ← execute E (Rpc "find_best_answer")
           (λ w, (sql_find_best_answer E (knowledge_bases w)
                    (document_chunks w) user_query agent_id, w));
  match data with
  | row :: _ => mret (Some row)
  | [] => mret None
  end.

Definition delete_qa_pair (client : Client) (chunk_id' : string) : M bool :=
  execute E (Delete "document_chunks")
    (λ w, (tt, with_document_chunks
                 (filter (λ c, chunk_id c ≠ chunk_id') (document_chunks w)) w));;
  mret true.

Definition update_kb_status (client : Client) (kb_id' status : string) : M unit :=
  execute E (Update "knowledge_bases")
    (λ w, (tt, with_knowledge_bases
                 ((λ kb, if decide (kb_id kb = kb_id')
                         then {| kb_id := kb_id kb;
                                 kb_agent_id := kb_agent_id kb;
                                 kb_source_url := kb_source_url kb;
                                 kb_status := status |}
                         else kb) <$> knowledge_bases w) w)).

Definition same_page (agent_id url : string) (d : WebsiteData) : Prop :=
  wd_agent_id d = agent_id ∧ wd_url d = url.

#[global] Instance same_page_dec agent_id url d : Decision (same_page agent_id url d).
Proof. unfold same_page. apply _. Defined.

(** Modelled from the spec: the SQL function [upsert_website_data] behind
    the remote call is not among the sources.  "Upserted keyed by (agent,
    URL): re-crawling the same URL replaces its record rather than
    duplicating it."  The stored row keeps its id; a new row takes the
    next id of the supply. *)
Definition upsert_website_data (data : WebsiteData) (w : World) : string * World :=
  match filter (same_page (wd_agent_id data) (wd_url data)) (website_data w) with
  | old :: _ =>
      (wd_id old,
       with_website_data
         ((λ d, if decide (same_page (wd_agent_id data) (wd_url data) d)
                then {| wd_id := wd_id d; wd_agent_id := wd_agent_id data;
                        wd_url := wd_url data; wd_page_title := wd_page_title data;
                        wd_content := wd_content data; wd_headings := wd_headings data;
                        wd_links := wd_links data; wd_kb_id := wd_kb_id data;
                        wd_contacts := wd_contacts data;
                        wd_lists_count := wd_lists_count data;
                        wd_status := wd_status data |}
                else d) <$> website_data w) w)
  | [] =>
      let '(r, w') := new_uuid E w in
      let id := match r with Return id => id | Raise _ => wd_id data end in
      (id,
       with_website_data
         (website_data w' ++
            [{| wd_id := id; wd_agent_id := wd_agent_id data;
                wd_url := wd_url data; wd_page_title := wd_page_title data;
                wd_content := wd_content data; wd_headings := wd_headings data;
                wd_links := wd_links data; wd_kb_id := wd_kb_id data;
                wd_contacts := wd_contacts data;
                wd_lists_count := wd_lists_count data;
                wd_status := wd_status data |}]) w')
  end.

(** [metadata] is the dictionary [{'kb_id', 'contacts', 'lists_count'}]
    that the one caller passes; the function returns a dictionary whose
    ['id'] is kept here. *)
Definition save_website_data
    (client : Client) (agent_id url page_title content : string)
    (headings links : list string)
    (metadata : string * list (string * list string) * nat) : M string :=
  let '(kb, contacts, lists_count) := metadata in
  let data id :=
    {| wd_id := id; wd_agent_id := agent_id; wd_url := url;
       wd_page_title := page_title; wd_content := content;
       wd_headings := headings; wd_links := links;
       wd_kb_id := kb; wd_contacts := contacts;
       wd_lists_count := lists_count; wd_status := "pending" |} in
  try_except
    (execute E (Rpc "upsert_website_data") (upsert_website_data (data "")))
    (λ e,
       print ("[DB] RPC not available, using direct insert: " +:+ str_exn e);;
       existing ← execute E (Select "website_data")
                    (λ w, (filter (same_page agent_id url) (website_data w), w));
       match existing with
       | old :: _ =>
           execute E (Update "website_data")
             (λ w, (tt, with_website_data
                          ((λ d, if decide (wd_id d = wd_id old)
                                 then data (wd_id d) else d)
                             <$> website_data w) w));;
           mret (wd_id old)
       | [] =>
           id ← new_uuid E;
           execute E (Insert "website_data")
             (λ w, (tt, with_website_data (website_data w ++ [data id]) w));;
           mret id
       end).

(** [select('*').eq('id', data_id)]: the first row with that id, or
    [None]. *)
Definition get_website_data_by_id
    (client : Client) (data_id : string) : M (option WebsiteData) :=
  result ← execute E (Select "website_data")
             (λ w, (filter (λ d, wd_id d = data_id) (website_data w), w));
  mret (head result).

Definition delete_website_data (client : Client) (data_id : string) : M bool :=
  execute E (Delete "website_data")
    (λ w, (tt, with_website_data
                 (filter (λ d, wd_id d ≠ data_id) (website_data w)) w));;
  mret true.

End WithEnv.
End supabase_client.

(** ** crawler.py *)

Module crawler.

Record PageData : Type := {
  url : string;
  title : string;
  content : string;
  headings : list string;
  lists : list string;
  contacts : list (string * list string);
  links : list string;
  internal_links : list string;
  success : bool;
  error : option string
}.

(** One suggestion of [extract_qa_suggestions]. *)
Record Suggestion : Type := {
  sg_question : string;
  sg_source_content : string;
  sg_keywords : list string
}.

(** One curated pair as [save_qa_to_supabase] receives it, a [dict]: [None]
    is a key that is absent. *)
Record QADict : Type := {
  qa_question : option string;
  qa_spoken_response : option string;
  qa_keywords : option (list string);
  qa_priority : option Z
}.

(** The variables of [crawl_website], and the addresses requested so far
    (oldest first), which the program does not keep. *)
Record CrawlState : Type := {
  visited : gset string;
  to_visit : list string;
  pages : list PageData;
  fetched : list string
}.

Section WithEnv.
Context (E : Env).
(** [extract_qa_suggestions] matches six fixed regular expressions against
    the page text; it is kept as a function of the page. *)
Context (extract_qa_suggestions : PageData → list Suggestion).

(** The loop over [soup.find_all('a', href=True)]. *)
Fixpoint collect_internal_links
    (base_domain : string) (anchors internal_links : list string) : list string :=
  match anchors with
  | [] => internal_links
  | full_url :: anchors' =>
      if decide (netloc E full_url = base_domain) then
        if bool_decide (full_url ∉ internal_links)
           && negb (Py.contains "#"%char full_url)
        then collect_internal_links base_domain anchors' (internal_links ++ [full_url])
        else collect_internal_links base_domain anchors' internal_links
      else collect_internal_links base_domain anchors' internal_links
  end.

(** [extract_page_content(url)], as the [n]-th request of the crawl. *)
Definition extract_page_content (n : nat) (url' : string) : PageData :=
  match fetch E n url' with
  | inr d =>
      let internal := collect_internal_links (netloc E url') (doc_anchors d) [] in
      {| url := url';
         title := doc_title d;
         content := String.substring 0 (100 * 100) (doc_full_text d);   (* [:10000] *)
         headings := take 20 (doc_headings d);
         lists := take 30 (doc_lists d);
         contacts := doc_contacts d;
         links := take 20 internal;
         internal_links := take 20 internal;
         success := true;
         error := None |}
  | inl msg =>
      {| url := url'; title := "Error"; content := "";
         headings := []; lists := []; contacts := [];
         links := []; internal_links := [];
         success := false; error := Some msg |}
  end.

(** [for link in page_data['internal_links']: ...]. *)
Fixpoint add_links
    (visited' : gset string) (links' to_visit' : list string) : list string :=
  match links' with
  | [] => to_visit'
  | link :: rest =>
      if bool_decide (link ∉ visited') && bool_decide (link ∉ to_visit')
      then add_links visited' rest (to_visit' ++ [link])
      else add_links visited' rest to_visit'
  end.

(** [while to_visit and len(pages) < max_pages]. *)
Definition loop_test (max_pages : Z) (st : CrawlState) : bool :=
  match to_visit st with
  | [] => false
  | _ :: _ => bool_decide (Z.of_nat (length (pages st)) < max_pages)%Z
  end.

(** One turn of the loop. *)
Definition loop_body (st : CrawlState) : CrawlState :=
  match to_visit st with
  | [] => st
  | url' :: rest =>
      if bool_decide (url' ∈ visited st) then
        {| visited := visited st; to_visit := rest;
           pages := pages st; fetched := fetched st |}
      else
        let visited' := visited st ∪ {[ url' ]} in
        let page_data := extract_page_content (length (fetched st)) url' in
        if success page_data then
          {| visited := visited';
             to_visit := add_links visited' (internal_links page_data) rest;
             pages := pages st ++ [page_data];
             fetched := fetched st ++ [url'] |}
        else
          {| visited := visited'; to_visit := rest;
             pages := pages st; fetched := fetched st ++ [url'] |}
  end.

Fixpoint crawl_loop (fuel : nat) (max_pages : Z) (st : CrawlState) : CrawlState :=
  match fuel with
  | O => st
  | S fuel' =>
      if loop_test max_pages st
      then crawl_loop fuel' max_pages (loop_body st)
      else st
  end.

(** Every turn takes one address from [to_visit], and only a page that is
    kept adds addresses, at most twenty: so many turns are enough. *)
Definition crawl_fuel (max_pages : Z) : nat := S (20 * Z.to_nat max_pages).

Definition crawl_start (start_url : string) : CrawlState :=
  {| visited := ∅; to_visit := [start_url]; pages := []; fetched := [] |}.

Definition crawl_run (start_url : string) (max_pages : Z) : CrawlState :=
  crawl_loop (crawl_fuel max_pages) max_pages (crawl_start start_url).

Definition crawl_website (start_url : string) (max_pages : Z) : list PageData :=
  pages (crawl_run start_url max_pages).

(** Step 3 of [crawl_and_store]. *)
Fixpoint store_pages
    (client : supabase_client.Client) (agent_id kb_id : string)
    (pages' : list PageData) (pages_stored : nat) : M nat :=
  match pages' with
  | [] => mret pages_stored
  | page :: rest =>
      pages_stored' ←
        try_except
          (supabase_client.save_website_data E client agent_id
             (url page) (title page) (content page) (headings page) (links page)
             (kb_id, contacts page, length (lists page));;
           mret (S pages_stored))
          (λ e,
             print ("[Crawler] Error storing page " +:+ url page +:+ ": "
                    +:+ str_exn e);;
             mret pages_stored);
      store_pages client agent_id kb_id rest pages_stored'
  end.

Definition crawl_and_store (agent_id website_url : string) (max_pages : Z)
    : M (string * nat * nat * list Suggestion) :=
  print ("[Crawler] Starting: " +:+ website_url +:+ " for agent " +:+ agent_id);;
  client ← supabase_client.get_supabase_client E;
  kb_id ← supabase_client.get_or_create_knowledge_base E client agent_id website_url;
  print ("[Crawler] Knowledge base: " +:+ kb_id);;
  let pages' := crawl_website website_url max_pages in
  print ("[Crawler] Crawled " +:+ pretty (length pages') +:+ " pages");;
  pages_stored ← store_pages client agent_id kb_id pages' 0;
  print ("[Crawler] Stored " +:+ pretty pages_stored
         +:+ " pages in website_data table");;
  let all_suggestions := concat (extract_qa_suggestions <$> pages') in
  print ("[Crawler] Generated " +:+ pretty (length all_suggestions)
         +:+ " Q&A suggestions");;
  supabase_client.update_kb_status E client kb_id "crawled";;
  mret (kb_id, length pages', pages_stored, all_suggestions).

(** [qa['key']]: [KeyError] when the key is absent. *)
Definition subscript {A : Type} (v : option A) (key : string) : M A :=
  match v with
  | Some a => mret a
  | None => raise (Exception ("'" +:+ key +:+ "'"))
  end.

(** The loop of [save_qa_to_supabase]. *)
Fixpoint save_each
    (client : supabase_client.Client) (kb_id : string)
    (qa_pairs : list QADict) (saved_count : nat) : M nat :=
  match qa_pairs with
  | [] => mret saved_count
  | qa :: rest =>
      saved_count' ←
        try_except
          (question ← subscript (qa_question qa) "question";
           spoken_response ← subscript (qa_spoken_response qa) "spoken_response";
           supabase_client.save_curated_qa E client kb_id question spoken_response
             (default [] (qa_keywords qa)) None (default 5%Z (qa_priority qa));;
           mret (S saved_count))
          (λ e,
             print ("[Crawler] Error saving Q&A: " +:+ str_exn e);;
             mret saved_count);
      save_each client kb_id rest saved_count'
  end.

Definition save_qa_to_supabase (agent_id : string) (qa_pairs : list QADict) : M nat :=
  client ← supabase_client.get_supabase_client E;
  kb_id ← supabase_client.get_or_create_knowledge_base E client agent_id "curated";
  saved_count ← save_each client kb_id qa_pairs 0;
  supabase_client.update_kb_status E client kb_id "ready";;
  print ("[Crawler] Saved " +:+ pretty saved_count +:+ " Q&A pairs to document_chunks");;
  mret saved_count.

End WithEnv.

(** The question templates of [extract_qa_suggestions], each with its
    pattern. *)
Definition question_templates : list (string * string) :=
  [ ("What services do you offer?", "services");
    ("What are your hours?", "hours|open|schedule");
    ("How can I contact you?", "contact|call|email|phone");
    ("Where are you located?", "location|address|area");
    ("Do you offer emergency services?", "emergency|24|urgent");
    ("What are your prices?", "price|cost|rate|fee") ].

(** [re.split(r'[.!?]', content)]. *)
Definition sentences (content' : string) : list string :=
  Py.split_on (λ c, Ascii.eqb c "." || Ascii.eqb c "!" || Ascii.eqb c "?") content'.

(** The inner loop: the sentences that mention a word of the pattern and
    are longer than twenty characters once stripped. *)
Fixpoint relevant_sentences (keywords' : string) (sents : list string) : list string :=
  match sents with
  | [] => []
  | sent :: sents' =>
      if Py.search_words keywords' (Py.lower sent)
         && (20 <? String.length (Py.strip sent))%nat
      then Py.strip sent :: relevant_sentences keywords' sents'
      else relevant_sentences keywords' sents'
  end.

(** The outer loop, over the templates that are left. *)
Fixpoint suggest (templates : list (string * string)) (page_data : PageData)
    : list Suggestion :=
  match templates with
  | [] => []
  | (question', keywords') :: templates' =>
      if Py.search_words keywords' (Py.lower (content page_data)) then
        match relevant_sentences keywords' (sentences (content page_data)) with
        | [] => suggest templates' page_data
        | relevant =>
            {| sg_question := question';
               sg_source_content := Py.join ". " (take 3 relevant);
               sg_keywords := Py.split_on (Ascii.eqb "|") keywords' |}
            :: suggest templates' page_data
        end
      else suggest templates' page_data
  end.

Definition extract_qa_suggestions (page_data : PageData) : list Suggestion :=
  suggest question_templates page_data.

End crawler.

(** ** api.py: the query endpoint *)

Module api.

(** [0.3] as Python reads it: the binary64 number nearest to 3/10. *)
Definition SIMILARITY_THRESHOLD : float := 0x1.3333333333333p-2%float.

Definition FALLBACK_RESPONSES : list string :=
  [ "I don't have specific information about that. Would you like me to help with something else?";
    "I'm not sure about that particular question. Is there something else I can help you with?";
    "That's not something I have information on. Feel free to ask about our services or hours." ].

Record QueryRequest : Type := { query : string; agent_id : string }.

Record QueryResponse : Type := {
  text : string;
  question_matched : option string;
  similarity : float;
  found : bool;
  threshold_met : bool
}.

Record CrawlRequest : Type := {
  cr_url : string;
  cr_agent_id : string;
  cr_max_pages : Z
}.

Record CrawlResponse : Type := {
  success : bool;
  kb_id : string;
  pages_crawled : nat;
  pages_saved : nat;
  qa_suggestions : list crawler.Suggestion;
  message : string
}.

Record QAPair : Type := {
  question : string;
  spoken_response : string;
  keywords : list string;
  priority : Z
}.

Record SaveQARequest : Type := {
  sq_agent_id : string;
  sq_qa_pairs : list QAPair
}.

(** The dictionaries returned by [save_qa_pairs] and [delete_qa_pair]. *)
Record SaveQAResult : Type := {
  saved_success : bool;
  saved_count : nat;
  saved_agent_id : string;
  saved_kb_id : string
}.

Record DeleteResult : Type := {
  deleted_success : bool;
  deleted_id : string
}.

Section WithEnv.
Context (E : Env).

(** The two [return QueryResponse(text=random.choice(...), ...)]. *)
Definition fallback (matched : option string) (sim : float) : M QueryResponse :=
  t ← random_choice E FALLBACK_RESPONSES;
  mret {| text := t; question_matched := matched; similarity := sim;
          found := false; threshold_met := false |}.

(** The [try] block of [query_rag]. *)
Definition query_rag_try (request : QueryRequest) : M QueryResponse :=
  client ← supabase_client.get_supabase_client E;
  result ← supabase_client.find_best_answer E client
             (agent_id request) (query request);
  match result with
  | Some result =>
      if truthy_row result then
        let sim := Py.float_or_0 (get_default (row_similarity result) 0%float) in
        (* the statement after the threshold test, reached when the
           test fails and when the matched text is false *)
        let too_low := fallback (get (row_question result)) sim in
        if PrimFloat.leb SIMILARITY_THRESHOLD sim then
          let response_text :=
            Py.or_ (get (row_spoken_response result))
                   (get_default (row_content result) "") in
          match response_text with
          | Some t =>
              if Py.truthy_str t
              then mret {| text := t;
                           question_matched := get (row_question result);
                           similarity := sim;
                           found := true; threshold_met := true |}
              else too_low
          | None => too_low
          end
        else too_low
      else fallback None 0%float
  | None => fallback None 0%float
  end.

(** Its [except Exception as e] clause. *)
Definition query_rag_except (request : QueryRequest) (e : exn) : M QueryResponse :=
  print ("[RAG] Error querying for agent " +:+ agent_id request
         +:+ ": " +:+ str_exn e);;
  raise (HTTPException 500 (str_exn e)).

Definition query_rag (request : QueryRequest) : M QueryResponse :=
  if negb (Py.truthy_str (agent_id request))
     || String.eqb (Py.strip (agent_id request)) ""
  then raise (HTTPException 400 "agent_id is required for agent isolation")
  else try_except (query_rag_try request) (query_rag_except request).

Definition crawl_website_endpoint
    (extract_qa_suggestions : crawler.PageData → list crawler.Suggestion)
    (request : CrawlRequest) : M CrawlResponse :=
  try_except
    (print ("[API] Crawl request: " +:+ cr_url request +:+ " for agent "
            +:+ cr_agent_id request);;
     '(kb, crawled, saved, suggestions) ←
        crawler.crawl_and_store E extract_qa_suggestions
          (cr_agent_id request) (cr_url request) (cr_max_pages request);
     if (crawled =? 0)%nat then
       mret {| success := false; kb_id := ""; pages_crawled := 0;
               pages_saved := 0; qa_suggestions := [];
               message := "Failed to crawl website. Please check the URL." |}
     else
       mret {| success := true; kb_id := kb; pages_crawled := crawled;
               pages_saved := saved; qa_suggestions := suggestions;
               message := "Successfully crawled " +:+ pretty crawled
                          +:+ " pages and saved " +:+ pretty saved
                          +:+ " to Supabase." |})
    (λ e,
       print ("[Crawl] Error: " +:+ str_exn e);;
       raise (HTTPException 500 (str_exn e))).

(** The loop of [save_qa_pairs]: no handler around one save. *)
Fixpoint save_each
    (client : supabase_client.Client) (kb : string)
    (qa_pairs : list QAPair) (count : nat) : M nat :=
  match qa_pairs with
  | [] => mret count
  | qa :: rest =>
      supabase_client.save_curated_qa E client kb
        (question qa) (spoken_response qa) (keywords qa) None (priority qa);;
      save_each client kb rest (S count)
  end.

Definition save_qa_pairs (request : SaveQARequest) : M SaveQAResult :=
  try_except
    (client ← supabase_client.get_supabase_client E;
     kb ← supabase_client.get_or_create_knowledge_base E client
            (sq_agent_id request) "curated";
     count ← save_each client kb (sq_qa_pairs request) 0;
     supabase_client.update_kb_status E client kb "ready";;
     print ("[QA] Saved " +:+ pretty count +:+ " Q&A pairs for agent "
            +:+ sq_agent_id request);;
     mret {| saved_success := true; saved_count := count;
             saved_agent_id := sq_agent_id request; saved_kb_id := kb |})
    (λ e,
       print ("[QA] Save error: " +:+ str_exn e);;
       raise (HTTPException 500 (str_exn e))).

(** [DELETE /api/qa/{agent_id}/{qa_id}]. *)
Definition delete_qa_pair (agent_id' qa_id : string) : M DeleteResult :=
  try_except
    (client ← supabase_client.get_supabase_client E;
     execute E (Delete "document_chunks")
       (λ w, (tt, with_document_chunks
                    (filter (λ c, chunk_id c ≠ qa_id) (document_chunks w)) w));;
     mret {| deleted_success := true; deleted_id := qa_id |})
    (λ e, raise (HTTPException 500 (str_exn e))).

(** [DELETE /api/website-data/{agent_id}/{data_id}]. *)
Definition delete_agent_website_data (agent_id' data_id : string) : M DeleteResult :=
  try_except
    (client ← supabase_client.get_supabase_client E;
     supabase_client.delete_website_data E client data_id;;
     mret {| deleted_success := true; deleted_id := data_id |})
    (λ e, raise (HTTPException 500 (str_exn e))).

End WithEnv.
End api.

(** ** rag_backend.py *)

Module rag_backend.

(** The [dict] that [query_rag] returns; [error] is present on the
    exception path only. *)
Record Result : Type := {
  text : string;
  question_matched : option string;
  similarity : option float;
  found : bool;
  error : option string
}.

Section WithEnv.
Context (E : Env).

Definition no_information : Result :=
  {| text := "I don't have specific information about that. How else can I help you?";
     question_matched := None; similarity := Some 0%float;
     found := false; error := None |}.

(** The [try] block of [query_rag]. *)
Definition query_rag_try (agent_id user_query : string) : M Result :=
  client ← supabase_client.get_supabase_client E;
  result ← supabase_client.find_best_answer E client agent_id user_query;
  match result with
  | Some result =>
      if truthy_row result && Py.truthy (get (row_spoken_response result)) then
        mret {| text := default "" (get (row_spoken_response result));
                question_matched := get (row_question result);
                similarity := get_default (row_similarity result) 0%float;
                found := true; error := None |}
      else if truthy_row result && Py.truthy (get (row_content result)) then
        mret {| text := default "" (get (row_content result));
                question_matched := get (row_question result);
                similarity := get_default (row_similarity result) 0%float;
                found := true; error := None |}
      else mret no_information
  | None => mret no_information
  end.

(** Its [except Exception as e] clause. *)
Definition query_rag_except (e : exn) : M Result :=
  print ("[RAG] Error: " +:+ str_exn e);;
  mret {| text := "I'm having trouble accessing the information. Please try again.";
          question_matched := None; similarity := Some 0%float;
          found := false; error := Some (str_exn e) |}.

Definition query_rag (agent_id user_query : string) : M Result :=
  try_except (query_rag_try agent_id user_query) query_rag_except.

End WithEnv.
End rag_backend.

(** ** Words of the specification *)

(** An agent id that is "empty or consists only of whitespace". *)
Definition blank (s : string) : Prop :=
  Forall (λ c, Py.isspace c = true) (list_ascii_of_string s).

(** A text field that is "empty or absent". *)
Definition empty_text (c : cell string) : Prop :=
  c = Absent ∨ c = Null ∨ c = Value "".

(** Both environment variables are set. *)
Definition variables_set (E : Env) : Prop :=
  Py.truthy (getenv E "NEXT_PUBLIC_SUPABASE_URL") = true
  ∧ Py.truthy (getenv E "NEXT_PUBLIC_SUPABASE_ANON_KEY") = true.

(** The store can be reached: both environment variables are set and
    [create_client] makes a client from them. *)
Definition configured (E : Env) : Prop :=
  variables_set E
  ∧ create_client E (default "" (getenv E "NEXT_PUBLIC_SUPABASE_URL"))
      (default "" (getenv E "NEXT_PUBLIC_SUPABASE_ANON_KEY")) = None.

(** What the matching engine returns for a request in a world. *)
Definition engine_rows (E : Env) (request : api.QueryRequest) (w : World) : list Row :=
  sql_find_best_answer E (knowledge_bases w) (document_chunks w)
    (api.query request) (api.agent_id request).

(** ** Worlds and environments used as examples *)

Definition empty_world : World :=
  {| knowledge_bases := []; document_chunks := []; website_data := [];
     requests := []; uuids_drawn := 0; draws := 0; stdout := [] |}.

(** An environment whose engine answers every query with [rows], whose
    store fails as [faults] says and whose web is [web]. *)
Definition example_env
    (rows : list Row) (faults : nat → option string)
    (web : string → string + Document) : Env :=
  {| getenv := λ _, Some "set";
     create_client := λ _ _, None;
     fetch := λ _, web;
     netloc := λ _, "example.com";
     sql_find_best_answer := λ _ _ _ _, rows;
     fault := faults;
     uuid4 := λ n, "id-" +:+ pretty n;
     entropy := λ n, n |}.

Definition no_web : string → string + Document := λ _, inl "no route to host".

(** An environment in which both variables are set and [create_client]
    rejects them. *)
Definition rejecting_env : Env :=
  {| getenv := λ _, Some "set";
     create_client := λ _ _, Some "Invalid URL";
     fetch := λ _, no_web;
     netloc := λ _, "example.com";
     sql_find_best_answer := λ _ _ _ _, [];
     fault := λ _, None;
     uuid4 := λ n, "id-" +:+ pretty n;
     entropy := λ n, n |}.

Definition hours_row (sim : float) : Row :=
  {| row_question := Value "What are your hours?";
     row_spoken_response := Value "Open 9 to 5.";
     row_content := Value "Open 9 to 5.";
     row_similarity := Value sim;
     row_other_keys := 3 |}.

Definition hours_request : api.QueryRequest :=
  {| api.query := "what are your hours"; api.agent_id := "agent-1" |}.

(** A store that answers every request. *)
Definition working : nat → option string := λ _, None.

(** The third request to the store fails: for a new agent, that is the
    insertion of the first entry. *)
Definition third_fails : nat → option string :=
  λ n, if (n =? 2)%nat then Some "insert failed" else None.

(** The fifth request fails: in a crawl of two pages for a new agent, that
    is the update of the status after the pages have been stored. *)
Definition fifth_fails : nat → option string :=
  λ n, if (n =? 4)%nat then Some "connection reset" else None.

(** The third and the fourth request fail: in a crawl for a new agent, these
    are the remote upsert of the first page and the select of its
    fallback, so that the page is not saved. *)
Definition first_page_is_not_saved : nat → option string :=
  λ n, if ((n =? 2) || (n =? 3))%nat then Some "statement timeout" else None.

(** An entry without usable text, and an entry without a question. *)
Definition textless_row (sim : float) : Row :=
  {| row_question := Value "What are your hours?";
     row_spoken_response := Value "";
     row_content := Null;
     row_similarity := Value sim;
     row_other_keys := 3 |}.

Definition nameless_row : Row :=
  {| row_question := Null;
     row_spoken_response := Value "Open 9 to 5.";
     row_content := Value "Open 9 to 5.";
     row_similarity := Value 0.5%float;
     row_other_keys := 3 |}.

(** A store with the knowledge bases of two agents and one entry, which
    belongs to the second. *)
Definition two_agents : World :=
  {| knowledge_bases :=
       [ {| kb_id := "kb-a"; kb_agent_id := "agent-a";
            kb_source_url := "curated"; kb_status := "ready" |};
         {| kb_id := "kb-b"; kb_agent_id := "agent-b";
            kb_source_url := "curated"; kb_status := "ready" |} ];
     document_chunks :=
       [ {| chunk_id := "qa-1"; chunk_kb_id := "kb-b";
            chunk_question := Some "What are your hours?";
            chunk_spoken_response := Some "Open 9 to 5.";
            chunk_content := Some "Open 9 to 5.";
            chunk_keywords := ["hours"]; chunk_priority := 10;
            chunk_curated := true |} ];
     website_data := []; requests := []; uuids_drawn := 0; draws := 0;
     stdout := [] |}.

Definition hours_pair : crawler.QADict :=
  {| crawler.qa_question := Some "What are your hours?";
     crawler.qa_spoken_response := Some "Open 9 to 5.";
     crawler.qa_keywords := Some ["hours"];
     crawler.qa_priority := None |}.

Definition pair_without_question : crawler.QADict :=
  {| crawler.qa_question := None;
     crawler.qa_spoken_response := Some "Open 9 to 5.";
     crawler.qa_keywords := None;
     crawler.qa_priority := None |}.

(** A site of three pages: the home page links to [/a] (twice), to [/b]
    and to an anchor of itself; [/a] cannot be fetched; [/b] links home. *)
Definition small_web : string → string + Document := λ u,
  if String.eqb u "https://example.com/" then
    inr {| doc_title := "Home"; doc_full_text := "We are open every day.";
           doc_headings := []; doc_lists := []; doc_contacts := [];
           doc_anchors := [ "https://example.com/a"; "https://example.com/b";
                            "https://example.com/a"; "https://example.com/#top" ] |}
  else if String.eqb u "https://example.com/b" then
    inr {| doc_title := "B"; doc_full_text := "Call us.";
           doc_headings := []; doc_lists := []; doc_contacts := [];
           doc_anchors := [ "https://example.com/" ] |}
  else inl "404 Client Error".

Definition small_request : api.CrawlRequest :=
  {| api.cr_url := "https://example.com/"; api.cr_agent_id := "agent-1";
     api.cr_max_pages := 5 |}.

(** ** Notions used in the proofs *)

(** How the [try] block of the two query functions fails in a world, the
    entries that the store returns being of the types of their columns: an
    environment variable is not set, [create_client] raises, or the one
    request to the store raises. *)
Inductive query_fails (E : Env) (w : World) : string → Prop :=
| fails_unconfigured :
    ¬ variables_set E → query_fails E w supabase_client.unconfigured_message
| fails_create_client (msg : string) :
    variables_set E →
    create_client E (default "" (getenv E "NEXT_PUBLIC_SUPABASE_URL"))
      (default "" (getenv E "NEXT_PUBLIC_SUPABASE_ANON_KEY")) = Some msg →
    query_fails E w msg
| fails_request (msg : string) :
    configured E → fault E (length (requests w)) = Some msg → query_fails E w msg.

(** A computation that returns in every world. *)
Definition returns {A : Type} (m : M A) : Prop :=
  ∀ w, ∃ a w', m w = (Return a, w').

(** What is left of a crawl: the queue, and twenty addresses for every page
    that may still be kept. *)
Definition measure (max_pages : Z) (st : crawler.CrawlState) : nat :=
  length (crawler.to_visit st)
  + 20 * (Z.to_nat max_pages - length (crawler.pages st)).

(** The invariant of the loop of [crawl_website]. *)
Record crawl_inv (E : Env) (max_pages : Z) (st : crawler.CrawlState) : Prop := {
  inv_fetched_once : NoDup (crawler.fetched st);
  inv_fetched_visited : ∀ u, u ∈ crawler.fetched st → u ∈ crawler.visited st;
  inv_pages :
    crawler.pages st
    = filter (λ p, crawler.success p = true)
             (imap (crawler.extract_page_content E) (crawler.fetched st));
  inv_cap : (length (crawler.pages st) ≤ Z.to_nat max_pages)%nat
}.

(** What the loop keeps true of the addresses it has found: the seed and
    every link of a page kept are visited or wait in the queue, and what is
    visited has been requested. *)
Record reach_inv (start_url : string) (st : crawler.CrawlState) : Prop := {
  inv_visited_fetched : ∀ u, u ∈ crawler.visited st → u ∈ crawler.fetched st;
  inv_seed : start_url ∈ crawler.visited st ∨ start_url ∈ crawler.to_visit st;
  inv_links :
    ∀ p l, p ∈ crawler.pages st → l ∈ crawler.internal_links p →
           l ∈ crawler.visited st ∨ l ∈ crawler.to_visit st
}.

(** A request that a per-page save of the crawl sends, and a request on
    the table of the knowledge bases. *)
Definition on_website_data (r : request) : Prop :=
  r = Rpc "upsert_website_data" ∨ r = Select "website_data"
  ∨ r = Insert "website_data" ∨ r = Update "website_data".

Definition on_knowledge_bases (r : request) : Prop :=
  r = Select "knowledge_bases" ∨ r = Insert "knowledge_bases"
  ∨ r = Update "knowledge_bases".

(** The tables of the store are the same in both worlds. *)
Definition same_tables (w w' : World) : Prop :=
  knowledge_bases w' = knowledge_bases w
  ∧ document_chunks w' = document_chunks w
  ∧ website_data w' = website_data w.

(** The requests sent between two worlds all satisfy [P]. *)
Definition only_sent (P : request → Prop) (w w' : World) : Prop :=
  ∃ sent_since, requests w' = (requests w ++ sent_since)%list ∧ Forall P sent_since.

(** Whatever its outcome, the computation leaves the worlds related. *)
Definition keeps {A : Type} (R : World → World → Prop) (m : M A) : Prop :=
  ∀ w o w', m w = (o, w') → R w w'.

(** A relation between worlds that holds across every step that sends no
    request and leaves the tables alone, and that composes. *)
Class Frame (R : World → World → Prop) : Prop := {
  frame_refl : ∀ w, R w w;
  frame_trans : ∀ w1 w2 w3, R w1 w2 → R w2 w3 → R w1 w3;
  frame_quiet : ∀ w w',
    same_tables w w' → requests w' = requests w → R w w'
}.

(** A computation that only reads, and only through the matching engine. *)
Definition reads_engine (w w' : World) : Prop :=
  same_tables w w' ∧ only_sent (λ r, r = Rpc "find_best_answer") w w'.

(** One table is the same in both worlds. *)
Definition same_knowledge_bases (w w' : World) : Prop :=
  knowledge_bases w' = knowledge_bases w.

Definition same_document_chunks (w w' : World) : Prop :=
  document_chunks w' = document_chunks w.

Definition same_website_data (w w' : World) : Prop :=
  website_data w' = website_data w.

(** No knowledge base has changed; those that are new are 'processing'. *)
Definition only_new_knowledge_bases (w w' : World) : Prop :=
  ∃ new, knowledge_bases w' = (knowledge_bases w ++ new)%list
         ∧ Forall (λ kb, kb_status kb = "processing") new.

(** No entry has changed or gone; entries may have been added. *)
Definition only_new_chunks (w w' : World) : Prop :=
  ∃ new, document_chunks w' = (document_chunks w ++ new)%list.

(** What an entry holds besides its id, and what [save_curated_qa] stores
    for a pair of the API and for a pair given as a dictionary (nothing
    when the dictionary lacks one of the two keys). *)
Definition chunk_fields (c : Chunk)
    : string * option string * option string * option string
      * list string * Z * bool :=
  (chunk_kb_id c, chunk_question c, chunk_spoken_response c, chunk_content c,
   chunk_keywords c, chunk_priority c, chunk_curated c).

Definition pair_fields (kb : string) (qa : api.QAPair)
    : string * option string * option string * option string
      * list string * Z * bool :=
  (kb, Some (api.question qa), Some (api.spoken_response qa),
   Some (api.spoken_response qa), api.keywords qa, api.priority qa, true).

Definition dict_fields (kb : string) (qa : crawler.QADict)
    : option (string * option string * option string * option string
              * list string * Z * bool) :=
  match crawler.qa_question qa, crawler.qa_spoken_response qa with
  | Some q, Some sp =>
      Some (kb, Some q, Some sp, Some sp,
            default [] (crawler.qa_keywords qa),
            default 5%Z (crawler.qa_priority qa), true)
  | _, _ => None
  end.

(** The row that [save_website_data] writes for a page, but for its id. *)
Definition page_row (agent url title content : string) (d : WebsiteData) : Prop :=
  wd_agent_id d = agent ∧ wd_url d = url ∧ wd_page_title d = title
  ∧ wd_content d = content ∧ wd_status d = "pending".

(** An address on the site of [start_url]: same network location, and no
    fragment unless it is [start_url] itself. *)
Definition on_site (E : Env) (start_url u : string) : Prop :=
  netloc E u = netloc E start_url
  ∧ (u = start_url ∨ Py.contains "#" u = false).

(** What the loop of [crawl_website] keeps true of its queue. *)
Record queue_inv (E : Env) (start_url : string) (st : crawler.CrawlState) : Prop := {
  inv_site :
    ∀ u, u ∈ (crawler.fetched st ++ crawler.to_visit st)%list →
         on_site E start_url u;
  inv_queue_once : NoDup (crawler.to_visit st);
  inv_queue_new : ∀ u, u ∈ crawler.to_visit st → u ∉ crawler.visited st;
  inv_requests :
    (length (crawler.fetched st) + length (crawler.to_visit st)
     ≤ 1 + 20 * length (crawler.pages st))%nat
}.

(** A record as [extract_page_content] builds it for a page of the site of
    [start_url]: the bounds of its fields and what its links are. *)
Definition page_record (E : Env) (start_url : string) (p : crawler.PageData) : Prop :=
  crawler.success p = true
  ∧ crawler.error p = None
  ∧ on_site E start_url (crawler.url p)
  ∧ crawler.links p = crawler.internal_links p
  ∧ (length (crawler.internal_links p) ≤ 20)%nat
  ∧ NoDup (crawler.internal_links p)
  ∧ (∀ l, l ∈ crawler.internal_links p →
          netloc E l = netloc E start_url ∧ Py.contains "#" l = false)
  ∧ (String.length (crawler.content p) ≤ 100 * 100)%nat
  ∧ (length (crawler.headings p) ≤ 20)%nat
  ∧ (length (crawler.lists p) ≤ 30)%nat.

(** A suggestion made from one of [templates] for a page with the text
    [content']: the question and the words of the template, one of which
    occurs in the text in lower case, and a source text of more than twenty
    characters. *)
Definition suggestion_from
    (templates : list (string * string)) (content' : string)
    (s : crawler.Suggestion) : Prop :=
  ∃ question' keywords',
    (question', keywords') ∈ templates
    ∧ crawler.sg_question s = question'
    ∧ crawler.sg_keywords s = Py.split_on (Ascii.eqb "|") keywords'
    ∧ (∃ word, word ∈ crawler.sg_keywords s
               ∧ Py.occurs word (Py.lower content') = true)
    ∧ (20 < String.length (crawler.sg_source_content s))%nat.

(** ** Further examples *)

(** The remote upsert is not installed: the first request to the store
    fails, the others are answered. *)
Definition first_fails : nat → option string :=
  λ n, if (n =? 0)%nat then Some "function upsert_website_data does not exist"
       else None.

Definition example_client : supabase_client.Client :=
  {| supabase_client.supabase_url := "set"; supabase_client.supabase_key := "set" |}.

Definition blank_request : api.QueryRequest :=
  {| api.query := "what are your hours"; api.agent_id := "  " |}.

Definition hours_qa : api.QAPair :=
  {| api.question := "What are your hours?";
     api.spoken_response := "Open 9 to 5.";
     api.keywords := ["hours"]; api.priority := 10 |}.

Definition hours_batch : api.SaveQARequest :=
  {| api.sq_agent_id := "agent-1"; api.sq_qa_pairs := [hours_qa] |}.

(** A batch of two pairs for an agent that has a knowledge base. *)
Definition hours_twice : api.SaveQARequest :=
  {| api.sq_agent_id := "agent-a"; api.sq_qa_pairs := [hours_qa; hours_qa] |}.

(** A store that holds the home page of the example site for one agent. *)
Definition one_page : World :=
  {| knowledge_bases := []; document_chunks := [];
     website_data :=
       [ {| wd_id := "page-1"; wd_agent_id := "agent-1";
            wd_url := "https://example.com/"; wd_page_title := "Home";
            wd_content := "We were open."; wd_headings := []; wd_links := [];
            wd_kb_id := "kb-1"; wd_contacts := []; wd_lists_count := 0;
            wd_status := "ready" |} ];
     requests := []; uuids_drawn := 0; draws := 0; stdout := [] |}.

(** * Properties *)

(** ** Tactics for the monad *)

(** Split [H : (m ≫= f) w = r] on what [m w] is. *)
Tactic Notation "bind_inv" hyp(H) "as" ident(Hm) :=
  unfold mbind at 1, M_bind at 1 in H;
  match type of H with
  | context [match ?m ?w with _ => _ end] =>
      let a := fresh "a" in let e := fresh "e" in
      let w1 := fresh "w" in
      destruct (m w) as [[a|e] w1] eqn:Hm
  end.

(** ** Python strings and numbers *)

Lemma lstrip_blank (l : list ascii) :
  Forall (λ c, Py.isspace c = true) l → Py.lstrip l = [].
Proof. induction 1 as [|c l Hc _ IH]; simpl; [done|]. by rewrite Hc. Qed.

Lemma lstrip_nil_blank (l : list ascii) :
  Py.lstrip l = [] → Forall (λ c, Py.isspace c = true) l.
Proof.
  induction l as [|c l IH]; simpl; [constructor|].
  destruct (Py.isspace c) eqn:Hc; [|done]. intros H. constructor; auto.
Qed.

Lemma lstrip_head (l : list ascii) :
  Forall (λ c, Py.isspace c = true) (Py.lstrip l) → Py.lstrip l = [].
Proof.
  induction l as [|c l IH]; simpl; [done|].
  destruct (Py.isspace c) eqn:Hc; [done|].
  inversion 1; congruence.
Qed.

Lemma strip_blank (s : string) : blank s → Py.strip s = "".
Proof.
  unfold blank, Py.strip, Py.rstrip. intros H.
  by rewrite (lstrip_blank _ H).
Qed.

Lemma strip_empty_blank (s : string) : Py.strip s = "" → blank s.
Proof.
  unfold blank, Py.strip, Py.rstrip. intros H.
  apply (f_equal list_ascii_of_string) in H.
  rewrite list_ascii_of_string_of_list_ascii in H. simpl in H.
  apply (f_equal (@rev ascii)) in H. rewrite rev_involutive in H. simpl in H.
  apply lstrip_nil_blank in H.
  apply lstrip_nil_blank, lstrip_head.
  apply List.Forall_rev in H. by rewrite rev_involutive in H.
Qed.

(** A score that passes the threshold is not a zero, so [float(s or 0)]
    keeps it. *)
Lemma above_threshold_nonzero (s : float) :
  PrimFloat.leb api.SIMILARITY_THRESHOLD s = true → PrimFloat.eqb s 0%float = false.
Proof.
  rewrite FloatAxioms.leb_spec, FloatAxioms.eqb_spec.
  change (Prim2SF api.SIMILARITY_THRESHOLD)
    with (S754_finite false 5404319552844595 (-54)).
  change (Prim2SF 0%float) with (S754_zero false).
  by destruct (Prim2SF s) as [[]|[]| |[] ? ?].
Qed.

Lemma fallback_nonempty (t : string) : t ∈ api.FALLBACK_RESPONSES → t ≠ "".
Proof.
  unfold api.FALLBACK_RESPONSES. intros H.
  repeat (apply elem_of_cons in H as [->|H]; [done|]).
  by apply elem_of_nil in H.
Qed.

Lemma empty_row_cells (row : Row) :
  truthy_row row = false →
  row_question row = Absent ∧ row_similarity row = Absent.
Proof.
  unfold truthy_row.
  by destruct (row_question row), (row_spoken_response row), (row_content row),
       (row_similarity row), (row_other_keys row).
Qed.

(** ** The store operations *)

Lemma get_client_configured (E : Env) (w : World) :
  configured E →
  ∃ client, supabase_client.get_supabase_client E w = (Return client, w).
Proof.
  intros [[Hu Hk] Hc]. unfold supabase_client.get_supabase_client.
  rewrite Hu, Hk, Hc. simpl. eauto.
Qed.

Lemma get_client_unconfigured (E : Env) (w : World) :
  ¬ variables_set E →
  supabase_client.get_supabase_client E w
  = (Raise (Exception supabase_client.unconfigured_message), w).
Proof.
  unfold variables_set, supabase_client.get_supabase_client. intros H.
  destruct (Py.truthy (getenv E "NEXT_PUBLIC_SUPABASE_URL")),
    (Py.truthy (getenv E "NEXT_PUBLIC_SUPABASE_ANON_KEY")); simpl; try done.
  by destruct H.
Qed.

Lemma get_client_rejected (E : Env) (w : World) (msg : string) :
  variables_set E →
  create_client E (default "" (getenv E "NEXT_PUBLIC_SUPABASE_URL"))
    (default "" (getenv E "NEXT_PUBLIC_SUPABASE_ANON_KEY")) = Some msg →
  supabase_client.get_supabase_client E w = (Raise (Exception msg), w).
Proof.
  intros [Hu Hk] Hc. unfold supabase_client.get_supabase_client.
  by rewrite Hu, Hk, Hc.
Qed.

(** Making the client leaves the world alone, and fails in two ways only. *)
Lemma get_client_inv (E : Env) (w w' : World) (o : outcome supabase_client.Client) :
  supabase_client.get_supabase_client E w = (o, w') →
  w' = w
  ∧ ((∃ client, o = Return client ∧ configured E)
     ∨ (o = Raise (Exception supabase_client.unconfigured_message)
        ∧ ¬ variables_set E)
     ∨ (∃ msg, o = Raise (Exception msg) ∧ variables_set E
               ∧ create_client E (default "" (getenv E "NEXT_PUBLIC_SUPABASE_URL"))
                   (default "" (getenv E "NEXT_PUBLIC_SUPABASE_ANON_KEY"))
                 = Some msg)).
Proof.
  unfold supabase_client.get_supabase_client, configured, variables_set.
  destruct (Py.truthy (getenv E "NEXT_PUBLIC_SUPABASE_URL")) eqn:Hu; simpl.
  2:{ intros [= <- <-]. split; [done|]. right. left. split; [done|].
      by intros [? ?]. }
  destruct (Py.truthy (getenv E "NEXT_PUBLIC_SUPABASE_ANON_KEY")) eqn:Hk; simpl.
  2:{ intros [= <- <-]. split; [done|]. right. left. split; [done|].
      by intros [? ?]. }
  destruct (create_client E _ _) as [msg|] eqn:Hc; intros [= <- <-];
    (split; [done|]).
  - right. right. by exists msg.
  - left. by eexists.
Qed.

Lemma execute_inv {A : Type} (E : Env) (r : request) (effect : World → A * World)
    (w w' : World) (o : outcome A) :
  execute E r effect w = (o, w') →
  (∃ msg, fault E (length (requests w)) = Some msg
          ∧ o = Raise (Exception msg) ∧ w' = sent r w)
  ∨ (fault E (length (requests w)) = None
     ∧ o = Return (effect (sent r w)).1 ∧ w' = (effect (sent r w)).2).
Proof.
  unfold execute. destruct (fault E (length (requests w))) as [msg|].
  - intros [= <- <-]. left. eauto.
  - destruct (effect (sent r w)) as [a w1]. intros [= <- <-]. by right.
Qed.

Lemma get_or_create_knowledge_base_spec
    (E : Env) (client : supabase_client.Client) (agent source : string)
    (w w' : World) (id : string) :
  supabase_client.get_or_create_knowledge_base E client agent source w = (Return id, w') →
  ∃ kb, kb ∈ knowledge_bases w' ∧ kb_id kb = id ∧ kb_agent_id kb = agent.
Proof.
  unfold supabase_client.get_or_create_knowledge_base. intros H.
  bind_inv H as Hselect; [|done].
  apply execute_inv in Hselect as [(msg & _ & [=] & _)|(_ & [= ->] & ->)].
  simpl in H. destruct (filter _ _) as [|kb found] eqn:Hfound.
  - bind_inv H as Hid; [|done]. injection Hid as <- <-.
    bind_inv H as Hinsert; [|done]. injection H as <- <-.
    apply execute_inv in Hinsert as [(msg & _ & [=] & _)|(_ & _ & ->)]. simpl.
    eexists. split; [apply elem_of_app; right; by apply list_elem_of_singleton|done].
  - injection H as <- <-. exists kb. simpl.
    assert (kb ∈ filter (λ kb, kb_agent_id kb = agent) (knowledge_bases w)) as Hin
      by (rewrite Hfound; left).
    by apply list_elem_of_filter in Hin as [? ?].
Qed.


Lemma update_kb_status_spec
    (E : Env) (client : supabase_client.Client) (id status : string)
    (w w' : World) (kb : KnowledgeBase) :
  supabase_client.update_kb_status E client id status w = (Return tt, w') →
  kb ∈ knowledge_bases w → kb_id kb = id →
  ∃ kb', kb' ∈ knowledge_bases w' ∧ kb_id kb' = id
         ∧ kb_agent_id kb' = kb_agent_id kb ∧ kb_status kb' = status.
Proof.
  unfold supabase_client.update_kb_status. intros H Hin Hid.
  apply execute_inv in H as [(msg & _ & [=] & _)|(_ & _ & ->)]. simpl.
  eexists. split; [apply list_elem_of_fmap; exists kb; split; [reflexivity|done]|].
  simpl. by rewrite decide_True.
Qed.

(** ** The query endpoint *)

Lemma fallback_run (E : Env) (matched : option string) (sim : float) (w : World) :
  ∃ t w',
    api.fallback E matched sim w
    = (Return {| api.text := t; api.question_matched := matched;
                 api.similarity := sim; api.found := false;
                 api.threshold_met := false |}, w')
    ∧ t ∈ api.FALLBACK_RESPONSES
    ∧ requests w' = requests w ∧ stdout w' = stdout w.
Proof.
  unfold api.fallback, mbind, M_bind, random_choice.
  destruct (api.FALLBACK_RESPONSES
              !! (entropy E (draws w) mod length api.FALLBACK_RESPONSES)%nat)
    as [t|] eqn:Ht.
  - eexists t, _. split; [reflexivity|]. split; [|done].
    by eapply list_elem_of_lookup_2.
  - apply lookup_ge_None in Ht. simpl in Ht.
    pose proof (Nat.mod_upper_bound (entropy E (draws w)) 3). lia.
Qed.

Lemma agent_id_accepted (request : api.QueryRequest) :
  ¬ blank (api.agent_id request) →
  negb (Py.truthy_str (api.agent_id request))
  || String.eqb (Py.strip (api.agent_id request)) "" = false.
Proof.
  intros Hagent. apply orb_false_iff. split.
  - destruct (api.agent_id request) eqn:Ha; [|done].
    exfalso. apply Hagent. unfold blank. rewrite ?Ha. constructor.
  - apply String.eqb_neq. intros H. by apply Hagent, strip_empty_blank.
Qed.

(** C3. For every request to the query endpoint whose agent_id is empty or
    consists only of white space, the request fails with the client error
    (status 400), and the world is left as it was: no request has been sent
    to the store, nothing has been printed, nothing drawn. *)
Theorem blank_agent_id_rejected_before_store_access
    (E : Env) (request : api.QueryRequest) (w : World) :
  blank (api.agent_id request) →
  api.query_rag E request w
  = (Raise (HTTPException 400 "agent_id is required for agent isolation"), w).
Proof.
  intros Hblank. unfold api.query_rag, api.query_rag_try, api.query_rag_except.
  rewrite (strip_blank _ Hblank). simpl. by rewrite orb_true_r.
Qed.

Section QueryEndpoint.
Context (E : Env) (request : api.QueryRequest) (w : World).
Hypothesis agent_given : ¬ blank (api.agent_id request).
Hypothesis store_configured : configured E.
Hypothesis store_answers : fault E (length (requests w)) = None.

(** The handler up to the answer of the matching engine. *)
Lemma find_best_answer_run (client : supabase_client.Client) :
  supabase_client.find_best_answer E client (api.agent_id request) (api.query request) w
  = (Return (head (engine_rows E request w)), sent (Rpc "find_best_answer") w).
Proof.
  unfold supabase_client.find_best_answer, mbind, M_bind, execute.
  rewrite store_answers. simpl. fold (engine_rows E request w).
  by destruct (engine_rows E request w).
Qed.

Ltac run_query client :=
  unfold api.query_rag, api.query_rag_try, api.query_rag_except;
  rewrite (agent_id_accepted request agent_given);
  destruct (get_client_configured E w store_configured) as [client ?Hclient];
  unfold try_except, mbind at 1, M_bind at 1; rewrite Hclient;
  unfold mbind at 1, M_bind at 1; rewrite find_best_answer_run.

Ltac run_fallback matched sim t w' :=
  destruct (fallback_run E matched sim (sent (Rpc "find_best_answer") w))
    as (t & w' & ?Hfallback & ?Hmember & ?Hrequests & ?Hstdout).

(** C1. For every query for which the matching engine returns an entry
    whose similarity score is at least the threshold 0.30 and whose
    spoken_response (or, if spoken_response is empty, content) is a
    non-empty text [t], the query endpoint returns exactly [t], with
    found = true and threshold_met = true (and the entry's question and
    score); the one request to the store is all that has happened. *)
Theorem query_rag_returns_stored_text_verbatim
    (row : Row) (rest : list Row) (s : float) (t : string) :
  engine_rows E request w = row :: rest →
  row_similarity row = Value s →
  PrimFloat.leb api.SIMILARITY_THRESHOLD s = true →
  (row_spoken_response row = Value t
   ∨ (empty_text (row_spoken_response row) ∧ row_content row = Value t)) →
  t ≠ "" →
  api.query_rag E request w
  = (Return {| api.text := t;
               api.question_matched := get (row_question row);
               api.similarity := s;
               api.found := true;
               api.threshold_met := true |},
     sent (Rpc "find_best_answer") w).
Proof.
  intros Hrows Hsim Hs Htext Ht. run_query client. rewrite Hrows. simpl.
  assert (truthy_row row = true) as ->.
  { unfold truthy_row. rewrite Hsim.
    by destruct (row_question row), (row_spoken_response row), (row_content row). }
  rewrite Hsim. simpl. rewrite (above_threshold_nonzero s Hs), Hs.
  assert (Py.truthy_str t = true) as Htt by (by destruct t).
  destruct Htext as [Hsp|[Hsp Hco]].
  - rewrite Hsp. unfold Py.or_. simpl. by rewrite !Htt.
  - rewrite Hco. destruct Hsp as [->| [->| ->]]; unfold Py.or_; simpl; by rewrite ?Htt.
Qed.

(** The endpoint below the threshold: one of the fixed fallback texts, with
    found = false and threshold_met = false. *)
Lemma query_rag_below_threshold_falls_back (row : Row) (rest : list Row) :
  engine_rows E request w = row :: rest →
  PrimFloat.leb api.SIMILARITY_THRESHOLD
    (Py.float_or_0 (get_default (row_similarity row) 0%float)) = false →
  ∃ t w',
    api.query_rag E request w
    = (Return {| api.text := t;
                 api.question_matched := get (row_question row);
                 api.similarity :=
                   Py.float_or_0 (get_default (row_similarity row) 0%float);
                 api.found := false;
                 api.threshold_met := false |}, w')
    ∧ t ∈ api.FALLBACK_RESPONSES.
Proof.
  intros Hrows Hlow. run_query client. rewrite Hrows. simpl.
  destruct (truthy_row row) eqn:Hrow.
  - rewrite Hlow.
    run_fallback (get (row_question row))
      (Py.float_or_0 (get_default (row_similarity row) 0%float)) t w'.
    rewrite Hfallback. by exists t, w'.
  - destruct (empty_row_cells row Hrow) as [-> ->]. simpl.
    run_fallback (@None string) 0%float t w'. rewrite Hfallback. by exists t, w'.
Qed.

(** C4. For every query for which the matching engine returns an entry
    whose spoken_response and content are both empty or absent, the query
    endpoint answers as below the threshold, whatever the score: a fallback
    text, which is not the empty string, with found = false and
    threshold_met = false. *)
Theorem unusable_entry_falls_back (row : Row) (rest : list Row) :
  engine_rows E request w = row :: rest →
  empty_text (row_spoken_response row) →
  empty_text (row_content row) →
  ∃ t w',
    api.query_rag E request w
    = (Return {| api.text := t;
                 api.question_matched := get (row_question row);
                 api.similarity :=
                   Py.float_or_0 (get_default (row_similarity row) 0%float);
                 api.found := false;
                 api.threshold_met := false |}, w')
    ∧ t ∈ api.FALLBACK_RESPONSES ∧ t ≠ "".
Proof.
  intros Hrows Hsp Hco. run_query client. rewrite Hrows. simpl.
  destruct (truthy_row row) eqn:Hrow.
  - set (sim := Py.float_or_0 _).
    run_fallback (get (row_question row)) sim t w'.
    exists t, w'. split; [|split; [done|by apply fallback_nonempty]].
    destruct (PrimFloat.leb api.SIMILARITY_THRESHOLD sim); [|by rewrite Hfallback].
    destruct Hsp as [->| [->| ->]], Hco as [->| [->| ->]]; cbn;
      by rewrite Hfallback.
  - destruct (empty_row_cells row Hrow) as [-> ->]. simpl.
    run_fallback (@None string) 0%float t w'.
    exists t, w'. rewrite Hfallback.
    split; [done|split; [done|by apply fallback_nonempty]].
Qed.

(** C5, as amended. For every query the endpoint answers, and
    question_matched is the question field of the entry that the matching
    engine returned, above and below the threshold alike: it is null when
    that entry has no question (key absent or null), and when the engine
    returned no entry at all. *)
Theorem question_matched_is_entry_question :
  ∃ resp w',
    api.query_rag E request w = (Return resp, w')
    ∧ api.question_matched resp
      = match engine_rows E request w with
        | row :: _ => get (row_question row)
        | [] => None
        end.
Proof.
  run_query client. destruct (engine_rows E request w) as [|row rest]; simpl.
  - run_fallback (@None string) 0%float t w'. rewrite Hfallback. by eexists _, _.
  - destruct (truthy_row row) eqn:Hrow.
    + set (sim := Py.float_or_0 _).
      run_fallback (get (row_question row)) sim t w'.
      destruct (PrimFloat.leb api.SIMILARITY_THRESHOLD sim);
        [|rewrite Hfallback; by eexists _, _].
      destruct (Py.or_ _ _) as [t'|]; [|rewrite Hfallback; by eexists _, _].
      destruct (Py.truthy_str t'); [|rewrite Hfallback]; by eexists _, _.
    + destruct (empty_row_cells row Hrow) as [-> _]. simpl.
      run_fallback (@None string) 0%float t w'. rewrite Hfallback. by eexists _, _.
Qed.

(** C6. For every query against an agent for which the matching engine
    returns nothing (no knowledge base, or no entries), the query endpoint
    returns found = false, threshold_met = false, similarity = 0.0,
    question_matched = null and one of the fallback texts, which is not
    empty. *)
Theorem no_entry_gives_fallback :
  engine_rows E request w = [] →
  ∃ t w',
    api.query_rag E request w
    = (Return {| api.text := t; api.question_matched := None;
                 api.similarity := 0%float; api.found := false;
                 api.threshold_met := false |}, w')
    ∧ t ∈ api.FALLBACK_RESPONSES ∧ t ≠ "".
Proof.
  intros Hrows. run_query client. rewrite Hrows. simpl.
  run_fallback (@None string) 0%float t w'.
  exists t, w'. rewrite Hfallback.
  split; [done|split; [done|by apply fallback_nonempty]].
Qed.

End QueryEndpoint.

(** C7, as amended. For every internal failure during query handling, that
    is for every exception raised inside the try block of the handler,
    whatever raises it (the store is unavailable, an entry cannot be
    processed, anything else), the query endpoint prints one line with the
    agent id and the message of the exception, and answers with status 500
    whose detail is that message, str(e); [rag_backend.query_rag] prints the
    message and returns its canned apology with found = false and the
    message in the error field. Both functions are their try block under
    that clause; and when a variable of the environment is not set, when
    [create_client] raises or when the request to the store raises, the
    message printed and handed over is the one of that failure. *)
Theorem internal_failure_logged_and_surfaced
    (E : Env) (request : api.QueryRequest) (w : World) :
  ¬ blank (api.agent_id request) →
  (∀ (try_block : M api.QueryResponse) (e : exn) (w1 : World),
     try_block w = (Raise e, w1) →
     ∃ w', try_except try_block (api.query_rag_except request) w
           = (Raise (HTTPException 500 (str_exn e)), w')
           ∧ stdout w' = (stdout w1 ++ ["[RAG] Error querying for agent "
                                        +:+ api.agent_id request +:+ ": "
                                        +:+ str_exn e])%list)
  ∧ (∀ (try_block : M rag_backend.Result) (e : exn) (w1 : World),
       try_block w = (Raise e, w1) →
       ∃ w', try_except try_block rag_backend.query_rag_except w
             = (Return {| rag_backend.text :=
                            "I'm having trouble accessing the information. Please try again.";
                          rag_backend.question_matched := None;
                          rag_backend.similarity := Some 0%float;
                          rag_backend.found := false;
                          rag_backend.error := Some (str_exn e) |}, w')
             ∧ stdout w' = (stdout w1 ++ ["[RAG] Error: " +:+ str_exn e])%list)
  ∧ api.query_rag E request
    = try_except (api.query_rag_try E request) (api.query_rag_except request)
  ∧ rag_backend.query_rag E (api.agent_id request) (api.query request)
    = try_except
        (rag_backend.query_rag_try E (api.agent_id request) (api.query request))
        rag_backend.query_rag_except
  ∧ (∀ msg, query_fails E w msg →
       (∃ w', api.query_rag E request w = (Raise (HTTPException 500 msg), w')
              ∧ stdout w' = (stdout w ++ ["[RAG] Error querying for agent "
                                          +:+ api.agent_id request +:+ ": "
                                          +:+ msg])%list)
       ∧ (∃ w', rag_backend.query_rag E (api.agent_id request) (api.query request) w
                = (Return {| rag_backend.text :=
                               "I'm having trouble accessing the information. Please try again.";
                             rag_backend.question_matched := None;
                             rag_backend.similarity := Some 0%float;
                             rag_backend.found := false;
                             rag_backend.error := Some msg |}, w')
                ∧ stdout w' = (stdout w ++ ["[RAG] Error: " +:+ msg])%list)).
Proof.
  intros Hagent.
  assert (∀ (try_block : M api.QueryResponse) (e : exn) (w1 : World),
            try_block w = (Raise e, w1) →
            ∃ w', try_except try_block (api.query_rag_except request) w
                  = (Raise (HTTPException 500 (str_exn e)), w')
                  ∧ stdout w' = (stdout w1 ++ ["[RAG] Error querying for agent "
                                               +:+ api.agent_id request +:+ ": "
                                               +:+ str_exn e])%list) as Hapi.
  { intros try_block e w1 Hraise. unfold try_except. rewrite Hraise.
    by eexists. }
  assert (∀ (try_block : M rag_backend.Result) (e : exn) (w1 : World),
            try_block w = (Raise e, w1) →
            ∃ w', try_except try_block rag_backend.query_rag_except w
                  = (Return {| rag_backend.text :=
                                 "I'm having trouble accessing the information. Please try again.";
                               rag_backend.question_matched := None;
                               rag_backend.similarity := Some 0%float;
                               rag_backend.found := false;
                               rag_backend.error := Some (str_exn e) |}, w')
                  ∧ stdout w' = (stdout w1 ++ ["[RAG] Error: " +:+ str_exn e])%list)
    as Hrag.
  { intros try_block e w1 Hraise. unfold try_except. rewrite Hraise.
    by eexists. }
  assert (api.query_rag E request
          = try_except (api.query_rag_try E request) (api.query_rag_except request))
    as Hunfold.
  { unfold api.query_rag. by rewrite (agent_id_accepted request Hagent). }
  split; [exact Hapi|]. split; [exact Hrag|]. split; [exact Hunfold|].
  split; [done|].
  intros msg Hfail.
  assert (∃ w1, supabase_client.get_supabase_client E w = (Raise (Exception msg), w)
                ∧ w1 = w
                ∨ (∃ client,
                     supabase_client.get_supabase_client E w = (Return client, w)
                     ∧ supabase_client.find_best_answer E client
                         (api.agent_id request) (api.query request) w
                       = (Raise (Exception msg), w1)
                     ∧ stdout w1 = stdout w)) as [w1 Hcause].
  { destruct Hfail as [Hvars|msg Hvars Hcreate|msg Hconf Hfault].
    - exists w. left. split; [by apply get_client_unconfigured|done].
    - exists w. left. split; [by apply get_client_rejected|done].
    - destruct (get_client_configured E w Hconf) as [client Hclient].
      eexists. right. exists client. split; [done|].
      unfold supabase_client.find_best_answer, mbind, M_bind, execute.
      rewrite Hfault. by split. }
  assert (api.query_rag_try E request w = (Raise (Exception msg), w1)
          ∧ rag_backend.query_rag_try E (api.agent_id request) (api.query request) w
            = (Raise (Exception msg), w1)
          ∧ stdout w1 = stdout w) as (Htry & Htry' & Hout).
  { unfold api.query_rag_try, rag_backend.query_rag_try.
    unfold mbind at 1 3, M_bind at 1 3.
    destruct Hcause as [[Hclient ->]|(client & Hclient & Hfind & Hout)];
      rewrite Hclient; [done|].
    unfold mbind at 1 2, M_bind at 1 2. by rewrite Hfind. }
  split.
  - rewrite Hunfold. destruct (Hapi _ _ _ Htry) as (w' & Hrun & Hprinted).
    exists w'. split; [exact Hrun|]. by rewrite Hprinted, Hout.
  - unfold rag_backend.query_rag.
    destruct (Hrag _ _ _ Htry') as (w' & Hrun & Hprinted).
    exists w'. split; [exact Hrun|]. by rewrite Hprinted, Hout.
Qed.

(** ** Curation *)




(** C10. The delete endpoint never reads its agent_id: it does the same
    for every agent_id; when the store answers, it deletes the entries whose
    id is qa_id, whichever knowledge base they belong to, and reports
    success with that id. *)
Theorem delete_qa_pair_ignores_agent_id
    (E : Env) (agent qa_id : string) (w : World) :
  (∀ other_agent,
     api.delete_qa_pair E other_agent qa_id w = api.delete_qa_pair E agent qa_id w)
  ∧ (configured E →
     fault E (length (requests w)) = None →
     api.delete_qa_pair E agent qa_id w
     = (Return {| api.deleted_success := true; api.deleted_id := qa_id |},
        with_document_chunks
          (filter (λ c, chunk_id c ≠ qa_id) (document_chunks w))
          (sent (Delete "document_chunks") w))).
Proof.
  split; [done|]. intros Hconf Hfault.
  unfold api.delete_qa_pair, try_except, mbind at 1, M_bind at 1.
  destruct (get_client_configured E w Hconf) as [client ->].
  unfold mbind, M_bind, execute. by rewrite Hfault.
Qed.

(** ** The crawler *)

Section Crawl.
Context (E : Env) (max_pages : Z).
Import crawler.

Lemma internal_links_at_most_twenty (n : nat) (u : string) :
  (length (internal_links (extract_page_content E n u)) ≤ 20)%nat.
Proof.
  unfold extract_page_content. destruct (fetch E n u); simpl; [lia|].
  rewrite length_take. lia.
Qed.

Lemma add_links_length (v : gset string) (ls q : list string) :
  (length (add_links v ls q) ≤ length q + length ls)%nat.
Proof.
  revert q. induction ls as [|l ls IH]; intros q; simpl; [lia|].
  destruct (_ && _).
  - etrans; [apply IH|]. rewrite length_app. simpl. lia.
  - etrans; [apply IH|]. lia.
Qed.

Lemma loop_body_decreases (st : CrawlState) :
  loop_test max_pages st = true →
  (measure max_pages (loop_body E st) < measure max_pages st)%nat.
Proof.
  unfold loop_test, loop_body, measure.
  destruct (to_visit st) as [|u rest]; [done|].
  intros Hlt%bool_decide_eq_true.
  destruct (bool_decide (u ∈ visited st)); simpl; [lia|].
  destruct (success _) eqn:Hs; simpl; [|lia].
  rewrite length_app. simpl.
  pose proof (add_links_length (visited st ∪ {[u]})
                (internal_links (extract_page_content E (length (fetched st)) u)) rest).
  pose proof (internal_links_at_most_twenty (length (fetched st)) u).
  lia.
Qed.

(** With fuel for the measure, the loop stops because its test fails. *)
Lemma crawl_loop_exits (fuel : nat) (st : CrawlState) :
  (measure max_pages st ≤ fuel)%nat →
  loop_test max_pages (crawl_loop E fuel max_pages st) = false.
Proof.
  revert st. induction fuel as [|fuel IH]; intros st Hfuel; simpl.
  - unfold loop_test. unfold measure in Hfuel.
    destruct (to_visit st); [done|simpl in Hfuel; lia].
  - destruct (loop_test max_pages st) eqn:Htest; [|done].
    apply IH. pose proof (loop_body_decreases st Htest). lia.
Qed.

(** Fuel beyond what the loop needs changes nothing. *)
Lemma crawl_loop_more_fuel (fuel extra : nat) (st : CrawlState) :
  (measure max_pages st ≤ fuel)%nat →
  crawl_loop E (fuel + extra) max_pages st = crawl_loop E fuel max_pages st.
Proof.
  revert st. induction fuel as [|fuel IH]; intros st Hfuel; simpl.
  - assert (loop_test max_pages st = false) as Htest.
    { unfold loop_test. unfold measure in Hfuel.
      destruct (to_visit st); [done|simpl in Hfuel; lia]. }
    destruct extra; simpl; [done|by rewrite Htest].
  - destruct (loop_test max_pages st) eqn:Htest; [|done].
    apply IH. pose proof (loop_body_decreases st Htest). lia.
Qed.

Lemma crawl_inv_start (start_url : string) :
  crawl_inv E max_pages (crawl_start start_url).
Proof. split; simpl; [constructor|by intros ? ?%elem_of_nil|done|lia]. Qed.

Lemma crawl_inv_body (st : CrawlState) :
  loop_test max_pages st = true →
  crawl_inv E max_pages st → crawl_inv E max_pages (loop_body E st).
Proof.
  unfold loop_test, loop_body. intros Htest [Hnodup Hvis Hpages Hcap].
  destruct (to_visit st) as [|u rest]; [done|].
  apply bool_decide_eq_true in Htest.
  destruct (bool_decide (u ∈ visited st)) eqn:Hu; [by split|].
  apply bool_decide_eq_false in Hu.
  assert (NoDup (fetched st ++ [u])%list) as Hnodup'.
  { apply NoDup_app. split; [done|]. split; [|apply NoDup_singleton].
    intros v Hv ->%list_elem_of_singleton. by apply Hu, Hvis. }
  assert (∀ v, v ∈ (fetched st ++ [u])%list → v ∈ visited st ∪ {[u]}) as Hvis'.
  { intros v [Hv| ->%list_elem_of_singleton]%elem_of_app; set_solver. }
  assert (imap (extract_page_content E) (fetched st ++ [u])%list
          = (imap (extract_page_content E) (fetched st)
             ++ [extract_page_content E (length (fetched st)) u])%list) as Himap.
  { rewrite imap_app. simpl. by rewrite Nat.add_0_r. }
  destruct (success _) eqn:Hs; split; simpl; try done.
  - rewrite Himap, filter_app, <- Hpages. f_equal.
    rewrite filter_cons_True; done.
  - rewrite length_app. simpl. lia.
  - rewrite Himap, filter_app, <- Hpages.
    rewrite filter_cons_False; [by rewrite app_nil_r|by rewrite Hs].
Qed.

Lemma crawl_inv_loop (fuel : nat) (st : CrawlState) :
  crawl_inv E max_pages st → crawl_inv E max_pages (crawl_loop E fuel max_pages st).
Proof.
  revert st. induction fuel as [|fuel IH]; intros st Hinv; simpl; [done|].
  destruct (loop_test max_pages st) eqn:Htest; [|done].
  by apply IH, crawl_inv_body.
Qed.

(** A request that fails takes its address off the queue, and nothing
    else. *)
Lemma loop_body_failed_request (st : CrawlState) (u : string) (rest : list string) :
  to_visit st = u :: rest →
  u ∉ visited st →
  success (extract_page_content E (length (fetched st)) u) = false →
  loop_body E st
  = {| visited := visited st ∪ {[u]}; to_visit := rest;
       pages := pages st; fetched := (fetched st ++ [u])%list |}.
Proof.
  intros Hq Hu Hfail. unfold loop_body. rewrite Hq.
  rewrite bool_decide_eq_false_2 by done. by rewrite Hfail.
Qed.

Lemma add_links_keeps_queue (v : gset string) (ls q : list string) (x : string) :
  x ∈ q → x ∈ add_links v ls q.
Proof.
  revert q. induction ls as [|l ls IH]; intros q Hx; simpl; [done|].
  destruct (_ && _); apply IH; [|done]. apply elem_of_app. by left.
Qed.

Lemma add_links_complete (v : gset string) (ls q : list string) (l : string) :
  l ∈ ls → l ∈ v ∨ l ∈ add_links v ls q.
Proof.
  revert q. induction ls as [|l' ls IH]; intros q Hl; [by apply elem_of_nil in Hl|].
  apply elem_of_cons in Hl as [->|Hl]; simpl.
  - destruct (bool_decide (l' ∉ v)) eqn:Hv; simpl.
    + destruct (bool_decide (l' ∉ q)) eqn:Hq; right; apply add_links_keeps_queue.
      * apply elem_of_app. right. by apply list_elem_of_singleton.
      * apply bool_decide_eq_false in Hq. by apply dec_stable.
    + left. apply bool_decide_eq_false in Hv. by apply dec_stable.
  - destruct (_ && _); by apply IH.
Qed.

Lemma reach_inv_start (start_url : string) :
  reach_inv start_url (crawl_start start_url).
Proof.
  split; simpl.
  - by intros u ?%elem_of_empty.
  - right. by apply list_elem_of_singleton.
  - by intros p l ?%elem_of_nil.
Qed.

Lemma reach_inv_body (start_url : string) (st : CrawlState) :
  reach_inv start_url st → reach_inv start_url (loop_body E st).
Proof.
  unfold loop_body. intros [Hvis Hseed Hlinks].
  destruct (to_visit st) as [|u rest] eqn:Hq; [by split; rewrite ?Hq|].
  assert (∀ x, x ∈ visited st ∨ x ∈ u :: rest →
               x ∈ visited st ∪ {[u]} ∨ x ∈ rest) as Hmove.
  { intros x [Hx|Hx]; [left; apply elem_of_union; by left|].
    apply elem_of_cons in Hx as [->|Hx]; [left|by right].
    apply elem_of_union. right. by apply elem_of_singleton. }
  destruct (bool_decide (u ∈ visited st)) eqn:Hu.
  { apply bool_decide_eq_true in Hu.
    assert (∀ x, x ∈ visited st ∨ x ∈ u :: rest →
                 x ∈ visited st ∨ x ∈ rest) as Hskip.
    { intros x [Hx|Hx]; [by left|].
      apply elem_of_cons in Hx as [->|Hx]; [by left|by right]. }
    split; simpl; [done|by apply Hskip|].
    intros p l Hp Hl. exact (Hskip l (Hlinks p l Hp Hl)). }
  assert (∀ x, x ∈ visited st ∪ {[u]} → x ∈ (fetched st ++ [u])%list) as Hvis'.
  { intros x [Hx| ->%elem_of_singleton]%elem_of_union; apply elem_of_app;
      [left; by apply Hvis|right; by apply list_elem_of_singleton]. }
  destruct (success _) eqn:Hs; split; simpl; try done.
  - destruct (Hmove start_url Hseed) as [?|?]; [by left|].
    right. by apply add_links_keeps_queue.
  - intros p l [Hp| ->%list_elem_of_singleton]%elem_of_app Hl.
    + destruct (Hmove l (Hlinks p l Hp Hl)) as [?|?]; [by left|].
      right. by apply add_links_keeps_queue.
    + by apply add_links_complete.
  - by apply Hmove.
  - intros p l Hp Hl. exact (Hmove l (Hlinks p l Hp Hl)).
Qed.

Lemma reach_inv_loop (start_url : string) (fuel : nat) (st : CrawlState) :
  reach_inv start_url st → reach_inv start_url (crawl_loop E fuel max_pages st).
Proof.
  revert st. induction fuel as [|fuel IH]; intros st Hinv; simpl; [done|].
  destruct (loop_test max_pages st); [|done].
  by apply IH, reach_inv_body.
Qed.

End Crawl.

(** *** Computations that return *)

Lemma returns_ret {A : Type} (a : A) : returns (mret a).
Proof. intros w. by exists a, w. Qed.

Lemma returns_bind {A B : Type} (m : M A) (f : A → M B) :
  returns m → (∀ a, returns (f a)) → returns (m ≫= f).
Proof.
  intros Hm Hf w. destruct (Hm w) as (a & w1 & Ha).
  destruct (Hf a w1) as (b & w2 & Hb). exists b, w2.
  unfold mbind, M_bind. by rewrite Ha.
Qed.

Lemma returns_try {A : Type} (body : M A) (handler : exn → M A) :
  returns body → returns (try_except body handler).
Proof.
  intros Hm w. destruct (Hm w) as (a & w1 & Ha). exists a, w1.
  unfold try_except. by rewrite Ha.
Qed.

Lemma returns_print (line : string) : returns (print line).
Proof. intros w. by eexists _, _. Qed.

Section StoreAnswers.
Context (E : Env).
Hypothesis store_configured : configured E.
Hypothesis store_answers : ∀ n, fault E n = None.

Lemma returns_execute {A : Type} (r : request) (effect : World → A * World) :
  returns (execute E r effect).
Proof.
  intros w. unfold execute. rewrite store_answers.
  destruct (effect (sent r w)) as [a w']. by exists a, w'.
Qed.

Lemma returns_new_uuid : returns (new_uuid E).
Proof. intros w. by eexists _, _. Qed.

Lemma returns_get_supabase_client : returns (supabase_client.get_supabase_client E).
Proof.
  intros w. destruct (get_client_configured E w store_configured) as [c Hc].
  by exists c, w.
Qed.

Lemma returns_get_or_create (c : supabase_client.Client) (a s : string) :
  returns (supabase_client.get_or_create_knowledge_base E c a s).
Proof.
  apply returns_bind; [apply returns_execute|]. intros [|kb kbs].
  - apply returns_bind; [apply returns_new_uuid|]. intros id.
    apply returns_bind; [apply returns_execute|]. intros _. apply returns_ret.
  - apply returns_ret.
Qed.

Lemma returns_update_kb_status (c : supabase_client.Client) (id s : string) :
  returns (supabase_client.update_kb_status E c id s).
Proof. apply returns_execute. Qed.

Lemma returns_save_website_data (c : supabase_client.Client) (a u t ct : string)
    (hs ls : list string) (md : string * list (string * list string) * nat) :
  returns (supabase_client.save_website_data E c a u t ct hs ls md).
Proof.
  unfold supabase_client.save_website_data. destruct md as [[kb contacts] n].
  apply returns_try, returns_execute.
Qed.

Lemma returns_store_pages (c : supabase_client.Client) (a kb : string)
    (ps : list crawler.PageData) (n : nat) :
  returns (crawler.store_pages E c a kb ps n).
Proof.
  revert n. induction ps as [|p ps IH]; intros n; simpl; [apply returns_ret|].
  apply returns_bind; [|intros n'; apply IH].
  apply returns_try, returns_bind; [|intros _; apply returns_ret].
  exact (returns_save_website_data c a (crawler.url p) (crawler.title p)
           (crawler.content p) (crawler.headings p) (crawler.links p)
           (kb, crawler.contacts p, length (crawler.lists p))).
Qed.

Lemma returns_crawl_and_store
    (x : crawler.PageData → list crawler.Suggestion) (a u : string) (m : Z) :
  returns (crawler.crawl_and_store E x a u m).
Proof.
  unfold crawler.crawl_and_store.
  repeat first
    [ apply returns_ret
    | apply returns_print
    | apply returns_get_supabase_client
    | apply returns_get_or_create
    | apply returns_store_pages
    | apply returns_update_kb_status
    | apply returns_bind; [|intros ?] ].
Qed.

End StoreAnswers.

Lemma crawl_and_store_counts
    (E : Env) (x : crawler.PageData → list crawler.Suggestion) (a u : string) (m : Z)
    (w w' : World) (kb : string) (crawled saved : nat) (sg : list crawler.Suggestion) :
  crawler.crawl_and_store E x a u m w = (Return (kb, crawled, saved, sg), w') →
  crawled = length (crawler.crawl_website E u m).
Proof.
  unfold crawler.crawl_and_store. intros H.
  repeat (unfold mbind at 1, M_bind at 1 in H;
          match type of H with
          | context [match ?c ?v with _ => _ end] =>
              destruct (c v) as [[?|?] ?]; [|done]
          end).
  by injection H as _ <- _ _ _.
Qed.

(** Whenever the crawl endpoint returns a response, it counts the pages of
    the crawl, and success is false exactly when there is none. *)
Lemma crawl_endpoint_response
    (E : Env) (x : crawler.PageData → list crawler.Suggestion)
    (request : api.CrawlRequest) (w w' : World) (resp : api.CrawlResponse) :
  api.crawl_website_endpoint E x request w = (Return resp, w') →
  api.pages_crawled resp
  = length (crawler.crawl_website E (api.cr_url request) (api.cr_max_pages request))
  ∧ (api.success resp = false
     ↔ crawler.crawl_website E (api.cr_url request) (api.cr_max_pages request) = []).
Proof.
  unfold api.crawl_website_endpoint, try_except. intros H.
  match type of H with
  | context [match ?m w with _ => _ end] => destruct (m w) as [[r|e] w1] eqn:Hbody
  end; [|done].
  injection H as -> ->.
  bind_inv Hbody as Hprint; [|done].
  bind_inv Hbody as Hcrawl; [|done].
  destruct a0 as [[[kb crawled] saved] sg].
  apply crawl_and_store_counts in Hcrawl as ->.
  destruct (crawler.crawl_website E _ _) as [|p ps]; simpl in Hbody;
    injection Hbody as <- <-; simpl; split; done.
Qed.

(** Whatever the store does, the crawl endpoint either returns a response
    or raises the server error (status 500) of its handler. *)
Lemma crawl_endpoint_outcome
    (E : Env) (x : crawler.PageData → list crawler.Suggestion)
    (request : api.CrawlRequest) (w w' : World) (o : outcome api.CrawlResponse) :
  api.crawl_website_endpoint E x request w = (o, w') →
  (∃ resp, o = Return resp) ∨ (∃ msg, o = Raise (HTTPException 500 msg)).
Proof.
  unfold api.crawl_website_endpoint, try_except. intros H.
  match type of H with
  | context [match ?m w with _ => _ end] => destruct (m w) as [[r|e] w1]
  end.
  - injection H as <- _. left. by exists r.
  - unfold mbind, M_bind, print, raise in H. injection H as <- _.
    right. by eexists.
Qed.

(** The loop over the pages never raises, whatever the store does: every
    failure of a save is caught and printed. *)
Lemma store_pages_returns
    (E : Env) (client : supabase_client.Client) (agent kb : string)
    (ps : list crawler.PageData) (n : nat) (w : World) :
  ∃ k w', crawler.store_pages E client agent kb ps n w = (Return k, w').
Proof.
  revert n w. induction ps as [|p ps IH]; intros n w; simpl; [by eexists _, _|].
  unfold mbind at 1, M_bind at 1, try_except.
  match goal with
  | |- context [match ?m w with _ => _ end] => destruct (m w) as [[k|e] w1]
  end.
  - apply IH.
  - unfold mbind at 1, M_bind at 1, print, mret, M_ret. apply IH.
Qed.

(** A request that raises is the last one of the log. *)
Lemma execute_raises {A : Type} (E : Env) (r : request) (effect : World → A * World)
    (w w' : World) (e : exn) :
  execute E r effect w = (Raise e, w') →
  ∃ msg, e = Exception msg ∧ fault E (length (requests w)) = Some msg
         ∧ requests w' = (requests w ++ [r])%list.
Proof.
  intros H. apply execute_inv in H as [(msg & Hfault & [= ->] & ->)|(_ & [=] & _)].
  by exists msg.
Qed.

Lemma get_or_create_knowledge_base_raises
    (E : Env) (client : supabase_client.Client) (agent source : string)
    (w w' : World) (e : exn) :
  supabase_client.get_or_create_knowledge_base E client agent source w = (Raise e, w') →
  ∃ msg log r, e = Exception msg ∧ requests w' = (log ++ [r])%list
               ∧ on_knowledge_bases r ∧ fault E (length log) = Some msg.
Proof.
  unfold supabase_client.get_or_create_knowledge_base. intros H.
  bind_inv H as Hselect.
  - apply execute_inv in Hselect as [(msg & _ & [=] & _)|(Hfault & [= ->] & ->)].
    simpl in H. destruct (filter _ _) as [|kb found]; [|done].
    bind_inv H as Hid; [|by unfold new_uuid in Hid].
    unfold new_uuid in Hid. injection Hid as <- <-.
    bind_inv H as Hinsert; [done|]. injection H as <- <-.
    apply execute_raises in Hinsert as (msg & -> & Hfault' & Hlog).
    exists msg. eexists _, _. split; [done|]. split; [exact Hlog|].
    split; [right; by left|done].
  - injection H as <- <-.
    apply execute_raises in Hselect as (msg & -> & Hfault & Hlog).
    exists msg. eexists _, _. split; [done|]. split; [exact Hlog|].
    split; [by left|done].
Qed.

(** The server error of the crawl endpoint has one of two causes: the client
    cannot be made, or a request on the table of the knowledge bases
    raises, which is then the last request of the log. *)
Lemma crawl_endpoint_raises
    (E : Env) (x : crawler.PageData → list crawler.Suggestion)
    (request : api.CrawlRequest) (w w' : World) (e : exn) :
  api.crawl_website_endpoint E x request w = (Raise e, w') →
  ∃ msg, e = HTTPException 500 msg
         ∧ ((¬ configured E ∧ requests w' = requests w)
            ∨ ∃ log r, requests w' = (log ++ [r])%list
                       ∧ on_knowledge_bases r
                       ∧ fault E (length log) = Some msg).
Proof.
  unfold api.crawl_website_endpoint, try_except. intros H.
  match type of H with
  | context [match ?m w with _ => _ end] => destruct (m w) as [[r|e0] w1] eqn:Hbody
  end; [done|].
  unfold mbind, M_bind, print, raise in H. injection H as <- <-.
  exists (str_exn e0). split; [done|]. simpl.
  bind_inv Hbody as Hprint; [|done]. unfold print in Hprint.
  injection Hprint as _ <-.
  bind_inv Hbody as Hstore.
  { match type of Hstore with
    | _ = (Return ?t, _) => destruct t as [[[kb crawled] saved] sg]
    end.
    by destruct (crawled =? 0)%nat. }
  injection Hbody as <- <-.
  unfold crawler.crawl_and_store in Hstore.
  bind_inv Hstore as Hprint; [|done]. unfold print in Hprint.
  injection Hprint as _ <-.
  bind_inv Hstore as Hclient.
  2:{ injection Hstore as <- <-.
      apply get_client_inv in Hclient as [-> [(c & [=] & _)|[[_ Hvars]|(msg & _ & _ & Hc)]]];
        left; (split; [|done]).
      - by intros [? _].
      - intros [_ Hnone]. by rewrite Hnone in Hc. }
  apply get_client_inv in Hclient as [-> _].
  bind_inv Hstore as Hkb.
  2:{ injection Hstore as <- <-.
      apply get_or_create_knowledge_base_raises in Hkb
        as (msg & log & r & -> & Hlog & Hr & Hfault).
      right. by exists log, r. }
  bind_inv Hstore as Hprint; [|done]. unfold print in Hprint.
  injection Hprint as _ <-.
  bind_inv Hstore as Hprint; [|done]. unfold print in Hprint.
  injection Hprint as _ <-.
  bind_inv Hstore as Hpages.
  2:{ match type of Hpages with
      | crawler.store_pages ?E ?c ?a ?k ?ps ?n ?w0 = _ =>
          destruct (store_pages_returns E c a k ps n w0) as (k' & w'' & Hret)
      end.
      by rewrite Hret in Hpages. }
  bind_inv Hstore as Hprint; [|done]. unfold print in Hprint.
  injection Hprint as _ <-.
  bind_inv Hstore as Hprint; [|done]. unfold print in Hprint.
  injection Hprint as _ <-.
  bind_inv Hstore as Hupdate; [done|]. injection Hstore as <- <-.
  apply execute_raises in Hupdate as (msg & -> & Hfault & Hlog).
  right. eexists _, _. split; [exact Hlog|]. split; [right; by right|done].
Qed.

(** C9, as amended. For every seed address and page cap max_pages, the
    crawl returns at most max_pages page records (none when max_pages is
    below zero); it requests every address at most once; a request that
    fails is skipped and the crawl goes on: the failed request takes its
    address off the queue and changes nothing else, the loop ends only
    because the queue is empty or the cap is reached, so that below the cap
    the seed and every link of every page kept have been requested; and the
    records returned are those of the requests that succeeded, in the order
    of the requests. The crawl endpoint either returns a response, which
    counts the pages crawled and whose success is false exactly when no
    page was crawled, or raises the server error of its handler, however
    many pages were crawled. The saves of the pages never raise; the server
    error comes from a client that cannot be made or from a request on the
    table of the knowledge bases that raises, and with a store that
    answers the endpoint returns a response. *)
Theorem crawl_capped_deduplicated_failures_skipped
    (E : Env) (x : crawler.PageData → list crawler.Suggestion)
    (request : api.CrawlRequest) (w : World) :
  let start_url := api.cr_url request in
  let max_pages := api.cr_max_pages request in
  let st := crawler.crawl_run E start_url max_pages in
  (Z.of_nat (length (crawler.crawl_website E start_url max_pages))
   ≤ Z.max 0 max_pages)%Z
  ∧ NoDup (crawler.fetched st)
  ∧ crawler.loop_test max_pages st = false
  ∧ crawler.crawl_website E start_url max_pages
    = filter (λ p, crawler.success p = true)
             (imap (crawler.extract_page_content E) (crawler.fetched st))
  ∧ (∀ s u rest,
       crawler.to_visit s = u :: rest →
       u ∉ crawler.visited s →
       crawler.success
         (crawler.extract_page_content E (length (crawler.fetched s)) u) = false →
       crawler.loop_body E s
       = {| crawler.visited := crawler.visited s ∪ {[u]};
            crawler.to_visit := rest;
            crawler.pages := crawler.pages s;
            crawler.fetched := (crawler.fetched s ++ [u])%list |})
  ∧ ((Z.of_nat (length (crawler.crawl_website E start_url max_pages))
      < max_pages)%Z →
     crawler.to_visit st = []
     ∧ start_url ∈ crawler.fetched st
     ∧ ∀ p l, p ∈ crawler.crawl_website E start_url max_pages →
              l ∈ crawler.internal_links p → l ∈ crawler.fetched st)
  ∧ (∀ o w',
       api.crawl_website_endpoint E x request w = (o, w') →
       (∃ resp,
          o = Return resp
          ∧ api.pages_crawled resp
            = length (crawler.crawl_website E start_url max_pages)
          ∧ (api.success resp = false
             ↔ crawler.crawl_website E start_url max_pages = []))
       ∨ (∃ msg, o = Raise (HTTPException 500 msg)))
  ∧ (∀ client agent kb ps n w0,
       ∃ k w1, crawler.store_pages E client agent kb ps n w0 = (Return k, w1))
  ∧ (∀ e w',
       api.crawl_website_endpoint E x request w = (Raise e, w') →
       ∃ msg, e = HTTPException 500 msg
              ∧ ((¬ configured E ∧ requests w' = requests w)
                 ∨ ∃ log r, requests w' = (log ++ [r])%list
                            ∧ on_knowledge_bases r
                            ∧ fault E (length log) = Some msg))
  ∧ (configured E → (∀ n, fault E n = None) →
     ∃ resp w', api.crawl_website_endpoint E x request w = (Return resp, w')).
Proof.
  intros start_url max_pages st.
  destruct (crawl_inv_loop E max_pages (crawler.crawl_fuel max_pages) _
              (crawl_inv_start E max_pages start_url))
    as [Hnodup _ Hpages Hcap].
  destruct (reach_inv_loop E max_pages start_url (crawler.crawl_fuel max_pages) _
              (reach_inv_start start_url))
    as [Hvisited Hseed Hlinks].
  fold (crawler.crawl_run E start_url max_pages) in Hnodup, Hpages, Hcap,
    Hvisited, Hseed, Hlinks.
  fold st in Hnodup, Hpages, Hcap, Hvisited, Hseed, Hlinks.
  assert (crawler.loop_test max_pages st = false) as Hexit.
  { apply crawl_loop_exits. unfold measure, crawler.crawl_fuel. simpl. lia. }
  split; [unfold crawler.crawl_website; fold st; lia|].
  split; [done|].
  split; [done|].
  split; [done|].
  split; [apply loop_body_failed_request|].
  split.
  { unfold crawler.crawl_website. fold st. intros Hbelow.
    assert (crawler.to_visit st = []) as Hempty.
    { unfold crawler.loop_test in Hexit.
      destruct (crawler.to_visit st); [done|].
      apply bool_decide_eq_false in Hexit. lia. }
    rewrite Hempty in Hseed, Hlinks. split; [done|]. split.
    - destruct Hseed as [?|?%elem_of_nil]; [by apply Hvisited|done].
    - intros p l Hp Hl.
      destruct (Hlinks p l Hp Hl) as [?|?%elem_of_nil]; [by apply Hvisited|done]. }
  split.
  { intros o w' Hrun.
    destruct (crawl_endpoint_outcome E x request w w' o Hrun) as [[resp ->]|Hraise];
      [left|by right].
    exists resp. split; [done|]. by apply crawl_endpoint_response in Hrun. }
  split; [intros; apply store_pages_returns|].
  split; [intros e w'; apply crawl_endpoint_raises|].
  intros Hconf Hfault.
  assert (returns (api.crawl_website_endpoint E x request)) as Hret.
  { apply returns_try, returns_bind; [apply returns_print|]. intros _.
    apply returns_bind; [by apply returns_crawl_and_store|].
    intros [[[kb crawled] saved] sg].
    destruct (crawled =? 0)%nat; apply returns_ret. }
  apply Hret.
Qed.

(** ** The properties at concrete inputs *)

Lemma agent_1_not_blank : ¬ blank "agent-1".
Proof. intros H. inversion H as [|c l Hc Hl]. discriminate Hc. Defined.

Lemma example_env_configured rows faults web :
  configured (example_env rows faults web).
Proof. split; [split|]; reflexivity. Defined.

(** C2, the defect. Below the threshold, [rag_backend.query_rag] returns the
    stored text of the entry with found = true: for the score 0.125 and the
    entry "Open 9 to 5." it answers with that text, not with a fallback. *)
Theorem rag_backend_query_rag_ignores_threshold :
  PrimFloat.leb api.SIMILARITY_THRESHOLD 0.125%float = false
  ∧ fst (rag_backend.query_rag
           (example_env [hours_row 0.125%float] working no_web)
           "agent-1" "asdkjasdkj" empty_world)
    = Return {| rag_backend.text := "Open 9 to 5.";
                rag_backend.question_matched := Some "What are your hours?";
                rag_backend.similarity := Some 0.125%float;
                rag_backend.found := true;
                rag_backend.error := None |}.
Proof. split; vm_compute; reflexivity. Qed.

Lemma query_rag_returns_stored_text_verbatim_witness :
  api.query_rag (example_env [hours_row 0.5%float] working no_web)
    hours_request empty_world
  = (Return {| api.text := "Open 9 to 5.";
               api.question_matched := Some "What are your hours?";
               api.similarity := 0.5%float;
               api.found := true; api.threshold_met := true |},
     sent (Rpc "find_best_answer") empty_world).
Proof.
  apply (query_rag_returns_stored_text_verbatim
           (example_env [hours_row 0.5%float] working no_web)
           hours_request empty_world agent_1_not_blank
           (example_env_configured _ _ _) eq_refl
           (hours_row 0.5%float) [] 0.5%float "Open 9 to 5.").
  - reflexivity.
  - reflexivity.
  - reflexivity.
  - left. reflexivity.
  - discriminate.
Defined.

Lemma blank_agent_id_rejected_before_store_access_witness :
  api.query_rag (example_env [hours_row 0.5%float] working no_web)
    {| api.query := "what are your hours"; api.agent_id := "   " |} empty_world
  = (Raise (HTTPException 400 "agent_id is required for agent isolation"),
     empty_world).
Proof.
  apply blank_agent_id_rejected_before_store_access. repeat constructor.
Defined.

Lemma unusable_entry_falls_back_witness :
  ∃ t w',
    api.query_rag (example_env [textless_row 0.5%float] working no_web)
      hours_request empty_world
    = (Return {| api.text := t;
                 api.question_matched := Some "What are your hours?";
                 api.similarity := 0.5%float;
                 api.found := false; api.threshold_met := false |}, w')
    ∧ t ∈ api.FALLBACK_RESPONSES ∧ t ≠ "".
Proof.
  apply (unusable_entry_falls_back
           (example_env [textless_row 0.5%float] working no_web)
           hours_request empty_world agent_1_not_blank
           (example_env_configured _ _ _) eq_refl
           (textless_row 0.5%float) []).
  - reflexivity.
  - right. right. reflexivity.
  - right. left. reflexivity.
Defined.

(** C5, as stated, fails: the engine returns an entry, which is matched and
    whose text is returned, and question_matched is null, because the entry
    has no question. *)
Lemma question_matched_null_although_entry_returned :
  engine_rows (example_env [nameless_row] working no_web) hours_request empty_world
  = [nameless_row]
  ∧ fst (api.query_rag (example_env [nameless_row] working no_web)
           hours_request empty_world)
    = Return {| api.text := "Open 9 to 5."; api.question_matched := None;
                api.similarity := 0.5%float;
                api.found := true; api.threshold_met := true |}.
Proof. split; vm_compute; reflexivity. Qed.

Lemma question_matched_is_entry_question_witness :
  ∃ resp w',
    api.query_rag (example_env [hours_row 0.125%float] working no_web)
      hours_request empty_world = (Return resp, w')
    ∧ api.question_matched resp = Some "What are your hours?".
Proof.
  apply (question_matched_is_entry_question
           (example_env [hours_row 0.125%float] working no_web)
           hours_request empty_world agent_1_not_blank
           (example_env_configured _ _ _) eq_refl).
Defined.

Lemma no_entry_gives_fallback_witness :
  ∃ t w',
    api.query_rag (example_env [] working no_web) hours_request empty_world
    = (Return {| api.text := t; api.question_matched := None;
                 api.similarity := 0%float; api.found := false;
                 api.threshold_met := false |}, w')
    ∧ t ∈ api.FALLBACK_RESPONSES ∧ t ≠ "".
Proof.
  apply (no_entry_gives_fallback
           (example_env [] working no_web) hours_request empty_world
           agent_1_not_blank (example_env_configured _ _ _) eq_refl).
  reflexivity.
Defined.

(** C7, as stated, fails: the detail of the server error is the message of
    the internal exception, and [rag_backend.query_rag] hands the same
    message over in its error field. *)
Lemma server_error_detail_is_exception_message :
  fst (api.query_rag
         (example_env [] (λ _, Some "connection to db.internal:5432 refused") no_web)
         hours_request empty_world)
  = Raise (HTTPException 500 "connection to db.internal:5432 refused")
  ∧ rag_backend.error <$>
      match fst (rag_backend.query_rag
                   (example_env [] (λ _, Some "connection to db.internal:5432 refused")
                      no_web)
                   "agent-1" "what are your hours" empty_world) with
      | Return r => Some r
      | Raise _ => None
      end
    = Some (Some "connection to db.internal:5432 refused").
Proof. split; vm_compute; reflexivity. Qed.

Lemma internal_failure_logged_and_surfaced_witness :
  (∃ w', api.query_rag (example_env [] (λ _, Some "timeout") no_web)
           hours_request empty_world
         = (Raise (HTTPException 500 "timeout"), w')
         ∧ stdout w' = ["[RAG] Error querying for agent agent-1: timeout"])
  ∧ (∃ w', rag_backend.query_rag (example_env [] (λ _, Some "timeout") no_web)
             "agent-1" "what are your hours" empty_world
           = (Return {| rag_backend.text :=
                          "I'm having trouble accessing the information. Please try again.";
                        rag_backend.question_matched := None;
                        rag_backend.similarity := Some 0%float;
                        rag_backend.found := false;
                        rag_backend.error := Some "timeout" |}, w')
           ∧ stdout w' = ["[RAG] Error: timeout"])
  ∧ (∃ w', api.query_rag rejecting_env hours_request empty_world
           = (Raise (HTTPException 500 "Invalid URL"), w')
           ∧ stdout w' = ["[RAG] Error querying for agent agent-1: Invalid URL"]).
Proof.
  destruct (internal_failure_logged_and_surfaced
              (example_env [] (λ _, Some "timeout") no_web)
              hours_request empty_world agent_1_not_blank)
    as (_ & _ & _ & _ & Hstore).
  destruct (internal_failure_logged_and_surfaced
              rejecting_env hours_request empty_world agent_1_not_blank)
    as (_ & _ & _ & _ & Hclient).
  destruct (Hstore "timeout") as [Hapi Hrag].
  { apply fails_request; [apply example_env_configured|reflexivity]. }
  destruct (Hclient "Invalid URL") as [Hrejected _].
  { apply fails_create_client; [split; reflexivity|reflexivity]. }
  split; [exact Hapi|]. split; [exact Hrag|exact Hrejected].
Defined.



Lemma delete_qa_pair_ignores_agent_id_witness :
  api.delete_qa_pair (example_env [] working no_web) "agent-a" "qa-1" two_agents
  = (Return {| api.deleted_success := true; api.deleted_id := "qa-1" |},
     with_document_chunks [] (sent (Delete "document_chunks") two_agents)).
Proof.
  apply (delete_qa_pair_ignores_agent_id
           (example_env [] working no_web) "agent-a" "qa-1" two_agents).
  - apply example_env_configured.
  - reflexivity.
Defined.

(** The crawl of the small site: the page that fails is passed over, the
    page after it is fetched, no address is requested twice. *)
Example crawl_small_web :
  let st := crawler.crawl_run (example_env [] working small_web)
              "https://example.com/" 5 in
  crawler.fetched st
  = [ "https://example.com/"; "https://example.com/a"; "https://example.com/b" ]
  ∧ crawler.url <$> crawler.pages st
    = [ "https://example.com/"; "https://example.com/b" ]
  ∧ crawler.to_visit st = [].
Proof. vm_compute. repeat split; reflexivity. Qed.

(** C9, as stated, fails: the store fails when the status is updated, after
    two pages have been crawled, and the endpoint reports a server error;
    and for the cap -1 the crawl returns no record, which is more than the
    cap. *)
Lemma crawl_error_although_pages_crawled :
  length (crawler.crawl_website (example_env [] fifth_fails small_web)
            "https://example.com/" 5) = 2%nat
  ∧ fst (api.crawl_website_endpoint (example_env [] fifth_fails small_web)
           (λ _, []) small_request empty_world)
    = Raise (HTTPException 500 "connection reset")
  ∧ crawler.crawl_website (example_env [] working small_web)
      "https://example.com/" (-1) = []
  ∧ ¬ (Z.of_nat (length (crawler.crawl_website (example_env [] working small_web)
                           "https://example.com/" (-1))) ≤ -1)%Z.
Proof. repeat split; vm_compute; done. Qed.

Lemma crawl_capped_deduplicated_failures_skipped_witness :
  let E := example_env [] working small_web in
  (Z.of_nat (length (crawler.crawl_website E "https://example.com/" 5)) ≤ 5)%Z
  ∧ "https://example.com/b"
    ∈ crawler.fetched (crawler.crawl_run E "https://example.com/" 5)
  ∧ ∃ resp w',
      api.crawl_website_endpoint E (λ _, []) small_request empty_world
      = (Return resp, w')
      ∧ api.pages_crawled resp
        = length (crawler.crawl_website E "https://example.com/" 5)
      ∧ (api.success resp = false
         ↔ crawler.crawl_website E "https://example.com/" 5 = []).
Proof.
  intros E.
  destruct (crawl_capped_deduplicated_failures_skipped
              E (λ _, []) small_request empty_world)
    as (Hcap & _ & _ & _ & _ & Hreach & Hout & _ & _ & Hend).
  split; [exact Hcap|].
  split.
  { destruct Hreach as (_ & _ & Hlinks); [vm_compute; reflexivity|].
    apply (Hlinks (crawler.extract_page_content E 0 "https://example.com/")).
    - apply list_elem_of_In. vm_compute. left. reflexivity.
    - apply list_elem_of_In. vm_compute. right. left. reflexivity. }
  destruct Hend as (resp & w' & Hrun);
    [apply example_env_configured|reflexivity|].
  exists resp, w'. split; [exact Hrun|].
  destruct (Hout (Return resp) w' Hrun) as [(resp' & Heq & Hcount & Hsucc)|[msg Hmsg]];
    [|discriminate Hmsg].
  injection Heq as <-. split; assumption.
Defined.

(** The save of the first page fails, remote call and fallback: the crawl
    endpoint returns its response all the same, with one page saved out of
    the two crawled; when the update of the status fails, it raises. *)
Example crawl_page_not_saved :
  (∃ resp w',
     api.crawl_website_endpoint (example_env [] first_page_is_not_saved small_web)
       (λ _, []) small_request empty_world = (Return resp, w')
     ∧ api.success resp = true
     ∧ api.pages_crawled resp = 2%nat ∧ api.pages_saved resp = 1%nat)
  ∧ last (requests
            (api.crawl_website_endpoint (example_env [] fifth_fails small_web)
               (λ _, []) small_request empty_world).2)
    = Some (Update "knowledge_bases").
Proof. split; [eexists _, _|]; vm_compute; repeat split; reflexivity. Qed.

(** * Further properties of the sources *)

(** ** Frames: what a computation leaves alone *)

#[global] Instance same_tables_frame : Frame same_tables.
Proof.
  split.
  - by intros w.
  - intros w1 w2 w3 (? & ? & ?) (? & ? & ?). repeat split; congruence.
  - by intros w w' H _.
Qed.

#[global] Instance only_sent_frame (P : request → Prop) : Frame (only_sent P).
Proof.
  split.
  - intros w. exists []. by rewrite app_nil_r.
  - intros w1 w2 w3 (l1 & H1 & F1) (l2 & H2 & F2). exists (l1 ++ l2)%list.
    split; [by rewrite H2, H1, app_assoc|by apply Forall_app].
  - intros w w' _ H. exists []. by rewrite app_nil_r.
Qed.

#[global] Instance and_frame (R1 R2 : World → World → Prop) :
  Frame R1 → Frame R2 → Frame (λ w w', R1 w w' ∧ R2 w w').
Proof.
  intros F1 F2. split.
  - intros w. split; apply frame_refl.
  - intros w1 w2 w3 [? ?] [? ?]. split; eapply frame_trans; eauto.
  - intros w w' ? ?. split; by apply frame_quiet.
Qed.

#[global] Instance reads_engine_frame : Frame reads_engine.
Proof. unfold reads_engine. apply _. Qed.

Section Keeps.
Context (E : Env) (R : World → World → Prop) `{!Frame R}.

Lemma keeps_ret {A : Type} (a : A) : keeps R (mret a).
Proof. intros w o w' [= _ <-]. apply frame_refl. Qed.

Lemma keeps_raise {A : Type} (e : exn) : keeps R (@raise A e).
Proof. intros w o w' [= _ <-]. apply frame_refl. Qed.

Lemma keeps_bind {A B : Type} (m : M A) (f : A → M B) :
  keeps R m → (∀ a, keeps R (f a)) → keeps R (m ≫= f).
Proof.
  intros Hm Hf w o w' H. unfold mbind, M_bind in H.
  destruct (m w) as [[a|e] w1] eqn:Hrun.
  - eapply frame_trans; [by eapply Hm|by eapply Hf].
  - injection H as _ <-. by eapply Hm.
Qed.

Lemma keeps_try {A : Type} (body : M A) (handler : exn → M A) :
  keeps R body → (∀ e, keeps R (handler e)) → keeps R (try_except body handler).
Proof.
  intros Hm Hh w o w' H. unfold try_except in H.
  destruct (body w) as [[a|e] w1] eqn:Hrun.
  - injection H as _ <-. by eapply Hm.
  - eapply frame_trans; [by eapply Hm|by eapply Hh].
Qed.

Lemma keeps_print (line : string) : keeps R (print line).
Proof. intros w o w' [= _ <-]. by apply frame_quiet. Qed.

Lemma keeps_new_uuid : keeps R (new_uuid E).
Proof. intros w o w' [= _ <-]. by apply frame_quiet. Qed.

Lemma keeps_random_choice {A : Type} (seq : list A) : keeps R (random_choice E seq).
Proof.
  intros w o w' H. unfold random_choice in H.
  destruct (seq !! _); injection H as _ <-; [by apply frame_quiet|apply frame_refl].
Qed.

Lemma keeps_get_supabase_client : keeps R (supabase_client.get_supabase_client E).
Proof.
  intros w o w' H. apply get_client_inv in H as [-> _]. apply frame_refl.
Qed.

(** A request is kept when sending it is, and so is its effect. *)
Lemma keeps_execute {A : Type} (r : request) (effect : World → A * World) :
  (∀ w, R w (sent r w)) →
  (∀ w, R w (effect w).2) →
  keeps R (execute E r effect).
Proof.
  intros Hsent Heffect w o w' H.
  apply execute_inv in H as [(msg & _ & _ & ->)|(_ & _ & ->)]; [apply Hsent|].
  eapply frame_trans; [apply Hsent|apply Heffect].
Qed.

End Keeps.

(** The steps that every frame respects. *)
Ltac keeps_step :=
  first
    [ apply keeps_ret; apply _
    | apply keeps_raise; apply _
    | apply keeps_print; apply _
    | apply keeps_new_uuid; apply _
    | apply keeps_random_choice; apply _
    | apply keeps_get_supabase_client; apply _
    | apply keeps_try; [apply _| |intros ?]
    | apply keeps_bind; [apply _| |intros ?] ].

Lemma keeps_run {A : Type} (R : World → World → Prop) (m : M A) (w : World) :
  keeps R m → R w (m w).2.
Proof. intros H. destruct (m w) as [o w'] eqn:Hrun. by eapply H. Qed.

Lemma sent_only (P : request → Prop) (r : request) (w : World) :
  P r → only_sent P w (sent r w).
Proof. intros HP. exists [r]. split; [done|by constructor]. Qed.

(** ** The query functions, for every request and every world *)

Lemma keeps_engine_call {A : Type} (E : Env) (answer : World → A) :
  keeps reads_engine (execute E (Rpc "find_best_answer") (λ w, (answer w, w))).
Proof.
  apply keeps_execute; [apply _| |].
  - intros w. split; [done|by apply sent_only].
  - intros w. simpl. apply frame_refl.
Qed.

(** X1. Neither query function writes: for every request and every world,
    whatever the outcome, the three tables are as before, and every request
    sent to the store is the remote call of the matching engine. *)
Theorem query_functions_only_read
    (E : Env) (request : api.QueryRequest) (agent query : string) (w : World) :
  reads_engine w (api.query_rag E request w).2
  ∧ reads_engine w (rag_backend.query_rag E agent query w).2.
Proof.
  split; apply keeps_run.
  - unfold api.query_rag, api.query_rag_try, api.query_rag_except, api.fallback.
    repeat first [keeps_step | apply keeps_engine_call | case_match].
  - unfold rag_backend.query_rag, rag_backend.query_rag_try, rag_backend.query_rag_except, rag_backend.query_rag_try, rag_backend.query_rag_except.
    repeat first [keeps_step | apply keeps_engine_call | case_match].
Qed.

Lemma agent_id_rejected_blank (request : api.QueryRequest) :
  negb (Py.truthy_str (api.agent_id request))
  || String.eqb (Py.strip (api.agent_id request)) "" = true →
  blank (api.agent_id request).
Proof.
  intros [H|H]%orb_true_iff.
  - destruct (api.agent_id request) eqn:Ha; [|done].
    unfold blank. rewrite ?Ha. constructor.
  - apply String.eqb_eq in H. by apply strip_empty_blank.
Qed.

Lemma fallback_inv (E : Env) (matched : option string) (sim : float)
    (w w' : World) (o : outcome api.QueryResponse) :
  api.fallback E matched sim w = (o, w') →
  ∃ t, t ∈ api.FALLBACK_RESPONSES
       ∧ o = Return {| api.text := t; api.question_matched := matched;
                       api.similarity := sim; api.found := false;
                       api.threshold_met := false |}.
Proof.
  intros H. destruct (fallback_run E matched sim w) as (t & w1 & Hrun & Hin & _).
  rewrite Hrun in H. injection H as <- _. by exists t.
Qed.

Lemma find_best_answer_inv (E : Env) (client : supabase_client.Client)
    (agent query : string) (w w' : World) (o : outcome (option Row)) :
  supabase_client.find_best_answer E client agent query w = (o, w') →
  (∃ msg, fault E (length (requests w)) = Some msg ∧ o = Raise (Exception msg))
  ∨ (fault E (length (requests w)) = None
     ∧ o = Return (head (sql_find_best_answer E (knowledge_bases w)
                           (document_chunks w) query agent))).
Proof.
  unfold supabase_client.find_best_answer. intros H.
  bind_inv H as Hrpc;
    apply execute_inv in Hrpc as [(msg & Hfault & [=] & _)|(Hfault & [=] & ->)];
    subst; simpl in H.
  - right. split; [done|].
    destruct (sql_find_best_answer _ _ _ _ _); by injection H as <- _.
  - left. exists msg. by injection H as <- _.
Qed.

(** The text that the row has to offer, in the words of the decision table:
    its spoken_response, or its content when spoken_response is empty. *)
Lemma or_text (row : Row) (t : string) :
  Py.or_ (get (row_spoken_response row)) (get_default (row_content row) "") = Some t →
  Py.truthy_str t = true →
  row_spoken_response row = Value t
  ∨ (empty_text (row_spoken_response row) ∧ row_content row = Value t).
Proof.
  unfold Py.or_. intros Hor Ht.
  destruct (row_spoken_response row) as [| |sp] eqn:Hsp; simpl in Hor.
  - right. split; [by left|].
    destruct (row_content row); simpl in Hor; simplify_eq; done.
  - right. split; [by right; left|].
    destruct (row_content row); simpl in Hor; simplify_eq; done.
  - destruct (Py.truthy_str sp) eqn:Hsptr; [left; by injection Hor as ->|].
    destruct sp; [|done]. right. split; [by right; right|].
    destruct (row_content row); simpl in Hor; simplify_eq; done.
Qed.

(** X2. Every response of the query endpoint is a match or a fallback. A
    response with found = true has threshold_met = true, a score that
    passes the threshold and a non-empty text, which is the spoken_response
    of the first row of the matching engine, or its content when the
    spoken_response is empty; every other response has found = false,
    threshold_met = false and one of the fixed fallback texts. *)
Theorem query_rag_response_sound
    (E : Env) (request : api.QueryRequest) (w w' : World)
    (resp : api.QueryResponse) :
  api.query_rag E request w = (Return resp, w') →
  (api.found resp = true ∧ api.threshold_met resp = true
   ∧ PrimFloat.leb api.SIMILARITY_THRESHOLD (api.similarity resp) = true
   ∧ api.text resp ≠ ""
   ∧ ∃ row rest,
       engine_rows E request w = row :: rest
       ∧ api.question_matched resp = get (row_question row)
       ∧ (row_spoken_response row = Value (api.text resp)
          ∨ (empty_text (row_spoken_response row)
             ∧ row_content row = Value (api.text resp))))
  ∨ (api.found resp = false ∧ api.threshold_met resp = false
     ∧ api.text resp ∈ api.FALLBACK_RESPONSES).
Proof.
  unfold api.query_rag, api.query_rag_try, api.query_rag_except. intros H.
  destruct (negb _ || _); [done|].
  unfold try_except in H.
  match type of H with
  | context [match ?m w with _ => _ end] => destruct (m w) as [[r|e] w1] eqn:Hbody
  end; [|done].
  injection H as -> ->.
  bind_inv Hbody as Hclient; [|done].
  apply get_client_inv in Hclient as [-> _].
  bind_inv Hbody as Hfind; [|done].
  apply find_best_answer_inv in Hfind as [(msg & _ & [=])|(_ & [= ->])].
  fold (engine_rows E request w) in Hbody.
  destruct (engine_rows E request w) as [|row rest] eqn:Hrows; simpl in Hbody.
  { apply fallback_inv in Hbody as (t & Ht & [= ->]). right. by repeat split. }
  destruct (truthy_row row);
    [|apply fallback_inv in Hbody as (t & Ht & [= ->]); right; by repeat split].
  destruct (PrimFloat.leb _ _) eqn:Hleb;
    [|apply fallback_inv in Hbody as (t & Ht & [= ->]); right; by repeat split].
  destruct (Py.or_ _ _) as [t|] eqn:Hor;
    [|apply fallback_inv in Hbody as (t & Ht & [= ->]); right; by repeat split].
  destruct (Py.truthy_str t) eqn:Htruthy;
    [|apply fallback_inv in Hbody as (t' & Ht & [= ->]); right; by repeat split].
  injection Hbody as <- _. left. simpl.
  repeat split; [done|by destruct t|].
  exists row, rest. repeat split. by apply or_text.
Qed.

Lemma query_rag_response_sound_witness :
  let E := example_env [hours_row 0.5%float] working no_web in
  ∃ resp w',
    api.query_rag E hours_request empty_world = (Return resp, w')
    ∧ api.found resp = true ∧ api.threshold_met resp = true
    ∧ api.text resp ≠ "".
Proof.
  intros E.
  eassert (api.query_rag E hours_request empty_world = (Return _, _)) as Hrun
    by (vm_compute; reflexivity).
  eexists _, _. split; [exact Hrun|].
  destruct (query_rag_response_sound E hours_request empty_world _ _ Hrun)
    as [(Hfound & Hmet & _ & Htext & _)|(Hfound & _)];
    [by repeat split|discriminate Hfound].
Defined.

(** The try block of the query endpoint, the entries being of the types of
    their columns, raises in three ways only. *)
Lemma query_rag_try_raises
    (E : Env) (request : api.QueryRequest) (w w1 : World) (e : exn) :
  api.query_rag_try E request w = (Raise e, w1) →
  ∃ msg, query_fails E w msg ∧ e = Exception msg.
Proof.
  unfold api.query_rag_try. intros Hbody.
  bind_inv Hbody as Hclient.
  - apply get_client_inv in Hclient as [-> [(c & _ & Hconf)|[[[=] _]|(? & [=] & _)]]].
    bind_inv Hbody as Hfind.
    + apply find_best_answer_inv in Hfind as [(msg & _ & [=])|(_ & [= ->])].
      repeat case_match;
        solve [done | by apply fallback_inv in Hbody as (? & _ & [=])].
    + apply find_best_answer_inv in Hfind as [(msg & Hfault & [= ->])|(_ & [=])].
      injection Hbody as <- _. exists msg. split; [|done].
      by apply fails_request.
  - injection Hbody as <- _.
    apply get_client_inv in Hclient
      as [-> [(c & [=] & _)|[[[= ->] Hvars]|(msg & [= ->] & Hvars & Hcreate)]]].
    + eexists. split; [by apply fails_unconfigured|done].
    + exists msg. split; [by apply fails_create_client|done].
Qed.

(** X3. The query endpoint raises nothing but its two HTTP errors: the
    client error for an agent_id that is empty or white space, in which
    case the world is untouched, and otherwise the server error, which it
    raises only when its try block has raised: the detail is the message of
    that exception, str(e), and the line with the agent id and the message
    has been printed. The except clause does so for whatever stands in the
    try block. *)
Theorem query_rag_raises_only_http_errors
    (E : Env) (request : api.QueryRequest) (w : World) :
  (∀ e w',
     api.query_rag E request w = (Raise e, w') →
     (blank (api.agent_id request)
      ∧ e = HTTPException 400 "agent_id is required for agent isolation"
      ∧ w' = w)
     ∨ (¬ blank (api.agent_id request)
        ∧ ∃ e0 w1,
            api.query_rag_try E request w = (Raise e0, w1)
            ∧ e = HTTPException 500 (str_exn e0)
            ∧ same_tables w1 w' ∧ requests w' = requests w1
            ∧ stdout w' = (stdout w1 ++ ["[RAG] Error querying for agent "
                                         +:+ api.agent_id request +:+ ": "
                                         +:+ str_exn e0])%list))
  ∧ (∀ (try_block : M api.QueryResponse) e w',
       try_except try_block (api.query_rag_except request) w = (Raise e, w') →
       ∃ e0 w1,
         try_block w = (Raise e0, w1)
         ∧ e = HTTPException 500 (str_exn e0)
         ∧ same_tables w1 w' ∧ requests w' = requests w1
         ∧ stdout w' = (stdout w1 ++ ["[RAG] Error querying for agent "
                                      +:+ api.agent_id request +:+ ": "
                                      +:+ str_exn e0])%list).
Proof.
  assert (∀ (try_block : M api.QueryResponse) e w',
            try_except try_block (api.query_rag_except request) w = (Raise e, w') →
            ∃ e0 w1,
              try_block w = (Raise e0, w1)
              ∧ e = HTTPException 500 (str_exn e0)
              ∧ same_tables w1 w' ∧ requests w' = requests w1
              ∧ stdout w' = (stdout w1 ++ ["[RAG] Error querying for agent "
                                           +:+ api.agent_id request +:+ ": "
                                           +:+ str_exn e0])%list) as Hexcept.
  { intros try_block e w' H. unfold try_except in H.
    destruct (try_block w) as [[r|e0] w1] eqn:Hbody; [done|].
    unfold api.query_rag_except, mbind, M_bind, print, raise in H.
    injection H as <- <-. by exists e0, w1. }
  split; [|exact Hexcept].
  intros e w' H. unfold api.query_rag in H.
  destruct (negb _ || _) eqn:Hagent.
  { injection H as <- <-. left. split; [by apply agent_id_rejected_blank|done]. }
  right. split.
  { intros Hblank. apply strip_blank in Hblank. rewrite Hblank in Hagent.
    by rewrite orb_true_r in Hagent. }
  by apply Hexcept.
Qed.

Lemma query_rag_raises_only_http_errors_witness :
  let E := example_env [hours_row 0.5%float] third_fails no_web in
  (∃ e w',
     api.query_rag E blank_request two_agents = (Raise e, w')
     ∧ e = HTTPException 400 "agent_id is required for agent isolation"
     ∧ w' = two_agents)
  ∧ (∃ e w',
       api.query_rag rejecting_env hours_request two_agents = (Raise e, w')
       ∧ e = HTTPException 500 "Invalid URL"
       ∧ same_tables two_agents w').
Proof.
  intros E. split.
  - eassert (api.query_rag E blank_request two_agents = (Raise _, _)) as Hrun
      by (vm_compute; reflexivity).
    eexists _, _. split; [exact Hrun|].
    destruct (query_rag_raises_only_http_errors E blank_request two_agents)
      as [Hraise _].
    destruct (Hraise _ _ Hrun) as [(_ & He & Hw)|(Hblank & _)]; [by split|].
    exfalso. apply Hblank. by repeat constructor.
  - eassert (api.query_rag rejecting_env hours_request two_agents = (Raise _, _))
      as Hrun by (vm_compute; reflexivity).
    eexists _, _. split; [exact Hrun|].
    destruct (query_rag_raises_only_http_errors rejecting_env hours_request
                two_agents) as [Hraise _].
    destruct (Hraise _ _ Hrun)
      as [(Hblank & _)|(_ & e0 & w1 & Htry & He & Htables & _)].
    + exfalso. by apply agent_1_not_blank.
    + split; [reflexivity|].
      assert (api.query_rag_try rejecting_env hours_request two_agents
              = (Raise (Exception "Invalid URL"), two_agents)) as Hrejected
        by reflexivity.
      rewrite Hrejected in Htry. injection Htry as <- <-. exact Htables.
Defined.

Lemma truthy_get_value (c : cell string) :
  Py.truthy (get c) = true → ∃ s, c = Value s ∧ s ≠ "".
Proof. destruct c as [| |s]; try done. exists s. by destruct s. Qed.

Lemma falsy_get_empty (c : cell string) :
  Py.truthy (get c) = false → empty_text c.
Proof.
  destruct c as [| |s]; [by left|by right; left|].
  destruct s; [|done]. by right; right.
Qed.

(** X4. [rag_backend.query_rag] never raises: for every input and every
    world it returns a result. A result with found = true carries no error
    and a non-empty text, which is the spoken_response of the first row of
    the matching engine, or its content when the spoken_response is empty;
    a result with found = false names no question and has the score 0,
    also when the engine returned a row. *)
Theorem rag_backend_query_rag_always_returns
    (E : Env) (agent query : string) (w : World) :
  ∃ r w',
    rag_backend.query_rag E agent query w = (Return r, w')
    ∧ (rag_backend.found r = true →
       rag_backend.error r = None ∧ rag_backend.text r ≠ ""
       ∧ ∃ row rest,
           sql_find_best_answer E (knowledge_bases w) (document_chunks w) query agent
           = row :: rest
           ∧ rag_backend.question_matched r = get (row_question row)
           ∧ (row_spoken_response row = Value (rag_backend.text r)
              ∨ (empty_text (row_spoken_response row)
                 ∧ row_content row = Value (rag_backend.text r))))
    ∧ (rag_backend.found r = false →
       rag_backend.question_matched r = None
       ∧ rag_backend.similarity r = Some 0%float).
Proof.
  unfold rag_backend.query_rag, rag_backend.query_rag_try, rag_backend.query_rag_except, try_except.
  match goal with
  | |- context [match ?m w with _ => _ end] => destruct (m w) as [[r|e] w1] eqn:Hbody
  end.
  2:{ eexists _, _. split; [reflexivity|]. simpl. by split. }
  exists r, w1. split; [done|].
  bind_inv Hbody as Hclient; [|done].
  bind_inv Hbody as Hfind; [|done].
  apply get_client_inv in Hclient as [-> _].
  apply find_best_answer_inv in Hfind as [(msg & _ & [=])|(_ & [= ->])].
  destruct (sql_find_best_answer _ _ _ _ _) as [|row rest] eqn:Hrows; simpl in Hbody.
  { injection Hbody as <- _. by split. }
  destruct (truthy_row row && Py.truthy (get (row_spoken_response row))) eqn:Hsp.
  { injection Hbody as <- _. split; [|done]. intros _. simpl.
    apply andb_true_iff in Hsp as [_ (s & Hs & Hne)%truthy_get_value].
    rewrite Hs. simpl. split; [done|]. split; [done|].
    exists row, rest. repeat split. by left. }
  destruct (truthy_row row && Py.truthy (get (row_content row))) eqn:Hct.
  { injection Hbody as <- _. split; [|done]. intros _. simpl.
    apply andb_true_iff in Hct as [Hrow (s & Hs & Hne)%truthy_get_value].
    rewrite Hrow in Hsp. simpl in Hsp. apply falsy_get_empty in Hsp.
    rewrite Hs. simpl. split; [done|]. split; [done|].
    exists row, rest. repeat split. by right. }
  injection Hbody as <- _. by split.
Qed.

(** ** The store operations, one after the other *)

#[global] Instance same_knowledge_bases_frame : Frame same_knowledge_bases.
Proof.
  split; unfold same_knowledge_bases.
  - done.
  - intros w1 w2 w3 ? ?. congruence.
  - by intros w w' (? & _) _.
Qed.

#[global] Instance same_document_chunks_frame : Frame same_document_chunks.
Proof.
  split; unfold same_document_chunks.
  - done.
  - intros w1 w2 w3 ? ?. congruence.
  - by intros w w' (_ & ? & _) _.
Qed.

#[global] Instance same_website_data_frame : Frame same_website_data.
Proof.
  split; unfold same_website_data.
  - done.
  - intros w1 w2 w3 ? ?. congruence.
  - by intros w w' (_ & _ & ?) _.
Qed.

#[global] Instance only_new_knowledge_bases_frame : Frame only_new_knowledge_bases.
Proof.
  split; unfold only_new_knowledge_bases.
  - intros w. exists []. by rewrite app_nil_r.
  - intros w1 w2 w3 (l1 & H1 & F1) (l2 & H2 & F2). exists (l1 ++ l2)%list.
    split; [by rewrite H2, H1, app_assoc|by apply Forall_app].
  - intros w w' (H & _) _. exists []. by rewrite app_nil_r.
Qed.

#[global] Instance only_new_chunks_frame : Frame only_new_chunks.
Proof.
  split; unfold only_new_chunks.
  - intros w. exists []. by rewrite app_nil_r.
  - intros w1 w2 w3 (l1 & H1) (l2 & H2). exists (l1 ++ l2)%list.
    by rewrite H2, H1, app_assoc.
  - intros w w' (_ & H & _) _. exists []. by rewrite app_nil_r.
Qed.

(** A request whose sending and whose effect both respect the relation. *)
Ltac keeps_request :=
  apply keeps_execute; [apply _|intros ?; try done|intros ?; simpl; try done].

Lemma keeps_get_or_create (E : Env) (R : World → World → Prop) `{!Frame R}
    (c : supabase_client.Client) (agent source : string) :
  (∀ r w, R w (sent r w)) →
  (∀ kb w, kb_status kb = "processing" →
           R w (with_knowledge_bases (knowledge_bases w ++ [kb]) w)) →
  keeps R (supabase_client.get_or_create_knowledge_base E c agent source).
Proof.
  intros Hsent Hnew. unfold supabase_client.get_or_create_knowledge_base.
  keeps_step.
  - apply keeps_execute; [apply _|apply Hsent|intros w; apply frame_refl].
  - case_match; [repeat keeps_step|keeps_step].
    apply keeps_execute; [apply _|apply Hsent|intros w; by apply Hnew].
Qed.

Lemma keeps_save_curated_qa (E : Env) (R : World → World → Prop) `{!Frame R}
    (c : supabase_client.Client) (kb q sp : string) (kw : list string)
    (src : option string) (p : Z) :
  (∀ r w, R w (sent r w)) →
  (∀ row w, R w (with_document_chunks (document_chunks w ++ [row]) w)) →
  keeps R (supabase_client.save_curated_qa E c kb q sp kw src p).
Proof.
  intros Hsent Hnew. unfold supabase_client.save_curated_qa.
  keeps_step; [keeps_step|].
  apply keeps_execute; [apply _|apply Hsent|intros w; apply Hnew].
Qed.

Lemma keeps_api_save_each (E : Env) (R : World → World → Prop) `{!Frame R}
    (c : supabase_client.Client) (kb : string) (qa_pairs : list api.QAPair)
    (count : nat) :
  (∀ r w, R w (sent r w)) →
  (∀ row w, R w (with_document_chunks (document_chunks w ++ [row]) w)) →
  keeps R (api.save_each E c kb qa_pairs count).
Proof.
  intros Hsent Hnew. revert count.
  induction qa_pairs as [|qa rest IH]; intros count; simpl; [keeps_step|].
  keeps_step; [by apply keeps_save_curated_qa|apply IH].
Qed.

(** After [get_or_create_knowledge_base] has returned, the first knowledge
    base of the agent is the one whose id it returned. *)
Lemma get_or_create_first
    (E : Env) (client : supabase_client.Client) (agent source : string)
    (w w' : World) (id : string) :
  supabase_client.get_or_create_knowledge_base E client agent source w = (Return id, w') →
  ∃ kb rest,
    filter (λ kb, kb_agent_id kb = agent) (knowledge_bases w') = kb :: rest
    ∧ kb_id kb = id.
Proof.
  unfold supabase_client.get_or_create_knowledge_base. intros H.
  bind_inv H as Hselect; [|done].
  apply execute_inv in Hselect as [(msg & _ & [=] & _)|(_ & [= ->] & ->)].
  simpl in H. destruct (filter _ _) as [|kb found] eqn:Hfound.
  - bind_inv H as Hid; [|done]. injection Hid as <- <-.
    bind_inv H as Hinsert; [|done]. injection H as <- <-.
    apply execute_inv in Hinsert as [(msg & _ & [=] & _)|(_ & _ & ->)]. simpl.
    rewrite filter_app, Hfound. simpl. rewrite filter_cons_True by done.
    by eexists _, _.
  - injection H as <- <-. simpl. by exists kb, found.
Qed.

(** X5. [get_or_create_knowledge_base] is idempotent: once it has returned
    an id for an agent, the next call for that agent, whatever source it
    names, returns the same id when the store answers, and does so with one
    select and without writing. *)
Theorem get_or_create_knowledge_base_again
    (E : Env) (client : supabase_client.Client) (agent source source' : string)
    (w w1 : World) (id : string) :
  supabase_client.get_or_create_knowledge_base E client agent source w = (Return id, w1) →
  fault E (length (requests w1)) = None →
  supabase_client.get_or_create_knowledge_base E client agent source' w1
  = (Return id, sent (Select "knowledge_bases") w1).
Proof.
  intros (kb & rest & Hfirst & Hid)%get_or_create_first Hfault.
  unfold supabase_client.get_or_create_knowledge_base, mbind, M_bind, execute.
  rewrite Hfault. simpl. rewrite Hfirst. by rewrite Hid.
Qed.

Lemma get_or_create_knowledge_base_again_witness :
  let E := example_env [] working no_web in
  ∃ id w1,
    supabase_client.get_or_create_knowledge_base E example_client
      "agent-1" "https://example.com/" empty_world = (Return id, w1)
    ∧ supabase_client.get_or_create_knowledge_base E example_client
        "agent-1" "curated" w1
      = (Return id, sent (Select "knowledge_bases") w1).
Proof.
  intros E.
  eassert (supabase_client.get_or_create_knowledge_base E example_client
             "agent-1" "https://example.com/" empty_world = (Return _, _)) as Hrun
    by (vm_compute; reflexivity).
  eexists _, _. split; [exact Hrun|].
  apply (get_or_create_knowledge_base_again E example_client
           "agent-1" "https://example.com/" "curated" empty_world _ _ Hrun).
  reflexivity.
Defined.

Lemma api_save_each_chunks
    (E : Env) (client : supabase_client.Client) (kb : string)
    (qa_pairs : list api.QAPair) (count n : nat) (w w' : World) :
  api.save_each E client kb qa_pairs count w = (Return n, w') →
  ∃ new, document_chunks w' = (document_chunks w ++ new)%list
         ∧ chunk_fields <$> new = pair_fields kb <$> qa_pairs.
Proof.
  revert count w. induction qa_pairs as [|qa rest IH]; intros count w H; simpl in H.
  - injection H as _ <-. exists []. by rewrite app_nil_r.
  - bind_inv H as Hsave; [|done].
    unfold supabase_client.save_curated_qa in Hsave.
    bind_inv Hsave as Hid; [|done]. injection Hid as <- <-.
    apply execute_inv in Hsave as [(msg & _ & [=] & _)|(_ & _ & ->)].
    apply IH in H as (new & -> & Hnew). simpl.
    eexists (_ :: new). split; [by rewrite <- app_assoc|].
    rewrite fmap_cons, Hnew. done.
Qed.

(** X6. When [save_qa_pairs] succeeds, the entries of the store are those of
    before followed by one entry per pair of the batch, in the order of the
    batch: each under the knowledge base that the response names, with the
    question, spoken_response, keywords and priority of its pair, its
    content equal to the spoken_response, and marked curated. *)
Theorem save_qa_pairs_stores_the_batch
    (E : Env) (request : api.SaveQARequest) (w w' : World) (r : api.SaveQAResult) :
  api.save_qa_pairs E request w = (Return r, w') →
  ∃ new,
    document_chunks w' = (document_chunks w ++ new)%list
    ∧ chunk_fields <$> new
      = pair_fields (api.saved_kb_id r) <$> api.sq_qa_pairs request.
Proof.
  unfold api.save_qa_pairs, try_except. intros H.
  match type of H with
  | context [match ?m w with _ => _ end] => destruct (m w) as [[r'|e] w1] eqn:Hbody
  end; [|done].
  injection H as -> ->.
  bind_inv Hbody as Hclient; [|done].
  apply (keeps_get_supabase_client E same_document_chunks) in Hclient.
  bind_inv Hbody as Hkb; [|done].
  apply (keeps_get_or_create E same_document_chunks) in Hkb; [|done..].
  bind_inv Hbody as Hloop; [|done].
  apply api_save_each_chunks in Hloop as (new & Hchunks & Hnew).
  bind_inv Hbody as Hupdate; [|done].
  assert (same_document_chunks w2 w3) as Hsame.
  { unfold supabase_client.update_kb_status in Hupdate.
    eapply (keeps_execute E same_document_chunks); [| |exact Hupdate]; by intros. }
  bind_inv Hbody as Hprint; [|done]. injection Hprint as _ <-.
  injection Hbody as <- <-. simpl. exists new. split; [|done].
  unfold same_document_chunks in *. simpl. congruence.
Qed.

Lemma save_qa_pairs_stores_the_batch_witness :
  let E := example_env [] working no_web in
  ∃ r w' new,
    api.save_qa_pairs E hours_batch two_agents = (Return r, w')
    ∧ document_chunks w' = (document_chunks two_agents ++ new)%list
    ∧ chunk_fields <$> new = [pair_fields (api.saved_kb_id r) hours_qa].
Proof.
  intros E.
  eassert (api.save_qa_pairs E hours_batch two_agents = (Return _, _)) as Hrun
    by (vm_compute; reflexivity).
  destruct (save_qa_pairs_stores_the_batch E hours_batch two_agents _ _ Hrun)
    as (new & Hchunks & Hfields).
  eexists _, _, new. by split.
Defined.

Lemma execute_answers {A : Type} (E : Env) (r : request)
    (effect : World → A * World) (w : World) :
  fault E (length (requests w)) = None →
  execute E r effect w = (Return (effect (sent r w)).1, (effect (sent r w)).2).
Proof.
  intros Hfault. unfold execute. rewrite Hfault. by destruct (effect (sent r w)).
Qed.

(** The loop of [save_qa_pairs] as long as the store answers: after [k]
    answered requests the first [k] pairs are in the store and the loop
    goes on with the others. *)
Lemma api_save_each_prefix
    (E : Env) (client : supabase_client.Client) (kb : string) (k : nat)
    (qa_pairs : list api.QAPair) (count : nat) (w : World) :
  (k ≤ length qa_pairs)%nat →
  (∀ i, (i < k)%nat → fault E (length (requests w) + i) = None) →
  ∃ wk new,
    api.save_each E client kb qa_pairs count w
    = api.save_each E client kb (drop k qa_pairs) (count + k) wk
    ∧ document_chunks wk = (document_chunks w ++ new)%list
    ∧ chunk_fields <$> new = pair_fields kb <$> take k qa_pairs
    ∧ knowledge_bases wk = knowledge_bases w
    ∧ length (requests wk) = (length (requests w) + k)%nat.
Proof.
  revert qa_pairs count w. induction k as [|k IH]; intros qa_pairs count w Hk Hfault.
  { exists w, []. rewrite drop_0, take_0, Nat.add_0_r, app_nil_r, Nat.add_0_r.
    done. }
  destruct qa_pairs as [|qa rest]; [simpl in Hk; lia|].
  simpl api.save_each. unfold mbind at 1, M_bind at 1.
  unfold supabase_client.save_curated_qa, mbind at 1, M_bind at 1, new_uuid.
  rewrite execute_answers
    by (simpl; rewrite <-(Nat.add_0_r (length (requests w))); apply Hfault; lia).
  cbv beta iota zeta. simpl fst. simpl snd.
  match goal with
  | |- context [api.save_each E client kb rest (S count) ?w2] =>
      destruct (IH rest (S count) w2) as (wk & new & Hrun & Hchunks & Hnew & Hkbs & Hlog)
  end.
  { simpl in Hk. lia. }
  { intros i Hi. simpl. rewrite length_app. simpl.
    replace (length (requests w) + 1 + i)%nat
      with (length (requests w) + S i)%nat by lia.
    apply Hfault. lia. }
  simpl in Hchunks, Hkbs, Hlog. rewrite length_app in Hlog. simpl in Hlog.
  eexists wk, (_ :: new). split.
  { rewrite Hrun. simpl. f_equal. lia. }
  split; [by rewrite Hchunks, <-app_assoc|].
  split; [by rewrite fmap_cons, Hnew|].
  split; [done|lia].
Qed.

(** X7. When [save_qa_pairs] fails, it does so with the server error, and the
    batch is not undone: no knowledge base has changed (one may have been
    created, 'processing', and none has been marked 'ready' by the request),
    and the entries saved before the failure are still in the store after
    those of before. When, after the knowledge base has been found or
    made, [k] requests are answered and the next one raises, the endpoint
    raises the server error with the message of that request, and the
    store holds the entries of before followed by those of the first [k]
    pairs, and no others. *)
Theorem save_qa_pairs_failure_is_not_undone
    (E : Env) (request : api.SaveQARequest) (w : World) :
  (∀ e w',
     api.save_qa_pairs E request w = (Raise e, w') →
     (∃ msg, e = HTTPException 500 msg)
     ∧ only_new_knowledge_bases w w'
     ∧ only_new_chunks w w')
  ∧ (∀ client kb w1 k msg,
       supabase_client.get_supabase_client E w = (Return client, w) →
       supabase_client.get_or_create_knowledge_base E client
         (api.sq_agent_id request) "curated" w = (Return kb, w1) →
       (k ≤ length (api.sq_qa_pairs request))%nat →
       (∀ i, (i < k)%nat → fault E (length (requests w1) + i) = None) →
       fault E (length (requests w1) + k) = Some msg →
       ∃ w' new,
         api.save_qa_pairs E request w = (Raise (HTTPException 500 msg), w')
         ∧ document_chunks w' = (document_chunks w ++ new)%list
         ∧ chunk_fields <$> new = pair_fields kb <$> take k (api.sq_qa_pairs request)
         ∧ knowledge_bases w' = knowledge_bases w1).
Proof.
  split.
  - intros e w'. unfold api.save_qa_pairs, try_except. intros H.
    match type of H with
    | context [match ?m w with _ => _ end] => destruct (m w) as [[r'|e0] w1] eqn:Hbody
    end; [done|].
    unfold mbind, M_bind, print, raise in H. injection H as <- <-.
    split; [by eexists|].
    set (R := λ w w', only_new_knowledge_bases w w' ∧ only_new_chunks w w').
    assert (∀ r w, R w (sent r w)) as Hsent.
    { intros r w0. split; exists []; by rewrite app_nil_r. }
    assert (∀ row w, R w (with_document_chunks (document_chunks w ++ [row]) w)) as Hrow.
    { intros row w0. split; [exists []; by rewrite app_nil_r|by exists [row]]. }
    assert (∀ kb w, kb_status kb = "processing" →
                    R w (with_knowledge_bases (knowledge_bases w ++ [kb]) w)) as Hkbnew.
    { intros kb w0 Hkb. split; [exists [kb]; by repeat constructor|].
      exists []. by rewrite app_nil_r. }
    assert (R w w1) as [? ?]; [|done].
    bind_inv Hbody as Hclient.
    2:{ injection Hbody as _ <-.
        by apply (keeps_get_supabase_client E R) in Hclient. }
    apply (keeps_get_supabase_client E R) in Hclient.
    bind_inv Hbody as Hkb.
    2:{ injection Hbody as _ <-. eapply frame_trans; [done|].
        by apply (keeps_get_or_create E R) in Hkb. }
    apply (keeps_get_or_create E R) in Hkb; [|done..].
    bind_inv Hbody as Hloop.
    2:{ injection Hbody as _ <-. eapply frame_trans; [done|].
        eapply frame_trans; [done|].
        by apply (keeps_api_save_each E R) in Hloop. }
    apply (keeps_api_save_each E R) in Hloop; [|done..].
    bind_inv Hbody as Hupdate; [done|].
    injection Hbody as _ <-.
    apply execute_inv in Hupdate as [(msg & _ & _ & ->)|(_ & [=] & _)].
    eapply frame_trans; [done|]. eapply frame_trans; [done|].
    eapply frame_trans; [done|]. apply Hsent.
  - intros client kb w1 k msg Hclient Hkb Hk Hanswered Hfault.
    assert (document_chunks w1 = document_chunks w) as Hbefore.
    { apply (keeps_get_or_create E same_document_chunks) in Hkb; [done|done..]. }
    destruct (api_save_each_prefix E client kb k (api.sq_qa_pairs request) 0 w1
                Hk Hanswered) as (wk & new & Hrun & Hchunks & Hnew & Hkbs & Hlog).
    rewrite <-Hlog in Hfault.
    unfold api.save_qa_pairs, try_except.
    unfold mbind at 1, M_bind at 1. rewrite Hclient.
    unfold mbind at 1, M_bind at 1. rewrite Hkb.
    unfold mbind at 1, M_bind at 1. rewrite Hrun.
    destruct (drop k (api.sq_qa_pairs request)) as [|qa rest] eqn:Hdrop.
    + simpl api.save_each. unfold mret at 1, M_ret at 1.
      unfold mbind at 1, M_bind at 1, supabase_client.update_kb_status, execute.
      rewrite Hfault. unfold mbind, M_bind, print, raise. simpl.
      eexists _, new. split; [reflexivity|]. simpl.
      by rewrite Hchunks, Hbefore.
    + simpl api.save_each. unfold mbind at 1, M_bind at 1.
      unfold supabase_client.save_curated_qa, mbind at 1, M_bind at 1, new_uuid.
      unfold execute. simpl requests. rewrite Hfault.
      unfold mbind, M_bind, print, raise. simpl.
      eexists _, new. split; [reflexivity|]. simpl.
      by rewrite Hchunks, Hbefore.
Qed.

Lemma save_qa_pairs_failure_is_not_undone_witness :
  let E := example_env [] third_fails no_web in
  ∃ w' new,
    api.save_qa_pairs E hours_twice two_agents
    = (Raise (HTTPException 500 "insert failed"), w')
    ∧ document_chunks w' = (document_chunks two_agents ++ new)%list
    ∧ chunk_fields <$> new = [pair_fields "kb-a" hours_qa].
Proof.
  intros E.
  destruct (save_qa_pairs_failure_is_not_undone E hours_twice two_agents)
    as [_ Hprefix].
  destruct (Hprefix example_client "kb-a" (sent (Select "knowledge_bases") two_agents)
              1%nat "insert failed")
    as (w' & new & Hrun & Hchunks & Hnew & _).
  - reflexivity.
  - reflexivity.
  - simpl. lia.
  - intros [|i] Hi; [reflexivity|lia].
  - reflexivity.
  - exists w', new. split; [exact Hrun|]. by split.
Defined.

(** With a store that answers, the loop of [save_qa_to_supabase] saves the
    pairs that have both keys, and counts them. *)
Lemma crawler_save_each_working
    (E : Env) (client : supabase_client.Client) (kb : string)
    (qa_pairs : list crawler.QADict) (count : nat) (w : World) :
  (∀ n, fault E n = None) →
  ∃ w' new,
    crawler.save_each E client kb qa_pairs count w
    = (Return (count + length (omap (dict_fields kb) qa_pairs))%nat, w')
    ∧ document_chunks w' = (document_chunks w ++ new)%list
    ∧ chunk_fields <$> new = omap (dict_fields kb) qa_pairs.
Proof.
  intros Hfault. revert count w.
  induction qa_pairs as [|qa rest IH]; intros count w; simpl.
  - exists w, []. rewrite app_nil_r, Nat.add_0_r. done.
  - unfold mbind at 1, M_bind at 1, try_except, crawler.subscript.
    destruct (crawler.qa_question qa) as [q|] eqn:Hq; simpl.
    2:{ assert (dict_fields kb qa = None) as -> by (unfold dict_fields; by rewrite Hq).
        unfold mbind, M_bind, print. simpl.
        match goal with
        | |- context [crawler.save_each E client kb rest count ?w1] =>
            destruct (IH count w1) as (w' & new & Hrun & Hchunks & Hnew)
        end.
        exists w', new. by rewrite Hrun. }
    destruct (crawler.qa_spoken_response qa) as [sp|] eqn:Hsp; simpl.
    2:{ assert (dict_fields kb qa = None) as ->
          by (unfold dict_fields; by rewrite Hq, Hsp).
        unfold mbind, M_bind, print. simpl.
        match goal with
        | |- context [crawler.save_each E client kb rest count ?w1] =>
            destruct (IH count w1) as (w' & new & Hrun & Hchunks & Hnew)
        end.
        exists w', new. by rewrite Hrun. }
    assert (dict_fields kb qa
            = Some (kb, Some q, Some sp, Some sp,
                    default [] (crawler.qa_keywords qa),
                    default 5%Z (crawler.qa_priority qa), true)) as ->
      by (unfold dict_fields; by rewrite Hq, Hsp).
    unfold supabase_client.save_curated_qa, mbind, M_bind, new_uuid, mret, M_ret.
    cbv beta iota zeta.
    rewrite execute_answers by apply Hfault. simpl.
    match goal with
    | |- context [crawler.save_each E client kb rest (S count) ?w1] =>
        destruct (IH (S count) w1) as (w' & new & Hrun & Hchunks & Hnew)
    end.
    eexists w', (_ :: new). rewrite Hrun. simpl in Hchunks.
    split; [f_equal; f_equal; apply Nat.add_succ_comm|].
    split; [by rewrite Hchunks, <- app_assoc|].
    rewrite fmap_cons, Hnew. done.
Qed.

(** X8. With a store that answers, [save_qa_to_supabase] skips the pairs
    that lack the 'question' or the 'spoken_response' key and saves the
    others: it returns how many pairs have both keys, and the store holds
    the entries of before followed by one entry for each of them, in order,
    with no keywords and priority 5 where the pair names none. *)
Theorem save_qa_to_supabase_saves_well_formed_pairs
    (E : Env) (agent : string) (qa_pairs : list crawler.QADict) (w : World) :
  configured E →
  (∀ n, fault E n = None) →
  ∃ kb w' new,
    crawler.save_qa_to_supabase E agent qa_pairs w
    = (Return (length (omap (dict_fields kb) qa_pairs)), w')
    ∧ document_chunks w' = (document_chunks w ++ new)%list
    ∧ chunk_fields <$> new = omap (dict_fields kb) qa_pairs.
Proof.
  intros Hconf Hfault. unfold crawler.save_qa_to_supabase.
  destruct (get_client_configured E w Hconf) as [client Hclient].
  unfold mbind at 1, M_bind at 1. rewrite Hclient.
  destruct (returns_get_or_create E Hfault client agent "curated" w)
    as (kb & w1 & Hkb).
  unfold mbind at 1, M_bind at 1. rewrite Hkb.
  apply (keeps_get_or_create E same_document_chunks) in Hkb; [|done..].
  destruct (crawler_save_each_working E client kb qa_pairs 0 w1 Hfault)
    as (w2 & new & Hloop & Hchunks & Hnew).
  unfold mbind at 1, M_bind at 1. rewrite Hloop.
  unfold supabase_client.update_kb_status, mbind, M_bind.
  rewrite execute_answers by apply Hfault. simpl.
  eexists kb, _, new. split; [reflexivity|]. simpl.
  split; [|done]. rewrite Hchunks. unfold same_document_chunks in Hkb. by rewrite Hkb.
Qed.

Lemma save_qa_to_supabase_saves_well_formed_pairs_witness :
  let E := example_env [] working no_web in
  let qa_pairs := [pair_without_question; hours_pair] in
  ∃ kb w' new,
    crawler.save_qa_to_supabase E "agent-1" qa_pairs two_agents
    = (Return (length (omap (dict_fields kb) qa_pairs)), w')
    ∧ document_chunks w' = (document_chunks two_agents ++ new)%list
    ∧ chunk_fields <$> new = omap (dict_fields kb) qa_pairs.
Proof.
  intros E qa_pairs.
  apply (save_qa_to_supabase_saves_well_formed_pairs E "agent-1" qa_pairs two_agents).
  - apply example_env_configured.
  - reflexivity.
Defined.

(** X9. Saving an entry and deleting it by the id that the save returned
    gives back the entries of before, provided no entry had that id. *)
Theorem save_then_delete_restores_chunks
    (E : Env) (client : supabase_client.Client) (kb q sp : string)
    (kw : list string) (src : option string) (p : Z)
    (w w1 : World) (saved : Chunk) :
  supabase_client.save_curated_qa E client kb q sp kw src p w = (Return saved, w1) →
  Forall (λ c, chunk_id c ≠ chunk_id saved) (document_chunks w) →
  fault E (length (requests w1)) = None →
  ∃ w2,
    supabase_client.delete_qa_pair E client (chunk_id saved) w1 = (Return true, w2)
    ∧ document_chunks w2 = document_chunks w
    ∧ chunk_question saved = Some q
    ∧ chunk_spoken_response saved = Some sp.
Proof.
  unfold supabase_client.save_curated_qa. intros H Hfresh Hfault.
  bind_inv H as Hid; [|done]. injection Hid as <- <-.
  apply execute_inv in H as [(msg & _ & [=] & _)|(_ & [= ->] & ->)].
  simpl in *.
  unfold supabase_client.delete_qa_pair, mbind, M_bind.
  rewrite execute_answers by done. simpl.
  eexists. split; [reflexivity|]. simpl. split; [|by split].
  rewrite filter_app, filter_cons_False by (simpl; naive_solver).
  rewrite filter_nil, app_nil_r.
  induction Hfresh as [|c cs Hc _ IH]; [done|].
  rewrite filter_cons_True by done. by rewrite IH.
Qed.

Lemma save_then_delete_restores_chunks_witness :
  let E := example_env [] working no_web in
  ∃ saved w1 w2,
    supabase_client.save_curated_qa E example_client "kb-a"
      "Where are you?" "On Main Street." ["location"] None 5 two_agents
    = (Return saved, w1)
    ∧ supabase_client.delete_qa_pair E example_client (chunk_id saved) w1
      = (Return true, w2)
    ∧ document_chunks w2 = document_chunks two_agents.
Proof.
  intros E.
  eassert (supabase_client.save_curated_qa E example_client "kb-a"
             "Where are you?" "On Main Street." ["location"] None 5 two_agents
           = (Return _, _)) as Hrun
    by (vm_compute; reflexivity).
  destruct (save_then_delete_restores_chunks E example_client "kb-a"
              "Where are you?" "On Main Street." ["location"] None 5
              two_agents _ _ Hrun) as (w2 & Hdelete & Hchunks & _).
  - repeat constructor. discriminate.
  - reflexivity.
  - eexists _, _, w2. by split.
Defined.

Lemma filter_all {A : Type} (P : A → Prop) `{!∀ x, Decision (P x)} (l : list A) :
  Forall P l → filter P l = l.
Proof.
  induction 1 as [|x l Hx _ IH]; [done|].
  rewrite filter_cons_True by done. by rewrite IH.
Qed.

(** X10. The two delete endpoints do not look whether the id exists: for an
    id that no row has, with a store that answers, each reports success and
    leaves its table as it was. *)
Theorem delete_of_unknown_id_succeeds
    (E : Env) (agent id : string) (w : World) :
  configured E →
  fault E (length (requests w)) = None →
  (Forall (λ c, chunk_id c ≠ id) (document_chunks w) →
   ∃ w', api.delete_qa_pair E agent id w
         = (Return {| api.deleted_success := true; api.deleted_id := id |}, w')
         ∧ same_tables w w')
  ∧ (Forall (λ d, wd_id d ≠ id) (website_data w) →
     ∃ w', api.delete_agent_website_data E agent id w
           = (Return {| api.deleted_success := true; api.deleted_id := id |}, w')
           ∧ same_tables w w').
Proof.
  intros Hconf Hfault.
  destruct (get_client_configured E w Hconf) as [client Hclient].
  split; intros Hnone.
  - unfold api.delete_qa_pair, try_except, mbind at 1, M_bind at 1.
    rewrite Hclient. unfold mbind, M_bind. rewrite execute_answers by done.
    eexists. split; [reflexivity|]. repeat split; simpl. by apply filter_all.
  - unfold api.delete_agent_website_data, try_except, mbind at 1, M_bind at 1.
    rewrite Hclient. unfold supabase_client.delete_website_data, mbind, M_bind.
    rewrite execute_answers by done.
    eexists. split; [reflexivity|]. repeat split; simpl. by apply filter_all.
Qed.

Lemma delete_of_unknown_id_succeeds_witness :
  let E := example_env [] working no_web in
  (∃ w', api.delete_qa_pair E "agent-a" "qa-9" two_agents
         = (Return {| api.deleted_success := true; api.deleted_id := "qa-9" |}, w')
         ∧ same_tables two_agents w')
  ∧ (∃ w', api.delete_agent_website_data E "agent-a" "page-9" one_page
           = (Return {| api.deleted_success := true; api.deleted_id := "page-9" |}, w')
           ∧ same_tables one_page w').
Proof.
  intros E. split.
  - apply (delete_of_unknown_id_succeeds E "agent-a" "qa-9" two_agents).
    + apply example_env_configured.
    + reflexivity.
    + repeat constructor. discriminate.
  - apply (delete_of_unknown_id_succeeds E "agent-a" "page-9" one_page).
    + apply example_env_configured.
    + reflexivity.
    + repeat constructor. discriminate.
Defined.

(** X11. The delete endpoint of the crawled pages never reads its agent_id
    either: it does the same for every agent_id, and with a store that
    answers it deletes the rows whose id is data_id, whichever agent they
    belong to, and touches no other table. *)
Theorem delete_agent_website_data_ignores_agent_id
    (E : Env) (agent data_id : string) (w : World) :
  (∀ other_agent,
     api.delete_agent_website_data E other_agent data_id w
     = api.delete_agent_website_data E agent data_id w)
  ∧ (configured E →
     fault E (length (requests w)) = None →
     api.delete_agent_website_data E agent data_id w
     = (Return {| api.deleted_success := true; api.deleted_id := data_id |},
        with_website_data
          (filter (λ d, wd_id d ≠ data_id) (website_data w))
          (sent (Delete "website_data") w))).
Proof.
  split; [done|]. intros Hconf Hfault.
  destruct (get_client_configured E w Hconf) as [client Hclient].
  unfold api.delete_agent_website_data, try_except, mbind at 1, M_bind at 1.
  rewrite Hclient. unfold supabase_client.delete_website_data, mbind, M_bind.
  by rewrite execute_answers.
Qed.

Lemma delete_agent_website_data_ignores_agent_id_witness :
  let E := example_env [] working no_web in
  api.delete_agent_website_data E "agent-2" "page-1" one_page
  = api.delete_agent_website_data E "agent-1" "page-1" one_page
  ∧ website_data (api.delete_agent_website_data E "agent-2" "page-1" one_page).2
    = [].
Proof.
  intros E.
  destruct (delete_agent_website_data_ignores_agent_id E "agent-2" "page-1" one_page)
    as [Hsame Hrun].
  split; [symmetry; apply Hsame|].
  rewrite Hrun; [reflexivity|apply example_env_configured|reflexivity].
Defined.

(** ** Crawling into the store *)

Lemma keeps_save_website_data (E : Env) (R : World → World → Prop) `{!Frame R}
    (c : supabase_client.Client) (a u t ct : string) (hs ls : list string)
    (md : string * list (string * list string) * nat) :
  (∀ r w, R w (sent r w)) →
  (∀ ds w, R w (with_website_data ds w)) →
  keeps R (supabase_client.save_website_data E c a u t ct hs ls md).
Proof.
  intros Hsent Hdata. unfold supabase_client.save_website_data.
  destruct md as [[kb contacts] n].
  keeps_step.
  - apply keeps_execute; [apply _|apply Hsent|]. intros w.
    unfold supabase_client.upsert_website_data.
    case_match; simpl; [|apply Hdata].
    eapply frame_trans; [|apply Hdata]. by apply frame_quiet.
  - repeat keeps_step.
    + apply keeps_execute; [apply _|apply Hsent|intros ?; apply frame_refl].
    + case_match; repeat keeps_step;
        (apply keeps_execute; [apply _|apply Hsent|intros ?; apply Hdata]).
Qed.

Lemma store_pages_cons (E : Env) (c : supabase_client.Client) (a kb : string)
    (p : crawler.PageData) (ps : list crawler.PageData) (n : nat) :
  crawler.store_pages E c a kb (p :: ps) n
  = (try_except
       (supabase_client.save_website_data E c a (crawler.url p) (crawler.title p)
          (crawler.content p) (crawler.headings p) (crawler.links p)
          (kb, crawler.contacts p, length (crawler.lists p));;
        mret (S n))
       (λ e, print ("[Crawler] Error storing page " +:+ crawler.url p +:+ ": "
                    +:+ str_exn e);;
             mret n)
     ≫= crawler.store_pages E c a kb ps).
Proof. reflexivity. Qed.

Lemma keeps_store_pages (E : Env) (R : World → World → Prop) `{!Frame R}
    (c : supabase_client.Client) (a kb : string)
    (ps : list crawler.PageData) (n : nat) :
  (∀ r w, R w (sent r w)) →
  (∀ ds w, R w (with_website_data ds w)) →
  keeps R (crawler.store_pages E c a kb ps n).
Proof.
  intros Hsent Hdata. revert n. induction ps as [|p ps IH]; intros n;
    [simpl; keeps_step|].
  rewrite store_pages_cons.
  apply keeps_bind; [apply _| |apply IH].
  apply keeps_try; [apply _| |intros e; repeat keeps_step].
  apply keeps_bind; [apply _| |intros ?; keeps_step].
  by apply keeps_save_website_data.
Qed.

(** The loop over the pages never raises: a page that cannot be stored is
    passed over. *)
Lemma store_pages_count (E : Env) (c : supabase_client.Client) (a kb : string)
    (ps : list crawler.PageData) (n : nat) (w w' : World) (o : outcome nat) :
  crawler.store_pages E c a kb ps n w = (o, w') →
  ∃ stored, o = Return stored ∧ (n ≤ stored ≤ n + length ps)%nat.
Proof.
  revert n w. induction ps as [|p ps IH]; intros n w H.
  - injection H as <- _. exists n. split; [done|simpl; lia].
  - rewrite store_pages_cons in H.
    unfold mbind at 1, M_bind at 1, try_except, mbind at 1, M_bind at 1 in H.
    destruct (supabase_client.save_website_data E c a _ _ _ _ _ _ w)
      as [[id|e] w1]; simpl in H;
      apply IH in H as (stored & -> & Hstored);
      exists stored; (split; [done|simpl; lia]).
Qed.

(** What [crawl_and_store] returns, and what it leaves in the store. *)
Lemma crawl_and_store_inv
    (E : Env) (x : crawler.PageData → list crawler.Suggestion) (a u : string) (m : Z)
    (w w' : World) (kb : string) (crawled saved : nat) (sg : list crawler.Suggestion) :
  crawler.crawl_and_store E x a u m w = (Return (kb, crawled, saved, sg), w') →
  crawled = length (crawler.crawl_website E u m)
  ∧ (saved ≤ crawled)%nat
  ∧ sg = concat (x <$> crawler.crawl_website E u m)
  ∧ ∃ row, row ∈ knowledge_bases w' ∧ kb_id row = kb
           ∧ kb_agent_id row = a ∧ kb_status row = "crawled".
Proof.
  unfold crawler.crawl_and_store. intros H.
  bind_inv H as Hprint; [|done]. injection Hprint as _ <-.
  bind_inv H as Hclient; [|done]. clear Hclient.
  bind_inv H as Hkb; [|done].
  apply get_or_create_knowledge_base_spec in Hkb as (row & Hin & Hid & Hagent).
  bind_inv H as Hprint; [|done]. injection Hprint as _ <-.
  bind_inv H as Hprint; [|done]. injection Hprint as _ <-.
  bind_inv H as Hstore; [|done].
  pose proof (store_pages_count _ _ _ _ _ _ _ _ _ Hstore) as (stored & [= ->] & Hle).
  apply (keeps_store_pages E same_knowledge_bases) in Hstore; [|done..].
  bind_inv H as Hprint; [|done]. injection Hprint as _ <-.
  bind_inv H as Hprint; [|done]. injection Hprint as _ <-.
  bind_inv H as Hupdate; [|done].
  match type of Hupdate with _ = (Return ?u, _) => destruct u end.
  injection H as <- <- <- <- <-.
  split; [done|]. split; [simpl in Hle; lia|]. split; [done|].
  unfold same_knowledge_bases in Hstore. simpl in Hstore.
  eapply (update_kb_status_spec _ _ _ _ _ _ row) in Hupdate
    as (row' & ? & ? & ? & ?); [| |done].
  - exists row'. repeat split; try done. congruence.
  - simpl. by rewrite Hstore.
Qed.

Lemma suggest_cons (q k : string) (ts : list (string * string))
    (p : crawler.PageData) :
  crawler.suggest ((q, k) :: ts) p
  = if Py.search_words k (Py.lower (crawler.content p)) then
      match crawler.relevant_sentences k (crawler.sentences (crawler.content p)) with
      | [] => crawler.suggest ts p
      | relevant =>
          {| crawler.sg_question := q;
             crawler.sg_source_content := Py.join ". " (take 3 relevant);
             crawler.sg_keywords := Py.split_on (Ascii.eqb "|") k |}
          :: crawler.suggest ts p
      end
    else crawler.suggest ts p.
Proof. reflexivity. Qed.

Lemma suggest_length (templates : list (string * string)) (p : crawler.PageData) :
  (length (crawler.suggest templates p) ≤ length templates)%nat.
Proof.
  induction templates as [|[q k] ts IH]; [simpl; lia|].
  rewrite suggest_cons, length_cons.
  destruct (Py.search_words _ _); [|lia].
  destruct (crawler.relevant_sentences _ _); rewrite ?length_cons; lia.
Qed.

Lemma concat_length_bound {A B : Type} (f : A → list B) (n : nat) (l : list A) :
  (∀ a, length (f a) ≤ n)%nat → (length (concat (f <$> l)) ≤ n * length l)%nat.
Proof.
  intros Hf. induction l as [|a l IH]; csimpl; [lia|].
  rewrite length_app. specialize (Hf a). lia.
Qed.

(** X12. Every response of the crawl endpoint, with the suggestions of
    [extract_qa_suggestions], counts at most as many pages saved as pages
    crawled and carries at most six suggestions per page crawled. When it is
    returned, the knowledge base of the agent is marked 'crawled', whatever
    its status was and also when no page was crawled; the response names
    that knowledge base when it reports success and the empty id when it
    reports failure. *)
Theorem crawl_endpoint_response_counts_and_status
    (E : Env) (request : api.CrawlRequest) (w w' : World) (resp : api.CrawlResponse) :
  api.crawl_website_endpoint E crawler.extract_qa_suggestions request w
  = (Return resp, w') →
  (api.pages_saved resp ≤ api.pages_crawled resp)%nat
  ∧ (length (api.qa_suggestions resp) ≤ 6 * api.pages_crawled resp)%nat
  ∧ ∃ row, row ∈ knowledge_bases w'
           ∧ kb_agent_id row = api.cr_agent_id request
           ∧ kb_status row = "crawled"
           ∧ api.kb_id resp = (if api.success resp then kb_id row else "").
Proof.
  unfold api.crawl_website_endpoint, try_except. intros H.
  match type of H with
  | context [match ?m w with _ => _ end] => destruct (m w) as [[r|e] w1] eqn:Hbody
  end; [|done].
  injection H as -> ->.
  bind_inv Hbody as Hprint; [|done]. injection Hprint as _ <-.
  bind_inv Hbody as Hcrawl; [|done].
  destruct a0 as [[[kb crawled] saved] sg].
  apply crawl_and_store_inv in Hcrawl as (-> & Hsaved & -> & row & Hin & Hid & Hagent & Hst).
  pose proof (concat_length_bound crawler.extract_qa_suggestions 6
                (crawler.crawl_website E (api.cr_url request) (api.cr_max_pages request))
                (suggest_length crawler.question_templates)) as Hsg.
  destruct (length (crawler.crawl_website E _ _) =? 0)%nat eqn:Hzero;
    injection Hbody as <- <-; simpl.
  - split; [lia|]. split; [lia|]. by exists row.
  - split; [done|]. split; [lia|]. by exists row.
Qed.

Lemma crawl_endpoint_response_counts_and_status_witness :
  let E := example_env [] working small_web in
  ∃ resp w',
    api.crawl_website_endpoint E crawler.extract_qa_suggestions
      small_request empty_world = (Return resp, w')
    ∧ (api.pages_saved resp ≤ api.pages_crawled resp)%nat
    ∧ (length (api.qa_suggestions resp) ≤ 6 * api.pages_crawled resp)%nat
    ∧ ∃ row, row ∈ knowledge_bases w'
             ∧ kb_agent_id row = "agent-1"
             ∧ kb_status row = "crawled"
             ∧ api.kb_id resp = (if api.success resp then kb_id row else "").
Proof.
  intros E.
  eassert (api.crawl_website_endpoint E crawler.extract_qa_suggestions
             small_request empty_world = (Return _, _)) as Hrun
    by (vm_compute; reflexivity).
  eexists _, _. split; [exact Hrun|].
  exact (crawl_endpoint_response_counts_and_status E small_request empty_world
           _ _ Hrun).
Defined.

(** ** The fallback of [save_website_data] *)

Lemma head_filter_some {A : Type} (Q P : A → Prop) `{!∀ x, Decision (Q x)}
    (l : list A) :
  (∃ x, x ∈ l ∧ Q x) →
  Forall (λ x, Q x → P x) l →
  ∃ d, head (filter Q l) = Some d ∧ Q d ∧ P d.
Proof.
  intros (x & Hx & HQ) Hall.
  assert (x ∈ filter Q l) as Hin by (by apply list_elem_of_filter).
  destruct (filter Q l) as [|d ds] eqn:Hf; [by apply elem_of_nil in Hin|].
  exists d. split; [done|].
  assert (d ∈ filter Q l) as [HQd Hd]%list_elem_of_filter by (rewrite Hf; left).
  split; [done|]. rewrite Forall_forall in Hall. by apply Hall.
Qed.

(** X13. When the remote upsert is not available and the store answers the
    direct requests, [save_website_data] prints the failure and upserts by
    hand: it overwrites the row that the agent has for the address, or adds
    one when there is none, so the table grows by one row at most and only
    for a new address. The row with the id it returns holds the agent, the
    address, the title and the content given and is 'pending', and that is
    the row which [get_website_data_by_id] then finds (no row may already
    carry the next id of the supply). *)
Theorem save_website_data_fallback_upserts
    (E : Env) (client : supabase_client.Client)
    (agent url title content : string) (headings links : list string)
    (metadata : string * list (string * list string) * nat)
    (w : World) (msg : string) :
  fault E (length (requests w)) = Some msg →
  (∀ n, (length (requests w) < n)%nat → fault E n = None) →
  Forall (λ d, wd_id d ≠ uuid4 E (uuids_drawn w)) (website_data w) →
  ∃ id w',
    supabase_client.save_website_data E client agent url title content
      headings links metadata w = (Return id, w')
    ∧ length (website_data w')
      = (length (website_data w)
         + match filter (supabase_client.same_page agent url) (website_data w) with
           | [] => 1
           | _ :: _ => 0
           end)%nat
    ∧ stdout w' = (stdout w ++ ["[DB] RPC not available, using direct insert: "
                                +:+ msg])%list
    ∧ ∃ d w'',
        supabase_client.get_website_data_by_id E client id w'
        = (Return (Some d), w'')
        ∧ wd_id d = id ∧ page_row agent url title content d.
Proof.
  intros Hrpc Hrest Hfresh. destruct metadata as [[kb contacts] n].
  unfold supabase_client.save_website_data, try_except, execute at 1.
  rewrite Hrpc. unfold mbind at 1, M_bind at 1, print.
  unfold mbind at 1, M_bind at 1.
  rewrite execute_answers
    by (apply Hrest; simpl; rewrite length_app; simpl; lia).
  simpl.
  destruct (filter (supabase_client.same_page agent url) (website_data w))
    as [|old olds] eqn:Hexisting.
  - unfold mbind, M_bind, new_uuid. simpl.
    rewrite execute_answers
      by (apply Hrest; simpl; rewrite !length_app; simpl; lia).
    eexists _, _. split; [reflexivity|]. simpl.
    split; [rewrite length_app; simpl; lia|]. split; [done|].
    unfold supabase_client.get_website_data_by_id, mbind, M_bind.
    rewrite execute_answers
      by (apply Hrest; simpl; rewrite !length_app; simpl; lia).
    simpl.
    destruct (head_filter_some (λ d, wd_id d = uuid4 E (uuids_drawn w))
                (page_row agent url title content)
                (website_data w ++
                   [{| wd_id := uuid4 E (uuids_drawn w); wd_agent_id := agent;
                       wd_url := url; wd_page_title := title;
                       wd_content := content; wd_headings := headings;
                       wd_links := links; wd_kb_id := kb;
                       wd_contacts := contacts; wd_lists_count := n;
                       wd_status := "pending" |}]))
      as (d & Hhead & Hid & Hrow).
    + eexists. split; [|shelve].
      apply elem_of_app. right. by apply list_elem_of_singleton.
      Unshelve. done.
    + apply Forall_app. split.
      * eapply Forall_impl; [exact Hfresh|]. by intros d Hne Heq.
      * by repeat constructor.
    + eexists d, _. rewrite Hhead. by split.
  - unfold mbind, M_bind. simpl.
    rewrite execute_answers
      by (apply Hrest; simpl; rewrite !length_app; simpl; lia).
    eexists _, _. split; [reflexivity|]. simpl.
    split; [rewrite length_fmap; lia|]. split; [done|].
    unfold supabase_client.get_website_data_by_id, mbind, M_bind.
    rewrite execute_answers
      by (apply Hrest; simpl; rewrite !length_app; simpl; lia).
    simpl.
    assert (old ∈ website_data w) as Hold.
    { assert (old ∈ filter (supabase_client.same_page agent url) (website_data w))
        as [_ ?]%list_elem_of_filter by (rewrite Hexisting; left). done. }
    match goal with
    | |- context [filter _ (?f <$> website_data w)] =>
        destruct (head_filter_some (λ d, wd_id d = wd_id old)
                    (page_row agent url title content)
                    (f <$> website_data w))
          as (d & Hhead & Hid & Hrow)
    end.
    + eexists. split.
      * apply list_elem_of_fmap. exists old. split; [|done].
        by rewrite decide_True.
      * done.
    + apply Forall_fmap, Forall_forall. intros d _. simpl.
      destruct (decide (wd_id d = wd_id old)); [by intros _|done].
    + eexists d, _. rewrite Hhead. by split.
Qed.

Lemma save_website_data_fallback_upserts_witness :
  let E := example_env [] first_fails no_web in
  ∃ id w',
    supabase_client.save_website_data E example_client "agent-1"
      "https://example.com/" "Home" "We are open every day." [] []
      ("kb-1", [], 0%nat) one_page = (Return id, w')
    ∧ length (website_data w') = 1%nat
    ∧ ∃ d w'',
        supabase_client.get_website_data_by_id E example_client id w'
        = (Return (Some d), w'')
        ∧ wd_id d = id
        ∧ page_row "agent-1" "https://example.com/" "Home"
            "We are open every day." d.
Proof.
  intros E.
  destruct (save_website_data_fallback_upserts E example_client "agent-1"
              "https://example.com/" "Home" "We are open every day." [] []
              ("kb-1", [], 0%nat) one_page
              "function upsert_website_data does not exist")
    as (id & w' & Hrun & Hlength & _ & Hlookup).
  - reflexivity.
  - intros [|n] Hn; [simpl in Hn; lia|reflexivity].
  - repeat constructor. discriminate.
  - exists id, w'. split; [exact Hrun|]. split; [exact Hlength|exact Hlookup].
Defined.

(** ** The queue of the crawl *)

Lemma substring_length_le (n : nat) (s : string) :
  (String.length (String.substring 0 n s) ≤ n)%nat.
Proof.
  revert s. induction n as [|n IH]; intros [|c s]; simpl; try lia.
  specialize (IH s). lia.
Qed.

Section CrawlQueue.
Context (E : Env).

Lemma collect_internal_links_spec (base : string) (anchors acc : list string) :
  NoDup acc →
  (∀ u, u ∈ acc → netloc E u = base ∧ Py.contains "#" u = false) →
  NoDup (crawler.collect_internal_links E base anchors acc)
  ∧ ∀ u, u ∈ crawler.collect_internal_links E base anchors acc →
         netloc E u = base ∧ Py.contains "#" u = false.
Proof.
  revert acc. induction anchors as [|a anchors IH]; intros acc Hnd Hacc; simpl;
    [done|].
  destruct (decide (netloc E a = base)) as [Hbase|]; [|by apply IH].
  destruct (bool_decide (a ∉ acc)) eqn:Hnew; simpl; [|by apply IH].
  destruct (Py.contains "#" a) eqn:Hfrag; simpl; [by apply IH|].
  apply bool_decide_eq_true in Hnew.
  apply IH.
  - apply NoDup_app. split; [done|]. split; [|apply NoDup_singleton].
    by intros v Hv ->%list_elem_of_singleton.
  - intros u [Hu| ->%list_elem_of_singleton]%elem_of_app; [by apply Hacc|done].
Qed.

Lemma extract_page_content_url (n : nat) (u : string) :
  crawler.url (crawler.extract_page_content E n u) = u.
Proof. unfold crawler.extract_page_content. by destruct (fetch E n u). Qed.

Lemma extract_page_content_links (n : nat) (u : string) :
  let p := crawler.extract_page_content E n u in
  crawler.links p = crawler.internal_links p
  ∧ NoDup (crawler.internal_links p)
  ∧ ∀ l, l ∈ crawler.internal_links p →
         netloc E l = netloc E u ∧ Py.contains "#" l = false.
Proof.
  unfold crawler.extract_page_content. destruct (fetch E n u) as [msg|d]; simpl.
  - split; [done|]. split; [constructor|]. by intros l ?%elem_of_nil.
  - destruct (collect_internal_links_spec (netloc E u) (doc_anchors d) [])
      as [Hnd Hall]; [constructor|by intros ? ?%elem_of_nil|].
    split; [done|]. split.
    + eapply sublist_NoDup; [done|apply sublist_take].
    + intros l Hl. apply Hall. by eapply subseteq_take.
Qed.

Lemma extract_page_content_bounds (n : nat) (u : string) :
  let p := crawler.extract_page_content E n u in
  (String.length (crawler.content p) ≤ 100 * 100)%nat
  ∧ (length (crawler.headings p) ≤ 20)%nat
  ∧ (length (crawler.lists p) ≤ 30)%nat
  ∧ (crawler.success p = true → crawler.error p = None).
Proof.
  unfold crawler.extract_page_content. destruct (fetch E n u) as [msg|d]; simpl.
  - repeat split; try lia; done.
  - rewrite !length_take. repeat split; try lia.
    apply substring_length_le.
Qed.

Lemma add_links_elem (v : gset string) (ls q : list string) (x : string) :
  x ∈ crawler.add_links v ls q → x ∈ q ∨ (x ∈ ls ∧ x ∉ v).
Proof.
  revert q. induction ls as [|l ls IH]; intros q; simpl; [by left|].
  destruct (bool_decide (l ∉ v)) eqn:Hv; simpl.
  - destruct (bool_decide (l ∉ q)) eqn:Hq.
    + intros [[Hx| ->%list_elem_of_singleton]%elem_of_app|[Hx Hn]]%IH.
      * by left.
      * right. split; [left|]. by apply bool_decide_eq_true in Hv.
      * right. split; [by right|done].
    + intros [Hx|[Hx Hn]]%IH; [by left|]. right. split; [by right|done].
  - intros [Hx|[Hx Hn]]%IH; [by left|]. right. split; [by right|done].
Qed.

Lemma add_links_NoDup (v : gset string) (ls q : list string) :
  NoDup q → NoDup (crawler.add_links v ls q).
Proof.
  revert q. induction ls as [|l ls IH]; intros q Hq; simpl; [done|].
  destruct (bool_decide (l ∉ v)); simpl; [|by apply IH].
  destruct (bool_decide (l ∉ q)) eqn:Hl; [|by apply IH].
  apply bool_decide_eq_true in Hl. apply IH.
  apply NoDup_app. split; [done|]. split; [|apply NoDup_singleton].
  by intros x Hx ->%list_elem_of_singleton.
Qed.

Lemma queue_inv_start (start_url : string) :
  queue_inv E start_url (crawler.crawl_start start_url).
Proof.
  split; simpl.
  - intros u ->%list_elem_of_singleton. split; [done|by left].
  - apply NoDup_singleton.
  - intros u _. set_solver.
  - lia.
Qed.

Lemma queue_inv_body (start_url : string) (st : crawler.CrawlState) :
  queue_inv E start_url st → queue_inv E start_url (crawler.loop_body E st).
Proof.
  unfold crawler.loop_body. intros [Hsite Hnd Hnew Hreq].
  destruct (crawler.to_visit st) as [|u rest] eqn:Hq; [by split; rewrite ?Hq|].
  destruct (bool_decide (u ∈ crawler.visited st)) eqn:Hu.
  { apply bool_decide_eq_true in Hu. exfalso. apply (Hnew u); [left|done]. }
  apply NoDup_cons in Hnd as [Hurest Hnd].
  assert (on_site E start_url u) as Hsiteu.
  { apply Hsite, elem_of_app. right. left. }
  assert (∀ x, x ∈ rest → x ∉ crawler.visited st ∪ {[u]}) as Hnew'.
  { intros x Hx [Hv| ->%elem_of_singleton]%elem_of_union; [|done].
    apply (Hnew x); [by right|done]. }
  destruct (crawler.success _) eqn:Hs; split; simpl.
  - intros x [[Hx| ->%list_elem_of_singleton]%elem_of_app|Hx]%elem_of_app.
    + apply Hsite, elem_of_app. by left.
    + done.
    + apply add_links_elem in Hx as [Hx|[Hx _]].
      * apply Hsite, elem_of_app. right. by right.
      * destruct (extract_page_content_links (length (crawler.fetched st)) u)
          as (_ & _ & Hall).
        destruct (Hall x Hx) as [Hhost Hfrag]. destruct Hsiteu as [Hhostu _].
        split; [congruence|by right].
  - by apply add_links_NoDup.
  - intros x [Hx|[_ Hx]]%add_links_elem; [by apply Hnew'|done].
  - pose proof (add_links_length (crawler.visited st ∪ {[u]})
                  (crawler.internal_links
                     (crawler.extract_page_content E (length (crawler.fetched st)) u))
                  rest).
    pose proof (internal_links_at_most_twenty E (length (crawler.fetched st)) u).
    rewrite !length_app. simpl in *. lia.
  - intros x [[Hx| ->%list_elem_of_singleton]%elem_of_app|Hx]%elem_of_app.
    + apply Hsite, elem_of_app. by left.
    + done.
    + apply Hsite, elem_of_app. right. by right.
  - done.
  - done.
  - rewrite !length_app. simpl in *. lia.
Qed.

Lemma queue_inv_loop
    (start_url : string) (max_pages : Z) (fuel : nat) (st : crawler.CrawlState) :
  queue_inv E start_url st →
  queue_inv E start_url (crawler.crawl_loop E fuel max_pages st).
Proof.
  revert st. induction fuel as [|fuel IH]; intros st Hinv; simpl; [done|].
  destruct (crawler.loop_test max_pages st); [|done].
  by apply IH, queue_inv_body.
Qed.

Lemma crawl_loop_pages_grow (max_pages : Z) (fuel : nat) (st : crawler.CrawlState) :
  ∃ more, crawler.pages (crawler.crawl_loop E fuel max_pages st)
          = (crawler.pages st ++ more)%list.
Proof.
  revert st. induction fuel as [|fuel IH]; intros st; simpl.
  { exists []. by rewrite app_nil_r. }
  destruct (crawler.loop_test max_pages st); [|exists []; by rewrite app_nil_r].
  destruct (IH (crawler.loop_body E st)) as [more ->].
  unfold crawler.loop_body. destruct (crawler.to_visit st) as [|u rest]; [by exists more|].
  destruct (bool_decide _); [by exists more|].
  destruct (crawler.success _); simpl; [|by exists more].
  rewrite <-app_assoc. by eexists.
Qed.

End CrawlQueue.

Lemma fmap_url_imap (f : nat → string → crawler.PageData) (l : list string) :
  (∀ i u, crawler.url (f i u) = u) → crawler.url <$> imap f l = l.
Proof.
  revert f. induction l as [|u l IH]; intros f Hf; csimpl; [done|].
  rewrite Hf. f_equal. apply IH. intros i v. apply Hf.
Qed.

Lemma crawl_run_invs (E : Env) (start_url : string) (max_pages : Z) :
  crawl_inv E max_pages (crawler.crawl_run E start_url max_pages)
  ∧ queue_inv E start_url (crawler.crawl_run E start_url max_pages).
Proof.
  split.
  - apply crawl_inv_loop, crawl_inv_start.
  - apply queue_inv_loop, queue_inv_start.
Qed.

Lemma crawl_run_unfold (E : Env) (start_url : string) (max_pages : Z) :
  crawler.crawl_run E start_url max_pages
  = if bool_decide (0 < max_pages)%Z
    then crawler.crawl_loop E (20 * Z.to_nat max_pages) max_pages
           (crawler.loop_body E (crawler.crawl_start start_url))
    else crawler.crawl_start start_url.
Proof. reflexivity. Qed.

Lemma loop_body_start (E : Env) (start_url : string) :
  crawler.loop_body E (crawler.crawl_start start_url)
  = let page_data := crawler.extract_page_content E 0 start_url in
    if crawler.success page_data then
      {| crawler.visited := ∅ ∪ {[start_url]};
         crawler.to_visit :=
           crawler.add_links (∅ ∪ {[start_url]})
             (crawler.internal_links page_data) [];
         crawler.pages := [page_data];
         crawler.fetched := [start_url] |}
    else
      {| crawler.visited := ∅ ∪ {[start_url]}; crawler.to_visit := [];
         crawler.pages := []; crawler.fetched := [start_url] |}.
Proof.
  unfold crawler.loop_body. simpl.
  by rewrite bool_decide_eq_false_2 by set_solver.
Qed.

(** X14. The crawl stays on the site of its seed: every address it
    requests has the network location of the seed and, unless it is the
    seed itself, no fragment. *)
Theorem crawl_requests_stay_on_site
    (E : Env) (start_url : string) (max_pages : Z) (u : string) :
  u ∈ crawler.fetched (crawler.crawl_run E start_url max_pages) →
  netloc E u = netloc E start_url
  ∧ (u = start_url ∨ Py.contains "#" u = false).
Proof.
  intros Hu. destruct (crawl_run_invs E start_url max_pages) as [_ [Hsite _ _ _]].
  apply Hsite, elem_of_app. by left.
Qed.

Lemma crawl_requests_stay_on_site_witness :
  let E := example_env [] working small_web in
  netloc E "https://example.com/b" = netloc E "https://example.com/"
  ∧ ("https://example.com/b" = "https://example.com/"
     ∨ Py.contains "#" "https://example.com/b" = false).
Proof.
  intros E.
  apply (crawl_requests_stay_on_site E "https://example.com/" 5).
  apply list_elem_of_In. vm_compute. right. right. left. reflexivity.
Defined.

(** X15. The crawl makes at most one request more than twenty for each page
    it keeps, so at most 1 + 20 * max_pages requests; with a cap of zero or
    less it makes no request at all. *)
Theorem crawl_request_bound (E : Env) (start_url : string) (max_pages : Z) :
  let st := crawler.crawl_run E start_url max_pages in
  (length (crawler.fetched st)
   ≤ 1 + 20 * length (crawler.crawl_website E start_url max_pages))%nat
  ∧ (length (crawler.fetched st) ≤ 1 + 20 * Z.to_nat max_pages)%nat
  ∧ ((max_pages ≤ 0)%Z → crawler.fetched st = []).
Proof.
  intros st.
  destruct (crawl_run_invs E start_url max_pages)
    as [[_ _ _ Hcap] [_ _ _ Hreq]].
  fold st in Hcap, Hreq. unfold crawler.crawl_website. fold st.
  split; [lia|]. split; [lia|].
  intros Hmax. unfold st. rewrite crawl_run_unfold.
  by rewrite bool_decide_eq_false_2 by lia.
Qed.

Lemma crawl_request_bound_witness :
  let E := example_env [] working small_web in
  crawler.fetched (crawler.crawl_run E "https://example.com/" 0) = [].
Proof.
  intros E.
  destruct (crawl_request_bound E "https://example.com/" 0) as (_ & _ & Hnone).
  apply Hnone. lia.
Defined.

(** X16. At every turn of the loop of [crawl_website] the queue holds
    distinct addresses, none of them visited: the address taken from the
    queue has never been visited before, and the branch that skips a visited
    address is never taken. *)
Theorem crawl_queue_holds_only_new_addresses
    (E : Env) (start_url : string) (max_pages : Z) (turns : nat) :
  let st := crawler.crawl_loop E turns max_pages (crawler.crawl_start start_url) in
  NoDup (crawler.to_visit st)
  ∧ (∀ u, u ∈ crawler.to_visit st → u ∉ crawler.visited st)
  ∧ (crawler.loop_test max_pages st = true →
     crawler.fetched (crawler.loop_body E st) ≠ crawler.fetched st).
Proof.
  intros st.
  destruct (queue_inv_loop E start_url max_pages turns _
              (queue_inv_start E start_url)) as [_ Hnd Hnew _].
  fold st in Hnd, Hnew. split; [done|]. split; [done|].
  unfold crawler.loop_test, crawler.loop_body.
  destruct (crawler.to_visit st) as [|u rest]; [done|]. intros _.
  rewrite bool_decide_eq_false_2 by (apply Hnew; left).
  assert (crawler.fetched st ++ [u] ≠ crawler.fetched st)%list as Hne.
  { intros Heq%(f_equal length). rewrite length_app in Heq. simpl in Heq. lia. }
  by destruct (crawler.success _).
Qed.

(** X17. Every record that [crawl_website] returns is the record of a
    request that succeeded, for an address on the seed's site; its links
    are at most twenty distinct addresses of that site without a fragment,
    its content has at most 10000 characters, and it has at most twenty
    headings and thirty list items. No two records have the same address. *)
Theorem crawl_website_records (E : Env) (start_url : string) (max_pages : Z) :
  Forall (page_record E start_url) (crawler.crawl_website E start_url max_pages)
  ∧ NoDup (crawler.url <$> crawler.crawl_website E start_url max_pages).
Proof.
  destruct (crawl_run_invs E start_url max_pages)
    as [[Hnodup _ Hpages _] [Hsite _ _ _]].
  unfold crawler.crawl_website. rewrite Hpages. split.
  - apply Forall_forall. intros p [Hs Hp]%list_elem_of_filter.
    apply elem_of_lookup_imap_1 in Hp as (i & u & -> & Hu).
    assert (on_site E start_url u) as Hon.
    { apply Hsite, elem_of_app. left. by eapply list_elem_of_lookup_2. }
    destruct (extract_page_content_links E i u) as (Hlinks & Hnd & Hall).
    destruct (extract_page_content_bounds E i u) as (Hc & Hh & Hl & Herr).
    unfold page_record. rewrite extract_page_content_url.
    split; [done|]. split; [by apply Herr|]. split; [done|].
    split; [done|]. split; [apply internal_links_at_most_twenty|].
    split; [done|]. split; [|done].
    intros l Hl'. destruct (Hall l Hl') as [Hhost Hfrag].
    destruct Hon as [Hhostu _]. split; [congruence|done].
  - eapply sublist_NoDup; [exact Hnodup|].
    rewrite <-(fmap_url_imap (crawler.extract_page_content E)
                 (crawler.fetched (crawler.crawl_run E start_url max_pages)))
      at 2 by apply extract_page_content_url.
    apply fmap_sublist, sublist_filter.
Qed.

(** X18. With a cap of one page or more the crawl starts with the seed:
    when the request for the seed fails, that is the only request and the
    crawl returns no page; when it succeeds, the seed's record is the first
    one returned. *)
Theorem crawl_starts_with_the_seed
    (E : Env) (start_url : string) (max_pages : Z) :
  (0 < max_pages)%Z →
  match fetch E 0 start_url with
  | inl _ =>
      crawler.crawl_website E start_url max_pages = []
      ∧ crawler.fetched (crawler.crawl_run E start_url max_pages) = [start_url]
  | inr _ =>
      ∃ more,
        crawler.crawl_website E start_url max_pages
        = crawler.extract_page_content E 0 start_url :: more
  end.
Proof.
  intros Hmax. unfold crawler.crawl_website.
  rewrite crawl_run_unfold, bool_decide_eq_true_2, loop_body_start by done.
  cbv zeta.
  assert (crawler.success (crawler.extract_page_content E 0 start_url)
          = match fetch E 0 start_url with inl _ => false | inr _ => true end)
    as Hsuccess.
  { unfold crawler.extract_page_content. by destruct (fetch E 0 start_url). }
  rewrite Hsuccess. destruct (fetch E 0 start_url) as [msg|d].
  - by destruct (20 * Z.to_nat max_pages)%nat.
  - match goal with
    | |- context [crawler.crawl_loop E ?fuel max_pages ?st] =>
        destruct (crawl_loop_pages_grow E max_pages fuel st) as [more Hmore]
    end.
    exists more. by rewrite Hmore.
Qed.

Lemma crawl_starts_with_the_seed_witness :
  let E := example_env [] working small_web in
  ∃ more,
    crawler.crawl_website E "https://example.com/" 5
    = crawler.extract_page_content E 0 "https://example.com/" :: more.
Proof.
  intros E.
  apply (crawl_starts_with_the_seed E "https://example.com/" 5). lia.
Defined.

(** ** Suggestions *)

Lemma string_length_append (a b : string) :
  String.length (a +:+ b) = (String.length a + String.length b)%nat.
Proof. induction a as [|c a IH]; simpl; [done|by rewrite IH]. Qed.

Lemma string_of_list_ascii_length (l : list ascii) :
  String.length (string_of_list_ascii l) = length l.
Proof. induction l as [|c l IH]; simpl; [done|by rewrite IH]. Qed.

Lemma list_ascii_of_string_length (s : string) :
  length (list_ascii_of_string s) = String.length s.
Proof. induction s as [|c s IH]; simpl; [done|by rewrite IH]. Qed.

Lemma lstrip_length (l : list ascii) : (length (Py.lstrip l) ≤ length l)%nat.
Proof.
  induction l as [|c l IH]; simpl; [done|]. destruct (Py.isspace c); simpl; lia.
Qed.

Lemma strip_length (s : string) :
  (String.length (Py.strip s) ≤ String.length s)%nat.
Proof.
  unfold Py.strip, Py.rstrip.
  rewrite string_of_list_ascii_length, length_rev.
  etrans; [apply lstrip_length|]. rewrite length_rev.
  etrans; [apply lstrip_length|]. by rewrite list_ascii_of_string_length.
Qed.

Lemma split_on_length (sep : ascii → bool) (s : string) :
  Forall (λ piece, String.length piece ≤ String.length s)%nat (Py.split_on sep s).
Proof.
  induction s as [|c s IH]; simpl; [by apply Forall_singleton|].
  destruct (sep c).
  - constructor; [simpl; lia|]. eapply Forall_impl; [exact IH|]. simpl. lia.
  - destruct (Py.split_on sep s) as [|piece pieces].
    + apply Forall_singleton. simpl. lia.
    + apply Forall_cons in IH as [Hpiece Hpieces]. constructor; [simpl; lia|].
      eapply Forall_impl; [exact Hpieces|]. simpl. lia.
Qed.

Lemma join_length_head (sep piece : string) (pieces : list string) :
  (String.length piece ≤ String.length (Py.join sep (piece :: pieces)))%nat.
Proof.
  destruct pieces as [|piece' pieces]; simpl; [done|].
  rewrite string_length_append. lia.
Qed.

Lemma relevant_sentences_long (keywords' : string) (sents : list string) :
  Forall (λ s, 20 < String.length s)%nat
    (crawler.relevant_sentences keywords' sents).
Proof.
  induction sents as [|sent sents IH]; simpl; [constructor|].
  destruct (Py.search_words _ _); simpl; [|done].
  destruct (20 <? String.length (Py.strip sent))%nat eqn:Hlong; [|done].
  constructor; [by apply Nat.ltb_lt|done].
Qed.

Lemma relevant_sentences_short (keywords' : string) (sents : list string) :
  Forall (λ s, String.length s ≤ 20)%nat sents →
  crawler.relevant_sentences keywords' sents = [].
Proof.
  induction 1 as [|sent sents Hsent _ IH]; simpl; [done|].
  pose proof (strip_length sent).
  replace (20 <? String.length (Py.strip sent))%nat with false
    by (symmetry; apply Nat.ltb_ge; lia).
  by rewrite andb_false_r.
Qed.

Lemma suggest_spec (templates : list (string * string)) (p : crawler.PageData) :
  crawler.sg_question <$> crawler.suggest templates p `sublist_of` templates.*1
  ∧ Forall (suggestion_from templates (crawler.content p))
      (crawler.suggest templates p).
Proof.
  induction templates as [|[q k] templates [IHq IHs]].
  { split; [done|constructor]. }
  assert (Forall (suggestion_from ((q, k) :: templates) (crawler.content p))
            (crawler.suggest templates p)) as IHs'.
  { eapply Forall_impl; [exact IHs|].
    intros s (q' & k' & Hin & Hrest). exists q', k'. split; [by right|done]. }
  rewrite suggest_cons. csimpl.
  destruct (Py.search_words k (Py.lower (crawler.content p))) eqn:Hsearch;
    [|split; [by apply sublist_cons|done]].
  pose proof (relevant_sentences_long k (crawler.sentences (crawler.content p)))
    as Hlong.
  destruct (crawler.relevant_sentences k (crawler.sentences (crawler.content p)))
    as [|sent relevant]; [split; [by apply sublist_cons|done]|].
  split; [by apply sublist_skip|].
  constructor; [|done].
  exists q, k. split; [left|]. split; [done|]. split; [done|]. split.
  - apply existsb_exists in Hsearch as (word & Hword & Hoccurs).
    exists word. split; [by apply list_elem_of_In|done].
  - apply Forall_cons in Hlong as [Hsent _]. simpl crawler.sg_source_content.
    eapply Nat.lt_le_trans; [exact Hsent|]. apply join_length_head.
Qed.

(** X19. The suggestions for a page follow the six templates: their
    questions are template questions in the order of the templates, none
    twice, so there are at most six; each suggestion carries the words of
    its template, one of which occurs in the page text in lower case, and a
    source text of more than twenty characters. *)
Theorem extract_qa_suggestions_follow_templates (p : crawler.PageData) :
  crawler.sg_question <$> crawler.extract_qa_suggestions p
    `sublist_of` crawler.question_templates.*1
  ∧ NoDup (crawler.sg_question <$> crawler.extract_qa_suggestions p)
  ∧ (length (crawler.extract_qa_suggestions p) ≤ 6)%nat
  ∧ Forall (suggestion_from crawler.question_templates (crawler.content p))
      (crawler.extract_qa_suggestions p).
Proof.
  unfold crawler.extract_qa_suggestions.
  destruct (suggest_spec crawler.question_templates p) as [Hsub Hall].
  split; [done|]. split.
  - eapply sublist_NoDup; [|exact Hsub].
    apply (bool_decide_unpack _). by vm_compute.
  - split; [|done]. apply sublist_length in Hsub.
    by rewrite length_fmap in Hsub.
Qed.

(** X20. A page whose text has twenty characters or fewer gives no
    suggestion, whatever it says. *)
Theorem short_page_gives_no_suggestions (p : crawler.PageData) :
  (String.length (crawler.content p) ≤ 20)%nat →
  crawler.extract_qa_suggestions p = [].
Proof.
  intros Hshort. unfold crawler.extract_qa_suggestions.
  induction crawler.question_templates as [|[q k] templates IH]; [done|].
  rewrite suggest_cons, IH.
  rewrite relevant_sentences_short; [by destruct (Py.search_words _ _)|].
  eapply Forall_impl; [apply split_on_length|]. simpl. lia.
Qed.

Lemma short_page_gives_no_suggestions_witness :
  let E := example_env [] working small_web in
  crawler.extract_qa_suggestions
    (crawler.extract_page_content E 0 "https://example.com/b") = [].
Proof.
  intros E. apply short_page_gives_no_suggestions. vm_compute. lia.
Defined.
